(** * NetStress C driver shim: a shallow embedding of [driver_shim.c]

    The development follows the layout of [native/c_driver/driver_shim.c]:
    machine integers, the checksum primitives, the portable raw-socket
    sender, the capability probe and backend selector, the io_uring batch
    sender and the AF_XDP ring code.  Definitions come first; the theorems
    about them are in the second half of the file. *)

From Stdlib Require Import ZArith List Lia Bool Ascii String Permutation.
From Stdlib.Strings Require Import Byte.
Import ListNotations.
Local Open Scope Z_scope.

(* ====================================================================== *)
(** ** Machine integers *)
(* ====================================================================== *)

(** Conversion to an unsigned C integer of [w] bits is reduction modulo
    [2^w]; conversion to a 32-bit [int] keeps the low 32 bits and reads
    them in two's complement. *)
Definition wrap (w : Z) (x : Z) : Z := x mod 2 ^ w.

Definition u8 (x : Z) : Z := wrap 8 x.
Definition u16 (x : Z) : Z := wrap 16 x.
Definition u32 (x : Z) : Z := wrap 32 x.
Definition u64 (x : Z) : Z := wrap 64 x.

Definition to_int (x : Z) : Z :=
  let r := u32 x in if r <? 2 ^ 31 then r else r - 2 ^ 32.

(** A [uint8_t] read from a buffer. *)
Definition byte_val (b : byte) : Z := Z.of_N (Byte.to_N b).

(** Byte order of the host, needed wherever the code moves a multi-byte
    integer through memory with [memcpy]. *)
Inductive endianness : Type := LittleEndian | BigEndian.

(** Object representation of a [uint32_t] and its inverse. *)
Definition load32 (e : endianness) (bs : list byte) : Z :=
  match bs with
  | [b0; b1; b2; b3] =>
      match e with
      | BigEndian =>
          Z.lor (Z.shiftl (byte_val b0) 24)
            (Z.lor (Z.shiftl (byte_val b1) 16)
               (Z.lor (Z.shiftl (byte_val b2) 8) (byte_val b3)))
      | LittleEndian =>
          Z.lor (Z.shiftl (byte_val b3) 24)
            (Z.lor (Z.shiftl (byte_val b2) 16)
               (Z.lor (Z.shiftl (byte_val b1) 8) (byte_val b0)))
      end
  | _ => 0
  end.

Definition byte_of_Z (x : Z) : byte :=
  match Byte.of_N (Z.to_N (u8 x)) with
  | Some b => b
  | None => x00
  end.

Definition store32 (e : endianness) (v : Z) : list byte :=
  let b k := byte_of_Z (Z.shiftr v (8 * k)) in
  match e with
  | BigEndian => [b 3; b 2; b 1; b 0]
  | LittleEndian => [b 0; b 1; b 2; b 3]
  end.

(* ====================================================================== *)
(** ** Checksum calculations *)
(* ====================================================================== *)

(** The two summation statements of [calculate_checksum] and of
    [calculate_transport_checksum]:
<<
    for (i = 0; i + 1 < len; i += 2)
        sum += ((uint16_t)data[i] << 8) | data[i + 1];
    if (i < len)
        sum += (uint16_t)data[i] << 8;
>>
    The first clause is one pass of the loop, the second the odd byte
    after it.  [sum] is a [uint32_t], so every addition wraps modulo
    [2^32]. *)
Fixpoint sum_words (data : list byte) (sum : Z) : Z :=
  match data with
  | hi :: lo :: rest =>
      sum_words rest (u32 (sum + Z.lor (Z.shiftl (byte_val hi) 8) (byte_val lo)))
  | [hi] => u32 (sum + Z.shiftl (byte_val hi) 8)
  | [] => sum
  end.

(** The same two statements with the index [i] of the source; [n] bounds
    the number of passes.  [sum_words_indexed] below shows that this is
    [sum_words]. *)
Definition data_at (data : list byte) (i : nat) : Z :=
  byte_val (nth i data x00).

Fixpoint sum_loop (n : nat) (i : nat) (data : list byte) (sum : Z) : nat * Z :=
  match n with
  | O => (i, sum)
  | S n' =>
      if (i + 1 <? List.length data)%nat then
        sum_loop n' (i + 2) data
          (u32 (sum + Z.lor (Z.shiftl (data_at data i) 8) (data_at data (i + 1))))
      else (i, sum)
  end.

Definition sum_indexed (data : list byte) (sum : Z) : Z :=
  let '(i, sum) := sum_loop (List.length data) 0 data sum in
  if (i <? List.length data)%nat
  then u32 (sum + Z.shiftl (data_at data i) 8) else sum.

(** [while (sum >> 16) sum = (sum & 0xFFFF) + (sum >> 16);]
    The loop is run with a fuel of 32 passes, one per bit of the
    accumulator; [fold_carries_unroll] and [fold_carries_exit] below show
    that the fuel is never exhausted on a 32-bit value. *)
Fixpoint fold_loop (fuel : nat) (sum : Z) : Z :=
  match fuel with
  | O => sum
  | S fuel' =>
      if Z.shiftr sum 16 =? 0 then sum
      else fold_loop fuel' (u32 (Z.land sum 0xFFFF + Z.shiftr sum 16))
  end.

Definition fold_carries (sum : Z) : Z := fold_loop 32 sum.

(** [return (uint16_t)(~sum);] *)
Definition complement16 (sum : Z) : Z := u16 (Z.lnot sum).

Definition calculate_checksum (data : list byte) : Z :=
  let sum := 0 in
  let sum := sum_words data sum in
  let sum := fold_carries sum in
  complement16 sum.

Definition calculate_transport_checksum
    (src_ip dst_ip : Z) (protocol : Z) (data : list byte) : Z :=
  let len := Z.of_nat (List.length data) in
  let sum := 0 in
  (* Pseudo-header *)
  let sum := u32 (sum + Z.land (Z.shiftr src_ip 16) 0xFFFF) in
  let sum := u32 (sum + Z.land src_ip 0xFFFF) in
  let sum := u32 (sum + Z.land (Z.shiftr dst_ip 16) 0xFFFF) in
  let sum := u32 (sum + Z.land dst_ip 0xFFFF) in
  let sum := u32 (sum + protocol) in
  let sum := u32 (sum + len) in
  (* Data *)
  let sum := sum_words data sum in
  (* Fold *)
  let sum := fold_carries sum in
  complement16 sum.

(** The checksum as the two bytes that are written into a header, high
    byte first. *)
Definition checksum_bytes (c : Z) : list byte :=
  [byte_of_Z (Z.shiftr c 8); byte_of_Z c].

(** Scenario inputs. *)
Definition ipv4_header_S1 : list byte :=
  [x45; x00; x00; x3c; x1c; x46; x40; x00; x40; x06;
   x00; x00; xac; x10; x0a; x63; xac; x10; x0a; x0c].

Definition udp_segment_S2 (csum : list byte) : list byte :=
  [x04; xd2; x16; x2e; x00; x0d] ++ csum ++ [x48; x65; x6c; x6c; x6f].

Definition ip_192_168_1_1 : list byte := [xc0; xa8; x01; x01].
Definition ip_192_168_1_2 : list byte := [xc0; xa8; x01; x02].

(* ====================================================================== *)
(** ** System calls *)
(* ====================================================================== *)

(** The shim reaches the kernel through [sendto].  A call is recorded with
    the arguments the kernel sees; its return value is supplied by the
    host, here a function from the call to the value returned. *)
Record sockaddr_in : Type := mk_sockaddr_in {
  sin_family : Z;
  sin_port : Z;
  sin_addr : Z          (* sin_addr.s_addr, a uint32_t *)
}.

Definition AF_INET : Z := 2.
Definition MSG_DONTWAIT : Z := 0x40.

Inductive syscall : Type :=
| Sendto (sockfd : Z) (buf : list byte) (len : Z) (flags : Z)
         (dest_addr : option sockaddr_in).

(** The four bytes of [sin_addr] as they lie in memory, which is what the
    kernel reads as the address in network order. *)
Definition s_addr_bytes (e : endianness) (dest : sockaddr_in) : list byte :=
  store32 e (sin_addr dest).

(** [memset(&dest, 0, sizeof(dest))] *)
Definition sockaddr_in_zero : sockaddr_in :=
  {| sin_family := 0; sin_port := 0; sin_addr := 0 |}.

(* ====================================================================== *)
(** ** Raw socket implementation *)
(* ====================================================================== *)

Section RawSocket.
(** Byte order of the host and the kernel's answer to each call. *)
Variable host : endianness.
Variable os : syscall -> Z.

(** A C buffer [(data, len)] is the list of its [len] bytes.  The result
    is the returned [int] together with the system calls made. *)
Definition raw_socket_send (sockfd : Z) (dst_ip : Z) (data : list byte)
  : Z * list syscall :=
  let len := Z.of_nat (List.length data) in
  let dest := sockaddr_in_zero in
  let dest := {| sin_family := AF_INET;
                 sin_port := sin_port dest;
                 sin_addr := dst_ip |} in
  let call := Sendto sockfd data len 0 (Some dest) in
  let sent := os call in
  (to_int sent, [call]).

Definition raw_socket_send_ip (sockfd : Z) (data : list byte)
  : Z * list syscall :=
  let len := Z.of_nat (List.length data) in
  (* Extract destination IP from IP header *)
  if len <? 20 then
    (-1, [])                       (* Too short for IP header *)
  else
    (* memcpy(&dst_ip, data + 16, 4) *)
    let dst_ip := load32 host (firstn 4 (skipn 16 data)) in
    raw_socket_send sockfd dst_ip data.
End RawSocket.

(* ====================================================================== *)
(** ** Backend detection and selection *)
(* ====================================================================== *)

Inductive backend_type_t : Type :=
| BACKEND_NONE
| BACKEND_RAW_SOCKET
| BACKEND_SENDMMSG
| BACKEND_IO_URING
| BACKEND_AF_XDP
| BACKEND_DPDK.

(** The enumerators' values. *)
Definition backend_value (b : backend_type_t) : Z :=
  match b with
  | BACKEND_NONE => 0
  | BACKEND_RAW_SOCKET => 1
  | BACKEND_SENDMMSG => 2
  | BACKEND_IO_URING => 3
  | BACKEND_AF_XDP => 4
  | BACKEND_DPDK => 5
  end.

Record system_capabilities_t : Type := mk_caps {
  has_dpdk : Z;
  has_af_xdp : Z;
  has_io_uring : Z;
  has_sendmmsg : Z;
  has_raw_socket : Z;
  kernel_version_major : Z;
  kernel_version_minor : Z;
  cpu_count : Z;
  numa_nodes : Z
}.

(** Field assignments [caps->f = v]. *)
Definition set_has_dpdk (v : Z) (c : system_capabilities_t) :=
  mk_caps v (has_af_xdp c) (has_io_uring c) (has_sendmmsg c) (has_raw_socket c)
    (kernel_version_major c) (kernel_version_minor c) (cpu_count c) (numa_nodes c).
Definition set_has_af_xdp (v : Z) (c : system_capabilities_t) :=
  mk_caps (has_dpdk c) v (has_io_uring c) (has_sendmmsg c) (has_raw_socket c)
    (kernel_version_major c) (kernel_version_minor c) (cpu_count c) (numa_nodes c).
Definition set_has_io_uring (v : Z) (c : system_capabilities_t) :=
  mk_caps (has_dpdk c) (has_af_xdp c) v (has_sendmmsg c) (has_raw_socket c)
    (kernel_version_major c) (kernel_version_minor c) (cpu_count c) (numa_nodes c).
Definition set_has_sendmmsg (v : Z) (c : system_capabilities_t) :=
  mk_caps (has_dpdk c) (has_af_xdp c) (has_io_uring c) v (has_raw_socket c)
    (kernel_version_major c) (kernel_version_minor c) (cpu_count c) (numa_nodes c).
Definition set_has_raw_socket (v : Z) (c : system_capabilities_t) :=
  mk_caps (has_dpdk c) (has_af_xdp c) (has_io_uring c) (has_sendmmsg c) v
    (kernel_version_major c) (kernel_version_minor c) (cpu_count c) (numa_nodes c).
Definition set_kernel_version_major (v : Z) (c : system_capabilities_t) :=
  mk_caps (has_dpdk c) (has_af_xdp c) (has_io_uring c) (has_sendmmsg c)
    (has_raw_socket c) v (kernel_version_minor c) (cpu_count c) (numa_nodes c).
Definition set_kernel_version_minor (v : Z) (c : system_capabilities_t) :=
  mk_caps (has_dpdk c) (has_af_xdp c) (has_io_uring c) (has_sendmmsg c)
    (has_raw_socket c) (kernel_version_major c) v (cpu_count c) (numa_nodes c).
Definition set_cpu_count (v : Z) (c : system_capabilities_t) :=
  mk_caps (has_dpdk c) (has_af_xdp c) (has_io_uring c) (has_sendmmsg c)
    (has_raw_socket c) (kernel_version_major c) (kernel_version_minor c) v
    (numa_nodes c).
Definition set_numa_nodes (v : Z) (c : system_capabilities_t) :=
  mk_caps (has_dpdk c) (has_af_xdp c) (has_io_uring c) (has_sendmmsg c)
    (has_raw_socket c) (kernel_version_major c) (kernel_version_minor c)
    (cpu_count c) v.

(** [memset(caps, 0, sizeof(system_capabilities_t))] *)
Definition caps_zero : system_capabilities_t := mk_caps 0 0 0 0 0 0 0 0 0.

(** *** Build configuration and host *)

(** The preprocessor symbols the file is compiled under. *)
Inductive target_os : Type := Windows | Linux | OtherOS.

Record build_config : Type := {
  target : target_os;            (* _WIN32 / __linux__ / neither *)
  HAS_DPDK : bool;
  HAS_AF_XDP : bool;
  HAS_IO_URING : bool
}.

(** A file as the probe meets it: [fopen] fails, or it succeeds and the
    first read fails, or it succeeds and the file has the given content. *)
Inductive file : Type :=
| Missing
| Unreadable
| Contents (s : string).

(** What the host answers to the probe's questions. *)
Record host_env : Type := {
  env_processors : Z;             (* the platform's processor count *)
  env_uname : option string;      (* uts.release when uname() returns 0 *)
  env_node_online : file          (* /sys/devices/system/node/online *)
}.

Definition get_cpu_count (cfg : build_config) (env : host_env) : Z :=
  match target cfg with
  | Windows => to_int (env_processors env)
  | Linux => to_int (env_processors env)
  | OtherOS => 1
  end.

(** *** The two [sscanf] formats, ["%d.%d"] and ["%d-%d"] *)

(** [isspace] in the C locale. *)
Definition is_space (c : ascii) : bool :=
  let n := N_of_ascii c in
  (n =? 32)%N || ((9 <=? n)%N && (n <=? 13)%N).

Definition digit_of (c : ascii) : option Z :=
  let n := N_of_ascii c in
  if ((48 <=? n)%N && (n <=? 57)%N)%bool then Some (Z.of_N n - 48) else None.

Fixpoint skip_spaces (s : string) : string :=
  match s with
  | String c rest => if is_space c then skip_spaces rest else s
  | EmptyString => s
  end.

(** The longest run of decimal digits at the head of [s], accumulated on
    [acc], and the unread rest. *)
Fixpoint scan_digits (s : string) (acc : Z) : Z * string :=
  match s with
  | String c rest =>
      match digit_of c with
      | Some d => scan_digits rest (10 * acc + d)
      | None => (acc, s)
      end
  | EmptyString => (acc, s)
  end.

(** One [%d] directive: white space is skipped, a sign is optional, at
    least one digit is required.  The value is stored into an [int]; a
    numeral outside the range of [int] is stored modulo [2^32]. *)
Definition scan_d (s : string) : option (Z * string) :=
  let s := skip_spaces s in
  let '(negative, s) :=
    match s with
    | String c rest =>
        if Ascii.eqb c "-"%char then (true, rest)
        else if Ascii.eqb c "+"%char then (false, rest)
        else (false, s)
    | EmptyString => (false, s)
    end in
  match s with
  | String c _ =>
      match digit_of c with
      | Some _ =>
          let '(v, rest) := scan_digits s 0 in
          Some (to_int (if negative then - v else v), rest)
      | None => None
      end
  | EmptyString => None
  end.

(** [sscanf(s, "%d<sep>%d", &a, &b)]: the values assigned, in order; the
    call returns their number (or [EOF], which is not 2 either, when the
    input ends before the first conversion). *)
Definition sscanf_d_sep_d (sep : ascii) (s : string) : list Z :=
  match scan_d s with
  | None => []
  | Some (a, rest) =>
      match rest with
      | String c rest' =>
          if Ascii.eqb c sep then
            match scan_d rest' with
            | Some (b, _) => [a; b]
            | None => [a]
            end
          else [a]
      | EmptyString => [a]
      end
  end.

(** [fgets(buf, size, f)] on a stream at its start: at most [size - 1]
    characters, up to and including the first newline; [NULL] at end of
    file. *)
Fixpoint read_line (n : nat) (s : string) : string :=
  match n, s with
  | S n', String c rest =>
      if Ascii.eqb c "010"%char then String c EmptyString
      else String c (read_line n' rest)
  | _, _ => EmptyString
  end.

Definition fgets (size : nat) (f : file) : option string :=
  match f with
  | Contents (String c rest) => Some (read_line (size - 1) (String c rest))
  | _ => None
  end.

(** C truth of an [int]. *)
Definition truthy (x : Z) : bool := negb (x =? 0).

(** *** detect_capabilities *)

(** The function is embedded block by block, each block under the comment
    that heads it in the source. *)

(** [/* Check kernel version */]: [sscanf]'s return value is not looked
    at; the fields it did not assign stay as they are. *)
Definition check_kernel_version (env : host_env) (caps : system_capabilities_t)
  : system_capabilities_t :=
  match env_uname env with
  | Some release =>
      match sscanf_d_sep_d "."%char release with
      | [major] => set_kernel_version_major major caps
      | [major; minor] =>
          set_kernel_version_minor minor (set_kernel_version_major major caps)
      | _ => caps
      end
  | None => caps
  end.

(** [/* sendmmsg available on Linux 3.0+ */],
    [/* io_uring available on Linux 5.1+ */] and
    [/* AF_XDP available on Linux 4.18+ */]. *)
Definition check_kernel_features (cfg : build_config)
    (caps : system_capabilities_t) : system_capabilities_t :=
  let caps :=
    if kernel_version_major caps >=? 3
    then set_has_sendmmsg 1 caps else caps in
  let caps :=
    if (kernel_version_major caps >? 5)
       || ((kernel_version_major caps =? 5)
           && (kernel_version_minor caps >=? 1))
    then (if HAS_IO_URING cfg then set_has_io_uring 1 caps else caps)
    else caps in
  let caps :=
    if (kernel_version_major caps >? 4)
       || ((kernel_version_major caps =? 4)
           && (kernel_version_minor caps >=? 18))
    then (if HAS_AF_XDP cfg then set_has_af_xdp 1 caps else caps)
    else caps in
  caps.

(** [/* NUMA detection */]; the [int] arithmetic of [end - start + 1] is
    taken modulo [2^32]. *)
Definition numa_detection (env : host_env) (caps : system_capabilities_t)
  : system_capabilities_t :=
  match env_node_online env with
  | Missing => caps
  | f =>
      match fgets 64 f with
      | Some buf =>
          (* Parse "0-N" format *)
          match sscanf_d_sep_d "-"%char buf with
          | [start; end_] => set_numa_nodes (to_int (end_ - start + 1)) caps
          | _ => set_numa_nodes 1 caps
          end
      | None => caps
      end
  end.

Definition detect_capabilities (cfg : build_config) (env : host_env)
  : Z * system_capabilities_t :=
  let caps := caps_zero in
  (* Always have raw sockets *)
  let caps := set_has_raw_socket 1 caps in
  (* CPU count *)
  let caps := set_cpu_count (get_cpu_count cfg env) caps in
  let caps :=
    match target cfg with
    | Linux =>
        let caps := check_kernel_version env caps in
        let caps := check_kernel_features cfg caps in
        numa_detection env caps
    | _ => caps
    end in
  let caps := if HAS_DPDK cfg then set_has_dpdk 1 caps else caps in
  (0, caps).

(** *** select_best_backend *)

Definition select_best_backend (caps : system_capabilities_t) : backend_type_t :=
  (* Priority: DPDK > AF_XDP > io_uring > sendmmsg > raw_socket *)
  if truthy (has_dpdk caps) then BACKEND_DPDK
  else if truthy (has_af_xdp caps) then BACKEND_AF_XDP
  else if truthy (has_io_uring caps) then BACKEND_IO_URING
  else if truthy (has_sendmmsg caps) then BACKEND_SENDMMSG
  else BACKEND_RAW_SOCKET.

(* ====================================================================== *)
(** ** io_uring implementation *)
(* ====================================================================== *)

(** Modelled from the spec: [driver_stats_t] is declared in
    [driver_shim.h], which is not part of the sources at hand; its five
    counters are the ones of the spec's stats block, taken as [uint64_t]
    (the DPDK path assigns the device's 64-bit counters to them). *)
Record driver_stats_t : Type := mk_stats {
  packets_sent : Z;
  packets_received : Z;
  bytes_sent : Z;
  bytes_received : Z;
  errors : Z
}.

Definition stats_zero : driver_stats_t := mk_stats 0 0 0 0 0.

(** A submission queue entry prepared by [io_uring_prep_sendmsg]. *)
Record io_uring_sqe : Type := {
  sqe_fd : Z;
  sqe_iov : list byte;            (* msg_iov[0], the caller's buffer *)
  sqe_name : sockaddr_in;         (* msg_name *)
  sqe_flags : Z;
  user_data : Z
}.

(** The ring as liburing presents it: the capacity of the submission
    queue, the entries obtained with [io_uring_get_sqe] and not yet
    submitted, and the number of submitted requests whose completion has
    not been marked seen. *)
Record io_uring : Type := {
  sq_entries : Z;
  sq_queued : list io_uring_sqe;
  cq_outstanding : Z
}.

(** The file's static variables. *)
Record uring_globals : Type := {
  ring : io_uring;
  io_uring_initialized : Z;
  io_uring_sockfd : Z;
  io_uring_stats : driver_stats_t
}.

(** The outcome of one [io_uring_wait_cqe]: a negative return value, or a
    completion with its [res] field. *)
Inductive wait_result : Type :=
| WaitFailed (ret : Z)
| WaitCqe (res : Z).

(** What the host does during one call of [io_uring_send_batch]. *)
Record uring_host : Type := {
  calloc_ok : bool;                   (* both allocations succeed *)
  submit_ret : Z;                     (* value of io_uring_submit *)
  wait_cqe : nat -> wait_result       (* the j-th io_uring_wait_cqe *)
}.

(** [io_uring_get_sqe]: the next free entry, or [NULL] when the
    submission queue is full. *)
Definition io_uring_get_sqe (r : io_uring) : bool :=
  Z.of_nat (List.length (sq_queued r)) <? sq_entries r.

Definition queue_sqe (e : io_uring_sqe) (r : io_uring) : io_uring :=
  {| sq_entries := sq_entries r;
     sq_queued := sq_queued r ++ [e];
     cq_outstanding := cq_outstanding r |}.

(** [io_uring_submit] returning [n >= 0] hands the first [n] queued
    entries to the kernel; a negative return value hands over none. *)
Definition io_uring_submit (n : Z) (r : io_uring) : io_uring :=
  if n <? 0 then r
  else {| sq_entries := sq_entries r;
          sq_queued := skipn (Z.to_nat n) (sq_queued r);
          cq_outstanding := cq_outstanding r + n |}.

(** [io_uring_cqe_seen] *)
Definition io_uring_cqe_seen (r : io_uring) : io_uring :=
  {| sq_entries := sq_entries r;
     sq_queued := sq_queued r;
     cq_outstanding := cq_outstanding r - 1 |}.

(** Prepare submission queue entries:
    [for (i = 0; i < count; i++) { sqe = io_uring_get_sqe(&ring); if (!sqe) break; ... }] *)
Fixpoint prepare_sqes (sockfd : Z) (i : Z)
    (batch : list (list byte * sockaddr_in)) (r : io_uring) : io_uring :=
  match batch with
  | [] => r
  | (packet, dest) :: rest =>
      if io_uring_get_sqe r then
        let sqe := {| sqe_fd := sockfd; sqe_iov := packet; sqe_name := dest;
                      sqe_flags := 0; user_data := i |} in
        prepare_sqes sockfd (i + 1) rest (queue_sqe sqe r)
      else r
  end.

(** The state of the completion loop. *)
Record drain_state : Type := {
  completed : Z;
  d_stats : driver_stats_t;
  d_ring : io_uring
}.

(** One successful pass of the loop body on a completion with result
    [res]. *)
Definition account_cqe (res : Z) (d : drain_state) : drain_state :=
  let st := d_stats d in
  let '(completed', st') :=
    if res >=? 0 then
      (completed d + 1,
       mk_stats (u64 (packets_sent st + 1)) (packets_received st)
                (u64 (bytes_sent st + res)) (bytes_received st) (errors st))
    else
      (completed d,
       mk_stats (packets_sent st) (packets_received st)
                (bytes_sent st) (bytes_received st) (u64 (errors st + 1))) in
  {| completed := completed'; d_stats := st';
     d_ring := io_uring_cqe_seen (d_ring d) |}.

(** Wait for completions:
    [for (int j = 0; j < submitted; j++) { ret = io_uring_wait_cqe(...); if (ret < 0) break; ... }]
    [n] is the number of passes left, [j] the loop counter. *)
Fixpoint drain_cqes (h : uring_host) (n : nat) (j : nat) (d : drain_state)
  : drain_state :=
  match n with
  | O => d
  | S n' =>
      match wait_cqe h j with
      | WaitFailed _ => d
      | WaitCqe res => drain_cqes h n' (S j) (account_cqe res d)
      end
  end.

Definition io_uring_send_batch (h : uring_host)
    (batch : list (list byte * sockaddr_in)) (g : uring_globals)
  : Z * uring_globals :=
  if negb (truthy (io_uring_initialized g)) then (-1, g)
  else if negb (calloc_ok h) then (-1, g)
  else
    (* Prepare submission queue entries *)
    let r := prepare_sqes (io_uring_sockfd g) 0 batch (ring g) in
    (* Submit all at once *)
    let submitted := to_int (submit_ret h) in
    let r := io_uring_submit submitted r in
    (* Wait for completions *)
    let d := drain_cqes h (Z.to_nat submitted) 0%nat
               {| completed := 0; d_stats := io_uring_stats g;
                  d_ring := r |} in
    (completed d,
     {| ring := d_ring d;
        io_uring_initialized := io_uring_initialized g;
        io_uring_sockfd := io_uring_sockfd g;
        io_uring_stats := d_stats d |}).

(** The completions the loop consumed: the results of the first waits up
    to the first failure, at most [n] of them. *)
Fixpoint consumed_cqes (h : uring_host) (n : nat) (j : nat) : list Z :=
  match n with
  | O => []
  | S n' =>
      match wait_cqe h j with
      | WaitFailed _ => []
      | WaitCqe res => res :: consumed_cqes h n' (S j)
      end
  end.

Definition successes (l : list Z) : list Z := filter (fun res => res >=? 0) l.
Definition failures (l : list Z) : list Z := filter (fun res => negb (res >=? 0)) l.
Definition sum_list (l : list Z) : Z := fold_right Z.add 0 l.

(** [io_uring_get_stats]; [stats_valid] says that the pointer argument
    is not [NULL]; the copy made through it is returned. *)
Definition io_uring_get_stats (stats_valid : bool) (g : uring_globals)
  : Z * option driver_stats_t :=
  if negb (truthy (io_uring_initialized g)) || negb stats_valid
  then (-1, None)
  else (0, Some (io_uring_stats g)).

(** The calls [cleanup_io_uring] makes. *)
Inductive uring_call : Type :=
| CloseFd (fd : Z)
| QueueExit.

(** [cleanup_io_uring]; the ring structure itself stays in memory as
    [io_uring_queue_exit] leaves it. *)
Definition cleanup_io_uring (g : uring_globals)
  : Z * list uring_call * uring_globals :=
  if truthy (io_uring_initialized g) then
    let '(calls, sockfd) :=
      if io_uring_sockfd g >=? 0
      then ([CloseFd (io_uring_sockfd g)], -1)
      else ([], io_uring_sockfd g) in
    (0, calls ++ [QueueExit],
     {| ring := ring g;
        io_uring_initialized := 0;
        io_uring_sockfd := sockfd;
        io_uring_stats := stats_zero |})
  else (0, [], g).

(* ====================================================================== *)
(** ** AF_XDP implementation *)
(* ====================================================================== *)

(** [XSK_UMEM__DEFAULT_FRAME_SIZE] is [1 << 12] in libbpf's [xsk.h]. *)
Definition XSK_UMEM__DEFAULT_FRAME_SIZE : Z := Z.shiftl 1 12.
Definition FRAME_SIZE : Z := XSK_UMEM__DEFAULT_FRAME_SIZE.
Definition NUM_FRAMES : Z := 4096.
Definition XDP_RING_NEED_WAKEUP : Z := 1.

Record xdp_desc : Type := {
  addr : Z;                       (* __u64 *)
  len : Z;                        (* __u32 *)
  options : Z
}.

Definition xdp_desc_zero : xdp_desc := {| addr := 0; len := 0; options := 0 |}.

(** libbpf's [struct xsk_ring_prod], with the memory it points to: the
    shared producer and consumer indices, the flags word and the array of
    entries, of type [T] ([__u64] addresses for the fill ring,
    descriptors for the tx ring). *)
Record xsk_ring_prod (T : Type) : Type := mk_prod {
  cached_prod : Z;
  cached_cons : Z;
  mask : Z;
  size : Z;
  producer : Z;
  consumer : Z;
  flags : Z;
  entries : Z -> T
}.
Arguments mk_prod {T}.
Arguments cached_prod {T}.
Arguments cached_cons {T}.
Arguments mask {T}.
Arguments size {T}.
Arguments producer {T}.
Arguments consumer {T}.
Arguments flags {T}.
Arguments entries {T}.

(** The ring as the library hands it over after creation with [n]
    entries. *)
Definition ring_create {T : Type} (n : Z) (dflt : T) : xsk_ring_prod T :=
  mk_prod 0 n (n - 1) n 0 0 0 (fun _ => dflt).

(** [xsk_prod_nb_free] *)
Definition xsk_prod_nb_free {T} (r : xsk_ring_prod T) (nb : Z)
  : Z * xsk_ring_prod T :=
  let free_entries := u32 (cached_cons r - cached_prod r) in
  if free_entries >=? nb then (free_entries, r)
  else
    let cc := u32 (consumer r + size r) in
    let r := mk_prod (cached_prod r) cc (mask r) (size r)
                     (producer r) (consumer r) (flags r) (entries r) in
    (u32 (cached_cons r - cached_prod r), r).

(** [xsk_ring_prod__reserve]: the number reserved (all of [nb] or none),
    the index stored through [idx] (left as it was when nothing is
    reserved), and the ring. *)
Definition xsk_ring_prod__reserve {T} (r : xsk_ring_prod T) (nb : Z) (idx : Z)
  : Z * Z * xsk_ring_prod T :=
  let '(free, r) := xsk_prod_nb_free r nb in
  if free <? nb then (0, idx, r)
  else
    (nb, cached_prod r,
     mk_prod (u32 (cached_prod r + nb)) (cached_cons r) (mask r) (size r)
             (producer r) (consumer r) (flags r) (entries r)).

(** [xsk_ring_prod__submit] *)
Definition xsk_ring_prod__submit {T} (r : xsk_ring_prod T) (nb : Z)
  : xsk_ring_prod T :=
  mk_prod (cached_prod r) (cached_cons r) (mask r) (size r)
          (u32 (producer r + nb)) (consumer r) (flags r) (entries r).

(** [*xsk_ring_prod__fill_addr(r, idx) = v] and the assignments through
    [xsk_ring_prod__tx_desc(r, idx)]: both address entry [idx & mask]. *)
Definition ring_store {T} (r : xsk_ring_prod T) (idx : Z) (v : T)
  : xsk_ring_prod T :=
  let slot := Z.land idx (mask r) in
  mk_prod (cached_prod r) (cached_cons r) (mask r) (size r)
          (producer r) (consumer r) (flags r)
          (fun k => if k =? slot then v else entries r k).

(** [xsk_ring_prod__needs_wakeup] *)
Definition xsk_ring_prod__needs_wakeup {T} (r : xsk_ring_prod T) : bool :=
  truthy (Z.land (flags r) XDP_RING_NEED_WAKEUP).

(** The entries a ring holds for the kernel: those submitted by the
    producer and not yet consumed. *)
Definition ring_contents {T} (r : xsk_ring_prod T) : list T :=
  map (fun k => entries r (Z.land (u32 (consumer r + Z.of_nat k)) (mask r)))
      (seq 0 (Z.to_nat (u32 (producer r - consumer r)))).

(** What a pointer variable holds: [NULL], the address of a live object,
    or the address of an object that has been freed. *)
Inductive pointer : Type :=
| PtrNull
| PtrLive
| PtrFreed.

(** The file's static variables that the initialisation and the send
    path use.  [xsk] holds the socket's descriptor when the socket exists
    ([xsk != NULL]); [umem] and [umem_area_ptr] say what the pointers
    [umem] and [umem_area] hold; [umem_area] is the content of the memory
    area, addressed by offset.  The rings are the structures together
    with the shared memory libbpf maps behind them.  The rx and
    completion rings belong to the receive path and to the kernel and
    are left out. *)
Record xdp_globals : Type := {
  xsk : option Z;
  umem : pointer;
  umem_area_ptr : pointer;
  umem_area : Z -> byte;
  tx_ring : xsk_ring_prod xdp_desc;
  fq : xsk_ring_prod Z
}.

(** What the host answers during [init_af_xdp]: the interface index; the
    area [aligned_alloc] returns with the bytes it happens to hold, or
    [NULL]; the values of the two libbpf calls and, for a call that
    fails, what it leaves in the ring it was given; the socket's
    descriptor.  libbpf stores the handles [umem] and [xsk] only when
    the call returns 0. *)
Record xdp_host : Type := {
  if_nametoindex : Z;
  aligned_alloc : option (Z -> byte);
  xsk_umem__create : Z;
  xsk_umem__create_leaves : xsk_ring_prod Z -> xsk_ring_prod Z;
  xsk_socket__create : Z;
  xsk_socket__create_leaves : xsk_ring_prod xdp_desc -> xsk_ring_prod xdp_desc;
  xsk_socket__fd : Z
}.

(** [size_t umem_size = NUM_FRAMES * FRAME_SIZE]: the size of the memory
    area [init_af_xdp] allocates. *)
Definition umem_size : Z := NUM_FRAMES * FRAME_SIZE.

(** The bytes of the area after [data] has been copied to offset [a]. *)
Definition copy_bytes (m : Z -> byte) (a : Z) (data : list byte) : Z -> byte :=
  fun k =>
    if (a <=? k) && (k <? a + Z.of_nat (List.length data))
    then nth (Z.to_nat (k - a)) data x00 else m k.

(** [memcpy((uint8_t* )umem_area + a, data, len)].  The copy is defined
    when [umem_area] points to the live area and the [len] bytes from
    offset [a] lie within its [umem_size] bytes; otherwise it writes
    through a null or dangling pointer or past the end of the
    allocation, which C leaves undefined: [None]. *)
Definition umem_write (ptr : pointer) (m : Z -> byte) (a : Z) (data : list byte)
  : option (Z -> byte) :=
  match ptr with
  | PtrLive =>
      if (0 <=? a) && (a + Z.of_nat (List.length data) <=? umem_size)
      then Some (copy_bytes m a data)
      else None
  | PtrNull | PtrFreed => None
  end.

(** Populate fill ring:
    [for (uint32_t i = 0; i < NUM_FRAMES; i++) *xsk_ring_prod__fill_addr(&fq, idx++) = i * FRAME_SIZE;]
    [n] is the number of passes left. *)
Fixpoint populate_fill (n : nat) (i idx : Z) (r : xsk_ring_prod Z)
  : xsk_ring_prod Z :=
  match n with
  | O => r
  | S n' =>
      populate_fill n' (u32 (i + 1)) (u32 (idx + 1))
        (ring_store r idx (u32 (i * FRAME_SIZE)))
  end.

(** [init_af_xdp]; [idx0] is the indeterminate initial value of the local
    [idx].  A call of libbpf that returns 0 has set up the rings it was
    given, with [fill_size], [tx_size] = [NUM_FRAMES] entries.  The
    error paths leave what the steps before them assigned: [umem_area]
    keeps the address of the area after [free(umem_area)], [umem] the
    handle after [xsk_umem__delete(umem)], and the fill ring is the one
    [xsk_umem__create] set up when [xsk_socket__create] fails. *)
Definition init_af_xdp (h : xdp_host) (idx0 : Z) (g : xdp_globals)
  : Z * xdp_globals :=
  if if_nametoindex h =? 0 then (-1, g)
  else
    (* Allocate UMEM area *)
    match aligned_alloc h with
    | None =>
        (-1,
         {| xsk := xsk g; umem := umem g;
            umem_area_ptr := PtrNull; umem_area := umem_area g;
            tx_ring := tx_ring g; fq := fq g |})
    | Some area =>
        (* Create UMEM *)
        let ret := xsk_umem__create h in
        if negb (ret =? 0) then
          (ret,
           {| xsk := xsk g; umem := umem g;
              umem_area_ptr := PtrFreed; umem_area := area;
              tx_ring := tx_ring g;
              fq := xsk_umem__create_leaves h (fq g) |})
        else
          let fill := ring_create NUM_FRAMES 0 in
          (* Create XSK socket *)
          let ret := xsk_socket__create h in
          if negb (ret =? 0) then
            (ret,
             {| xsk := xsk g; umem := PtrFreed;
                umem_area_ptr := PtrFreed; umem_area := area;
                tx_ring := xsk_socket__create_leaves h (tx_ring g);
                fq := fill |})
          else
            let tx := ring_create NUM_FRAMES xdp_desc_zero in
            (* Populate fill ring *)
            let '(_, idx, fill) := xsk_ring_prod__reserve fill NUM_FRAMES idx0 in
            let fill := populate_fill (Z.to_nat NUM_FRAMES) 0 idx fill in
            let fill := xsk_ring_prod__submit fill NUM_FRAMES in
            (xsk_socket__fd h,
             {| xsk := Some (xsk_socket__fd h); umem := PtrLive;
                umem_area_ptr := PtrLive; umem_area := area;
                tx_ring := tx;
                fq := fill |})
    end.

(** Kick TX *)
Definition kick_tx (fd : Z) (tx : xsk_ring_prod xdp_desc) : list syscall :=
  if xsk_ring_prod__needs_wakeup tx
  then [Sendto fd [] 0 MSG_DONTWAIT None] else [].

(** [af_xdp_send]: the returned [int], the addresses written into tx
    descriptors, the system calls made and the new state; [None] when
    the copy into the memory area is undefined. *)
Definition af_xdp_send (data : list byte) (idx0 : Z) (g : xdp_globals)
  : option (Z * list Z * list syscall * xdp_globals) :=
  match xsk g with
  | None => Some (-1, [], [], g)
  | Some fd =>
      let '(n, idx, tx) := xsk_ring_prod__reserve (tx_ring g) 1 idx0 in
      if negb (n =? 1) then
        Some (-1, [], [],
              {| xsk := xsk g; umem := umem g;
                 umem_area_ptr := umem_area_ptr g; umem_area := umem_area g;
                 tx_ring := tx; fq := fq g |})
      else
        let l := u32 (Z.of_nat (List.length data)) in
        let desc := {| addr := u32 (idx * FRAME_SIZE); len := l;
                       options := options (entries tx (Z.land idx (mask tx))) |} in
        let tx := ring_store tx idx desc in
        match umem_write (umem_area_ptr g) (umem_area g) (addr desc) data with
        | None => None
        | Some area =>
            let tx := xsk_ring_prod__submit tx 1 in
            Some (to_int l, [addr desc], kick_tx fd tx,
                  {| xsk := xsk g; umem := umem g;
                     umem_area_ptr := umem_area_ptr g; umem_area := area;
                     tx_ring := tx; fq := fq g |})
        end
  end.

(** The loop of [af_xdp_send_batch]:
    [for (uint32_t i = 0; i < reserved; i++) { desc = tx_desc(idx + i); desc->addr = (idx + i) * FRAME_SIZE; ... }]
    [n] is the number of passes left; the addresses written are collected
    in order.  The loop ends in [None] at the first copy that is
    undefined. *)
Fixpoint fill_tx_descs (n : nat) (i idx : Z) (packets : list (list byte))
    (ptr : pointer) (umem : Z -> byte) (tx : xsk_ring_prod xdp_desc)
  : option (list Z * (Z -> byte) * xsk_ring_prod xdp_desc) :=
  match n with
  | O => Some ([], umem, tx)
  | S n' =>
      let packet := nth (Z.to_nat i) packets [] in
      let slot := u32 (idx + i) in
      let desc := {| addr := u32 (u32 (idx + i) * FRAME_SIZE);
                     len := u32 (Z.of_nat (List.length packet));
                     options := options (entries tx (Z.land slot (mask tx))) |} in
      let tx := ring_store tx slot desc in
      match umem_write ptr umem (addr desc) packet with
      | None => None
      | Some umem =>
          match fill_tx_descs n' (u32 (i + 1)) idx packets ptr umem tx with
          | None => None
          | Some (written, umem, tx) => Some (addr desc :: written, umem, tx)
          end
      end
  end.

(** [af_xdp_send_batch]: the returned [int], the addresses written into
    tx descriptors, the system calls made and the new state; [None] when
    a copy into the memory area is undefined. *)
Definition af_xdp_send_batch (packets : list (list byte)) (idx0 : Z)
    (g : xdp_globals) : option (Z * list Z * list syscall * xdp_globals) :=
  match xsk g with
  | None => Some (-1, [], [], g)
  | Some fd =>
      let count := u32 (Z.of_nat (List.length packets)) in
      let '(reserved, idx, tx) := xsk_ring_prod__reserve (tx_ring g) count idx0 in
      match fill_tx_descs (Z.to_nat reserved) 0 idx packets
                          (umem_area_ptr g) (umem_area g) tx with
      | None => None
      | Some (written, area, tx) =>
          let tx := xsk_ring_prod__submit tx reserved in
          Some (to_int reserved, written, kick_tx fd tx,
                {| xsk := xsk g; umem := umem g;
                   umem_area_ptr := umem_area_ptr g; umem_area := area;
                   tx_ring := tx; fq := fq g |})
      end
  end.

(** The state before [init_af_xdp]: the statics are zero-initialised. *)
Definition xdp_globals_zero : xdp_globals :=
  {| xsk := None;
     umem := PtrNull;
     umem_area_ptr := PtrNull;
     umem_area := fun _ => x00;
     tx_ring := mk_prod 0 0 0 0 0 0 0 (fun _ => xdp_desc_zero);
     fq := mk_prod 0 0 0 0 0 0 0 (fun _ => 0) |}.

Definition xdp_host_ok : xdp_host :=
  {| if_nametoindex := 2;
     aligned_alloc := Some (fun _ => x00);
     xsk_umem__create := 0;
     xsk_umem__create_leaves := fun r => r;
     xsk_socket__create := 0;
     xsk_socket__create_leaves := fun r => r;
     xsk_socket__fd := 5 |}.

(* ====================================================================== *)
(** ** sendmmsg batch sending *)
(* ====================================================================== *)

(** [htons]: the 16-bit value whose bytes in memory are those of [v] in
    network order. *)
Definition htons (e : endianness) (v : Z) : Z :=
  match e with
  | BigEndian => u16 v
  | LittleEndian =>
      Z.lor (Z.shiftl (Z.land v 0xFF) 8) (Z.land (Z.shiftr v 8) 0xFF)
  end.

(** Object representation of a [uint16_t]. *)
Definition store16 (e : endianness) (v : Z) : list byte :=
  match e with
  | BigEndian => [byte_of_Z (Z.shiftr v 8); byte_of_Z v]
  | LittleEndian => [byte_of_Z v; byte_of_Z (Z.shiftr v 8)]
  end.

(** The [sendmmsg] system call with its message vector: for each message
    the buffer of its single [iovec] and the address [msg_name] points
    to. *)
Inductive mmsg_syscall : Type :=
| Sendmmsg (sockfd : Z) (msgvec : list (list byte * sockaddr_in)) (vlen : Z)
           (flags : Z).

(** The destination [sendmmsg_batch_same_dest] builds:
    [memset], [sin_family = AF_INET], [s_addr = dst_ip],
    [sin_port = htons(dst_port)]. *)
Definition same_dest (e : endianness) (dst_ip dst_port : Z) : sockaddr_in :=
  let dest := sockaddr_in_zero in
  {| sin_family := AF_INET; sin_port := htons e dst_port; sin_addr := dst_ip |}.

Section SendmmsgLinux.
(** [#ifdef __linux__]: the two allocations and the answer of the one
    system call. *)
Variable calloc_succeeds : bool.
Variable os : mmsg_syscall -> Z.

(** The three arrays [packets], [lengths], [dests] of [count] entries are
    the list of pairs (packet, destination). *)
Definition sendmmsg_batch (sockfd : Z) (batch : list (list byte * sockaddr_in))
  : Z * list mmsg_syscall :=
  let count := u32 (Z.of_nat (List.length batch)) in
  if negb calloc_succeeds then (-1, [])
  else
    (* for (i = 0; i < count; i++) msgs[i] = { &dests[i], &iovs[i] = packets[i] } *)
    let msgs := batch in
    let call := Sendmmsg sockfd msgs count 0 in
    let sent := to_int (os call) in
    (sent, [call]).

Definition sendmmsg_batch_same_dest (host : endianness) (sockfd : Z)
    (packets : list (list byte)) (dst_ip dst_port : Z)
  : Z * list mmsg_syscall :=
  let dest := same_dest host dst_ip dst_port in
  let count := u32 (Z.of_nat (List.length packets)) in
  if negb calloc_succeeds then (-1, [])
  else
    (* for (i = 0; i < count; i++) msgs[i] = { &dest, &iovs[i] = packets[i] } *)
    let msgs := map (fun packet => (packet, dest)) packets in
    let call := Sendmmsg sockfd msgs count 0 in
    let sent := to_int (os call) in
    (sent, [call]).
End SendmmsgLinux.

Section SendmmsgFallback.
(** [#else]: fallback for non-Linux systems, one [sendto] per packet;
    [os i] answers the [i]-th call. *)
Variable os : nat -> syscall -> Z.

(** [for (uint32_t i = 0; i < count; i++) { ret = sendto(...); if (ret > 0) sent++; }]
    [sent] is an [int]; it does not reach its limit below [2^31]
    packets. *)
Fixpoint sendto_each (sockfd : Z) (i : nat)
    (batch : list (list byte * sockaddr_in)) (sent : Z) : Z * list syscall :=
  match batch with
  | [] => (sent, [])
  | (packet, dest) :: rest =>
      let call := Sendto sockfd packet (Z.of_nat (List.length packet)) 0
                         (Some dest) in
      let ret := os i call in
      let sent := if ret >? 0 then sent + 1 else sent in
      let '(sent, calls) := sendto_each sockfd (S i) rest sent in
      (sent, call :: calls)
  end.

Definition sendmmsg_batch_fallback (sockfd : Z)
    (batch : list (list byte * sockaddr_in)) : Z * list syscall :=
  sendto_each sockfd 0 batch 0.

(** The same loop with the one destination [dest]. *)
Fixpoint sendto_each_same (sockfd : Z) (i : nat) (dest : sockaddr_in)
    (packets : list (list byte)) (sent : Z) : Z * list syscall :=
  match packets with
  | [] => (sent, [])
  | packet :: rest =>
      let call := Sendto sockfd packet (Z.of_nat (List.length packet)) 0
                         (Some dest) in
      let ret := os i call in
      let sent := if ret >? 0 then sent + 1 else sent in
      let '(sent, calls) := sendto_each_same sockfd (S i) dest rest sent in
      (sent, call :: calls)
  end.

Definition sendmmsg_batch_same_dest_fallback (host : endianness) (sockfd : Z)
    (packets : list (list byte)) (dst_ip dst_port : Z) : Z * list syscall :=
  let dest := same_dest host dst_ip dst_port in
  sendto_each_same sockfd 0 dest packets 0.
End SendmmsgFallback.

(* ====================================================================== *)
(** ** Backend names *)
(* ====================================================================== *)

(** [backend_name]: the [switch] is over the integer value of the
    argument, with a [default] for every value that is no backend. *)
Definition backend_name (backend : Z) : string :=
  if backend =? backend_value BACKEND_DPDK then "DPDK"
  else if backend =? backend_value BACKEND_AF_XDP then "AF_XDP"
  else if backend =? backend_value BACKEND_IO_URING then "io_uring"
  else if backend =? backend_value BACKEND_SENDMMSG then "sendmmsg"
  else if backend =? backend_value BACKEND_RAW_SOCKET then "raw_socket"
  else "unknown".

(* ====================================================================== *)
(** ** AF_XDP receive path *)
(* ====================================================================== *)

(** libbpf declares [struct xsk_ring_cons] with the fields of
    [struct xsk_ring_prod]; the rx ring is a value of the same record,
    read with the consumer's helpers. *)





(** [memcpy(buffer, (uint8_t* )umem_area + a, len)]: the bytes copied. *)
Definition umem_read (m : Z -> byte) (a : Z) (len : Z) : list byte :=
  map (fun k => m (a + Z.of_nat k)) (seq 0 (Z.to_nat len)).


(* ====================================================================== *)
(** ** io_uring single sends *)
(* ====================================================================== *)

(** [io_uring_send_single].  The entry's [user_data] is not assigned by
    the function; [ud] is the value the entry carries.  The host's
    [wait_cqe 0] is the one [io_uring_wait_cqe] of the call. *)
Definition io_uring_send_single (h : uring_host) (data : list byte)
    (dest : sockaddr_in) (ud : Z) (g : uring_globals) : Z * uring_globals :=
  if negb (truthy (io_uring_initialized g)) then (-1, g)
  else if negb (io_uring_get_sqe (ring g)) then (-1, g)
  else
    let sqe := {| sqe_fd := io_uring_sockfd g; sqe_iov := data;
                  sqe_name := dest; sqe_flags := 0; user_data := ud |} in
    let r := queue_sqe sqe (ring g) in
    let ret := to_int (submit_ret h) in
    let r := io_uring_submit ret r in
    let with_ring r :=
      {| ring := r;
         io_uring_initialized := io_uring_initialized g;
         io_uring_sockfd := io_uring_sockfd g;
         io_uring_stats := io_uring_stats g |} in
    if ret <? 0 then (ret, with_ring r)
    else
      match wait_cqe h 0 with
      | WaitFailed ret => (ret, with_ring r)
      | WaitCqe res => (res, with_ring (io_uring_cqe_seen r))
      end.

(* ====================================================================== *)
(** ** DPDK implementation *)
(* ====================================================================== *)

(** This part of the file is compiled when [HAS_DPDK] is defined. *)

(** What the DPDK library answers.  The port identifier, the length
    given to [rte_pktmbuf_append] and the number of packets of a burst
    reach the library as [uint16_t].  An mbuf is named by the number of
    the allocation that returned it. *)
Record dpdk_host : Type := {
  rte_eal_init : Z;
  rte_pktmbuf_pool_create : bool;          (* a pool, not NULL *)
  rte_eth_dev_info_get : Z -> Z;
  rte_eth_dev_configure : Z -> Z;
  rte_eth_rx_queue_setup : Z -> Z;
  rte_eth_tx_queue_setup : Z -> Z;
  rte_eth_dev_start : Z -> Z;
  rte_eth_promiscuous_enable : Z -> Z;
  rte_pktmbuf_alloc : nat -> bool;         (* allocation [i] gives an mbuf *)
  rte_pktmbuf_append : nat -> Z -> bool;   (* mbuf [i] has room for [len] *)
  rte_eth_tx_burst : Z -> Z -> Z           (* port, nb_pkts *)
}.

(** The library calls that change something, in the order made.
    [rte_socket_id] and [rte_eth_dev_socket_id] only read. *)
Inductive dpdk_call : Type :=
| EalInit
| PoolCreate
| DevInfoGet (port : Z)
| DevConfigure (port nb_rx_q nb_tx_q : Z)
| RxQueueSetup (port queue nb_desc : Z) (pool : bool)
| TxQueueSetup (port queue nb_desc : Z)
| DevStart (port : Z)
| PromiscuousEnable (port : Z)
| MbufAlloc (m : option nat)
| MbufAppend (m : nat) (len : Z)
| MbufCopy (m : nat) (data : list byte)
| MbufFree (m : nat)
| TxBurst (port queue : Z) (mbufs : list nat) (nb_pkts sent : Z)
| EalCleanup.

(** The file's static variables; [mbuf_pool] says that the pointer is not
    [NULL]. *)
Record dpdk_globals : Type := {
  mbuf_pool : bool;
  dpdk_initialized : Z
}.

Definition dpdk_init (h : dpdk_host) (g : dpdk_globals)
  : Z * list dpdk_call * dpdk_globals :=
  let ret := rte_eal_init h in
  if ret <? 0 then (-1, [EalInit], g)
  else
    (* Create mbuf pool *)
    let pool := rte_pktmbuf_pool_create h in
    if negb pool then
      (-1, [EalInit; PoolCreate],
       {| mbuf_pool := false; dpdk_initialized := dpdk_initialized g |})
    else
      (ret, [EalInit; PoolCreate],
       {| mbuf_pool := true; dpdk_initialized := 1 |}).

Definition init_dpdk_port (port_id : Z) (h : dpdk_host) (g : dpdk_globals)
  : Z * list dpdk_call :=
  if negb (truthy (dpdk_initialized g)) then (-1, [])
  else
    let p := u16 port_id in
    let ret := rte_eth_dev_info_get h p in
    let calls := [DevInfoGet p] in
    if negb (ret =? 0) then (ret, calls)
    else
      (* Configure port *)
      let ret := rte_eth_dev_configure h p in
      let calls := calls ++ [DevConfigure p 1 1] in
      if negb (ret =? 0) then (ret, calls)
      else
        (* Setup RX queue *)
        let ret := rte_eth_rx_queue_setup h p in
        let calls := calls ++ [RxQueueSetup p 0 1024 (mbuf_pool g)] in
        if ret <? 0 then (ret, calls)
        else
          (* Setup TX queue *)
          let ret := rte_eth_tx_queue_setup h p in
          let calls := calls ++ [TxQueueSetup p 0 1024] in
          if ret <? 0 then (ret, calls)
          else
            (* Start port *)
            let ret := rte_eth_dev_start h p in
            let calls := calls ++ [DevStart p] in
            if ret <? 0 then (ret, calls)
            else
              (* Enable promiscuous mode *)
              (0, calls ++ [PromiscuousEnable p]).

(** Allocate mbufs and copy data:
    [for (i = 0; i < count; i++) { mbufs[i] = rte_pktmbuf_alloc(mbuf_pool); ... }],
    from pass [i] on; [false] when the function returns -1 from inside
    the loop, after freeing what it holds.  [rte_pktmbuf_append] takes
    the length [lengths[i]] cut to 16 bits, [memcpy] the whole of it: for
    a length of 65536 or more the copy is longer than what was appended
    (and than any mbuf's buffer, whose size is a [uint16_t]), which C
    leaves undefined: [None]. *)
Fixpoint alloc_mbufs (h : dpdk_host) (i : nat) (packets : list (list byte))
  : option (bool * list dpdk_call) :=
  match packets with
  | [] => Some (true, [])
  | p :: rest =>
      let l := u32 (Z.of_nat (List.length p)) in
      if negb (rte_pktmbuf_alloc h i) then
        (* Free already allocated *)
        Some (false, MbufAlloc None :: map MbufFree (seq 0 i))
      else if negb (rte_pktmbuf_append h i (u16 l)) then
        Some (false,
              MbufAlloc (Some i) :: MbufAppend i (u16 l) :: MbufFree i
                :: map MbufFree (seq 0 i))
      else if u16 l <? l then None
      else
        match alloc_mbufs h (S i) rest with
        | None => None
        | Some (ok, calls) =>
            Some (ok,
                  MbufAlloc (Some i) :: MbufAppend i (u16 l) :: MbufCopy i p
                    :: calls)
        end
  end.

(** [dpdk_send_burst]: the returned [int] and the library calls made;
    [None] when a copy into an mbuf is undefined. *)
Definition dpdk_send_burst (port_id : Z) (packets : list (list byte))
    (h : dpdk_host) (g : dpdk_globals) : option (Z * list dpdk_call) :=
  if negb (truthy (dpdk_initialized g)) || negb (mbuf_pool g)
  then Some (-1, [])
  else
    let count := List.length packets in
    match alloc_mbufs h 0 packets with
    | None => None
    | Some (ok, calls) =>
        if negb ok then Some (-1, calls)
        else
          (* Send burst *)
          let nb_pkts := u16 (Z.of_nat count) in
          let sent := u16 (rte_eth_tx_burst h (u16 port_id) nb_pkts) in
          (* Free unsent mbufs *)
          let unsent := seq (Z.to_nat sent) (count - Z.to_nat sent) in
          Some (sent,
                calls ++ TxBurst (u16 port_id) 0 (seq 0 count) nb_pkts sent
                  :: map MbufFree unsent)
    end.

Definition cleanup_dpdk (g : dpdk_globals)
  : Z * list dpdk_call * dpdk_globals :=
  if truthy (dpdk_initialized g) then
    (0, [EalCleanup], {| mbuf_pool := mbuf_pool g; dpdk_initialized := 0 |})
  else (0, [], g).

(* ====================================================================== *)
(** ** Statements checked below *)
(* ====================================================================== *)

(** One pass of the carry-folding loop, arithmetically. *)
Definition fold_step (x : Z) : Z := x mod 65536 + x / 65536.

(** The transport checksum of scenario S2 as the claim states it: the two
    addresses are read from their network-order bytes into [uint32_t]
    arguments on a host of byte order [e], and the result is [0x8D79]. *)
Definition transport_checksum_S2 (e : endianness) (csum : list byte) : Z :=
  calculate_transport_checksum
    (load32 e ip_192_168_1_1) (load32 e ip_192_168_1_2) 17
    (udp_segment_S2 csum).

(** The round trip of C4 as the claim states it, for one sequence. *)
Definition checksum_round_trip (s : list byte) : Prop :=
  let c := calculate_checksum (s ++ checksum_bytes (calculate_checksum s)) in
  c = 0x0000 \/ c = 0xFFFF.

(** *** Raw socket *)

(** Bytes 16 to 19 of a buffer. *)
Definition bytes_16_19 (data : list byte) : list byte :=
  [nth 16 data x00; nth 17 data x00; nth 18 data x00; nth 19 data x00].

(** *** Selector *)

(** The spec's wording of the selector: the first available backend in
    the priority list. *)
Definition available (caps : system_capabilities_t) (b : backend_type_t) : bool :=
  match b with
  | BACKEND_NONE => false
  | BACKEND_RAW_SOCKET => truthy (has_raw_socket caps)
  | BACKEND_SENDMMSG => truthy (has_sendmmsg caps)
  | BACKEND_IO_URING => truthy (has_io_uring caps)
  | BACKEND_AF_XDP => truthy (has_af_xdp caps)
  | BACKEND_DPDK => truthy (has_dpdk caps)
  end.

Definition priority_order : list backend_type_t :=
  [BACKEND_DPDK; BACKEND_AF_XDP; BACKEND_IO_URING; BACKEND_SENDMMSG;
   BACKEND_RAW_SOCKET].

Definition first_available (caps : system_capabilities_t) : option backend_type_t :=
  find (available caps) priority_order.

(** Selection priority, [dpdk > af_xdp > io_uring > sendmmsg > raw_socket]:
    the enumerators are declared in that order. *)
Definition priority (b : backend_type_t) : Z := backend_value b.

(** [caps1 <= caps2] pointwise on the availability flags, read as C truth
    values. *)
Definition flag_le (x y : Z) : Prop := Bool.le (truthy x) (truthy y).

Definition caps_le (c1 c2 : system_capabilities_t) : Prop :=
  flag_le (has_dpdk c1) (has_dpdk c2) /\
  flag_le (has_af_xdp c1) (has_af_xdp c2) /\
  flag_le (has_io_uring c1) (has_io_uring c2) /\
  flag_le (has_sendmmsg c1) (has_sendmmsg c2) /\
  flag_le (has_raw_socket c1) (has_raw_socket c2).

(** The capability records of scenario S3. *)
Definition caps_S3_sendmmsg : system_capabilities_t :=
  mk_caps 0 0 0 1 1 3 10 0 0.

(** The first record of S3 with every other field zero, the raw-socket
    flag included. *)
Definition caps_S3_sendmmsg_only : system_capabilities_t :=
  mk_caps 0 0 0 1 0 3 10 0 0.
Definition caps_S3_af_xdp : system_capabilities_t :=
  mk_caps 0 1 1 1 1 0 0 0 0.

(** *** Capability probe *)

(** A decimal numeral: a non-empty string of digits, and the number it
    denotes. *)
Fixpoint all_digits (s : string) : bool :=
  match s with
  | String c rest =>
      match digit_of c with Some _ => all_digits rest | None => false end
  | EmptyString => true
  end.

Definition is_numeral (s : string) : bool :=
  match s with
  | EmptyString => false
  | _ => all_digits s
  end.

Fixpoint numeral_value (s : string) : Z :=
  match s with
  | String c rest =>
      match digit_of c with
      | Some d => d * 10 ^ Z.of_nat (String.length rest) + numeral_value rest
      | None => 0
      end
  | EmptyString => 0
  end.

Definition newline : string := String "010"%char EmptyString.

(** The content ["A-B\n"] of the node file. *)
Definition node_range (a b : string) : string :=
  (a ++ String "-"%char (b ++ newline))%string.

(** The kernel version the release string starts with, [0.0] when there
    is none. *)
Definition release_version (env : host_env) : Z * Z :=
  match env_uname env with
  | Some release =>
      match sscanf_d_sep_d "."%char release with
      | [major] => (major, 0)
      | [major; minor] => (major, minor)
      | _ => (0, 0)
      end
  | None => (0, 0)
  end.

(** A Linux build with every optional backend compiled in, and hosts for
    the scenarios. *)
Definition cfg_linux_full : build_config :=
  {| target := Linux; HAS_DPDK := false; HAS_AF_XDP := true;
     HAS_IO_URING := true |}.

Definition host_with (release : string) (f : file) : host_env :=
  {| env_processors := 8; env_uname := Some release; env_node_online := f |}.

(** *** io_uring *)

(** The counters hold 64-bit values. *)
Definition stats_wf (st : driver_stats_t) : Prop :=
  0 <= packets_sent st < 2 ^ 64 /\ 0 <= bytes_sent st < 2 ^ 64 /\
  0 <= errors st < 2 ^ 64.

(** The statement of the batch contract at one call: the return value is
    the number of completions with a non-negative result, the counters
    move by those completions, and no completion is left outstanding. *)
Definition send_batch_contract (h : uring_host)
    (batch : list (list byte * sockaddr_in)) (g : uring_globals) : Prop :=
  let cq := consumed_cqes h (Z.to_nat (to_int (submit_ret h))) 0 in
  let r := io_uring_send_batch h batch g in
  let st := io_uring_stats g in
  let st' := io_uring_stats (snd r) in
  fst r = Z.of_nat (List.length (successes cq)) /\
  packets_sent st' = u64 (packets_sent st + Z.of_nat (List.length (successes cq))) /\
  bytes_sent st' = u64 (bytes_sent st + sum_list (successes cq)) /\
  errors st' = u64 (errors st + Z.of_nat (List.length (failures cq))) /\
  cq_outstanding (ring (snd r)) = 0.

(** An initialised ring with nothing queued or outstanding, a batch of two
    datagrams, and a host on which the second wait is interrupted. *)
Definition uring_ready : uring_globals :=
  {| ring := {| sq_entries := 256; sq_queued := []; cq_outstanding := 0 |};
     io_uring_initialized := 1;
     io_uring_sockfd := 4;
     io_uring_stats := stats_zero |}.

Definition batch_of_two : list (list byte * sockaddr_in) :=
  [([x48; x65; x6c; x6c; x6f], mk_sockaddr_in AF_INET 5678 0);
   ([x48; x65], mk_sockaddr_in AF_INET 5678 0)].

Definition host_interrupted : uring_host :=
  {| calloc_ok := true;
     submit_ret := 2;
     wait_cqe := fun j => match j with
                          | O => WaitCqe 5
                          | _ => WaitFailed (-4)
                          end |}.

Definition host_completing : uring_host :=
  {| calloc_ok := true;
     submit_ret := 2;
     wait_cqe := fun j => match j with
                          | O => WaitCqe 5
                          | _ => WaitCqe (-11)
                          end |}.

(** *** AF_XDP *)

(** The frame addresses [0, FRAME_SIZE, ..., (NUM_FRAMES-1) * FRAME_SIZE]. *)
Definition frame_addresses : list Z :=
  map (fun i => Z.of_nat i * FRAME_SIZE) (seq 0 (Z.to_nat NUM_FRAMES)).

(** The address the batch loop writes on its [i]-th pass when the
    reservation starts at [idx]. *)
Definition batch_address (idx : Z) (i : nat) : Z :=
  u32 (u32 (idx + Z.of_nat i) * FRAME_SIZE).

Definition tx_addresses (g : xdp_globals) : list Z :=
  map addr (ring_contents (tx_ring g)).

(** The addresses of [n] consecutive frames from frame [idx] on. *)
Definition frames_from (idx : Z) (n : nat) : list Z :=
  map (fun i => (idx + Z.of_nat i) * FRAME_SIZE) (seq 0 n).

(** No address is in the fill ring and in the tx ring at once. *)
Definition fill_tx_disjoint (g : xdp_globals) : Prop :=
  forall a : Z, In a (ring_contents (fq g)) -> ~ In a (tx_addresses g).

(** The ring discipline at one call of [af_xdp_send_batch]: the addresses
    written are not among those posted to the fill ring, and afterwards
    the two rings share no address.  A call that is undefined is not
    held against the discipline. *)
Definition send_batch_respects_fill (packets : list (list byte)) (idx0 : Z)
    (g : xdp_globals) : Prop :=
  match af_xdp_send_batch packets idx0 g with
  | Some (_, written, _, g') =>
      (forall a : Z, In a written -> ~ In a (ring_contents (fq g))) /\
      fill_tx_disjoint g'
  | None => True
  end.

Definition init_succeeds (h : xdp_host) : Prop :=
  if_nametoindex h <> 0 /\ aligned_alloc h <> None /\
  xsk_umem__create h = 0 /\ xsk_socket__create h = 0.

(** The state right after a successful [init_af_xdp]. *)
Definition xdp_after_init : xdp_globals :=
  snd (init_af_xdp xdp_host_ok 0 xdp_globals_zero).

(** A state with the socket open and both rings fresh, and a batch of
    two one-byte packets. *)
Definition xdp_ready : xdp_globals :=
  {| xsk := Some 5;
     umem := PtrLive;
     umem_area_ptr := PtrLive;
     umem_area := fun _ => x00;
     tx_ring := ring_create NUM_FRAMES xdp_desc_zero;
     fq := ring_create NUM_FRAMES 0 |}.

Definition two_packets : list (list byte) := [[x00]; [x01]].

(** *** Checksums, further statements *)

(** The 16-bit words the summation reads: big-endian pairs, a trailing
    odd byte taken as a high byte. *)
Fixpoint words (data : list byte) : list Z :=
  match data with
  | hi :: lo :: rest =>
      Z.lor (Z.shiftl (byte_val hi) 8) (byte_val lo) :: words rest
  | [hi] => [Z.shiftl (byte_val hi) 8]
  | [] => []
  end.

(** The twelve bytes of the IPv4 pseudo-header: source and destination
    address, a zero byte, the protocol, the 16-bit length; all
    big-endian. *)
Definition pseudo_header (src_ip dst_ip protocol len : Z) : list byte :=
  store32 BigEndian src_ip ++ store32 BigEndian dst_ip ++
  [x00; byte_of_Z protocol; byte_of_Z (Z.shiftr len 8); byte_of_Z len].

(** *** sendmmsg, statements *)

(** The [sendto] call the fallback makes for one packet. *)
Definition sendto_call (sockfd : Z) (m : list byte * sockaddr_in) : syscall :=
  Sendto sockfd (fst m) (Z.of_nat (List.length (fst m))) 0 (Some (snd m)).

(** The number of calls of [calls], the first being the [i]-th, that the
    host answers with a positive value. *)
Fixpoint positive_answers (os : nat -> syscall -> Z) (i : nat)
    (calls : list syscall) : Z :=
  match calls with
  | [] => 0
  | call :: rest =>
      (if os i call >? 0 then 1 else 0) + positive_answers os (S i) rest
  end.

(** A port in network byte order. *)
Definition port_bytes (port : Z) : list byte :=
  [byte_of_Z (Z.shiftr port 8); byte_of_Z port].

(** *** Probe and selector together *)

(** Kernel version [major.minor] is at least [a.b]. *)
Definition version_ge (major minor a b : Z) : bool :=
  (major >? a) || ((major =? a) && (minor >=? b)).

(** The backend a build on a host ends up with, read off the build
    switches and the kernel version alone. *)
Definition backend_for (cfg : build_config) (env : host_env) : backend_type_t :=
  if HAS_DPDK cfg then BACKEND_DPDK
  else
    match target cfg with
    | Linux =>
        let '(major, minor) := release_version env in
        if version_ge major minor 4 18 && HAS_AF_XDP cfg then BACKEND_AF_XDP
        else if version_ge major minor 5 1 && HAS_IO_URING cfg
             then BACKEND_IO_URING
        else if major >=? 3 then BACKEND_SENDMMSG
        else BACKEND_RAW_SOCKET
    | _ => BACKEND_RAW_SOCKET
    end.

(** A release string ["A.B<rest>"]. *)
Definition release_string (a b rest : string) : string :=
  (a ++ String "."%char (b ++ rest))%string.

(** The string does not start with a digit. *)
Definition no_leading_digit (s : string) : Prop :=
  match s with
  | String c _ => digit_of c = None
  | EmptyString => True
  end.

(** *** io_uring, further statements *)

(** The entries the prepare loop builds for a batch, numbered from [i]. *)
Fixpoint sqes_of (sockfd : Z) (i : Z) (batch : list (list byte * sockaddr_in))
  : list io_uring_sqe :=
  match batch with
  | [] => []
  | (packet, dest) :: rest =>
      {| sqe_fd := sockfd; sqe_iov := packet; sqe_name := dest;
         sqe_flags := 0; user_data := i |} :: sqes_of sockfd (i + 1) rest
  end.

(** The free entries of the submission queue. *)
Definition sq_free (r : io_uring) : nat :=
  Z.to_nat (sq_entries r - Z.of_nat (List.length (sq_queued r))).

(** *** AF_XDP, further statements *)

(** A producer ring of [NUM_FRAMES] entries between two calls: everything
    reserved has been submitted, the cached consumer index is not ahead
    of the kernel's, and the indices are short of wrapping. *)
Definition prod_ring_ok {T : Type} (r : xsk_ring_prod T) : Prop :=
  size r = NUM_FRAMES /\ mask r = NUM_FRAMES - 1 /\
  0 <= consumer r <= producer r /\
  producer r - consumer r <= NUM_FRAMES /\
  cached_prod r = producer r /\
  producer r <= cached_cons r <= consumer r + NUM_FRAMES /\
  producer r + NUM_FRAMES < 2 ^ 32.


(** The free entries of a producer ring. *)
Definition ring_room {T : Type} (r : xsk_ring_prod T) : Z :=
  consumer r + NUM_FRAMES - producer r.

(** Address and length of a descriptor. *)
Definition desc_view (d : xdp_desc) : Z * Z := (addr d, len d).

(** The descriptors of a batch reserved from index [idx] on. *)
Definition batch_descs (idx : Z) (packets : list (list byte)) : list (Z * Z) :=
  map (fun j => (batch_address idx j,
                 u32 (Z.of_nat (List.length (nth j packets [])))))
      (seq 0 (List.length packets)).



(** A host on which one submission is accepted and completes with five
    bytes sent. *)
Definition host_one_sent : uring_host :=
  {| calloc_ok := true; submit_ret := 1; wait_cqe := fun _ => WaitCqe 5 |}.

(** *** DPDK *)

(** The mbufs a trace of calls allocated, freed, and handed over to the
    device (the first [sent] of a burst). *)
Definition mbufs_allocated (calls : list dpdk_call) : list nat :=
  flat_map (fun c => match c with MbufAlloc (Some m) => [m] | _ => [] end) calls.

Definition mbufs_freed (calls : list dpdk_call) : list nat :=
  flat_map (fun c => match c with MbufFree m => [m] | _ => [] end) calls.

Definition mbufs_sent (calls : list dpdk_call) : list nat :=
  flat_map (fun c => match c with
                     | TxBurst _ _ mbufs _ sent => firstn (Z.to_nat sent) mbufs
                     | _ => []
                     end) calls.

(** The packets copied into mbufs, by mbuf. *)
Definition mbufs_filled (calls : list dpdk_call) : list (nat * list byte) :=
  flat_map (fun c => match c with MbufCopy m data => [(m, data)] | _ => [] end)
           calls.

Definition is_tx_burst (c : dpdk_call) : bool :=
  match c with TxBurst _ _ _ _ _ => true | _ => false end.

(** Every allocation and every append of a burst succeeds, the mbufs
    being numbered from [i] on. *)
Fixpoint mbufs_granted (h : dpdk_host) (i : nat) (packets : list (list byte))
  : bool :=
  match packets with
  | [] => true
  | p :: rest =>
      rte_pktmbuf_alloc h i
      && rte_pktmbuf_append h i (u16 (u32 (Z.of_nat (List.length p))))
      && mbufs_granted h (S i) rest
  end.

(** The calls of a complete port bring-up. *)
Definition port_bringup (port_id : Z) (pool : bool) : list dpdk_call :=
  let p := u16 port_id in
  [DevInfoGet p; DevConfigure p 1 1; RxQueueSetup p 0 1024 pool;
   TxQueueSetup p 0 1024; DevStart p; PromiscuousEnable p].

(** A library that accepts everything and transmits all but the last
    packet of a burst. *)
Definition dpdk_host_ok : dpdk_host :=
  {| rte_eal_init := 0;
     rte_pktmbuf_pool_create := true;
     rte_eth_dev_info_get := fun _ => 0;
     rte_eth_dev_configure := fun _ => 0;
     rte_eth_rx_queue_setup := fun _ => 0;
     rte_eth_tx_queue_setup := fun _ => 0;
     rte_eth_dev_start := fun _ => 0;
     rte_eth_promiscuous_enable := fun _ => 0;
     rte_pktmbuf_alloc := fun _ => true;
     rte_pktmbuf_append := fun _ _ => true;
     rte_eth_tx_burst := fun _ nb => nb - 1 |}.

Definition dpdk_ready : dpdk_globals :=
  {| mbuf_pool := true; dpdk_initialized := 1 |}.

(* ====================================================================== *)
(** * Properties *)
(* ====================================================================== *)

(** ** Machine integers and bytes *)

Lemma u32_small (x : Z) : 0 <= x < 2 ^ 32 -> u32 x = x.
Proof. intros H. unfold u32, wrap. now apply Z.mod_small. Qed.

Lemma u32_range (x : Z) : 0 <= u32 x < 2 ^ 32.
Proof. unfold u32, wrap. apply Z.mod_pos_bound. lia. Qed.

Lemma byte_val_range (b : byte) : 0 <= byte_val b < 256.
Proof.
  unfold byte_val. pose proof (Byte.to_N_bounded b). lia.
Qed.

Lemma byte_val_of_Z (x : Z) : byte_val (byte_of_Z x) = x mod 256.
Proof.
  unfold byte_of_Z, byte_val, u8, wrap.
  change (2 ^ 8) with 256.
  assert (Hr : 0 <= x mod 256 < 256) by (apply Z.mod_pos_bound; lia).
  destruct (Byte.of_N (Z.to_N (x mod 256))) as [b|] eqn:E.
  - apply Byte.to_of_N in E. rewrite E. lia.
  - pose proof (Byte.to_of_N_option_map (Z.to_N (x mod 256))) as M.
    rewrite E in M. cbn in M.
    destruct (N.leb_spec (Z.to_N (x mod 256)) 255); [discriminate | lia].
Qed.

(** Shift-and-or of a low part below [2^k] is an addition. *)
Lemma lor_shiftl_add (a b k : Z) :
  0 <= k -> 0 <= b < 2 ^ k -> Z.lor (Z.shiftl a k) b = a * 2 ^ k + b.
Proof.
  intros Hk Hb.
  pose proof (Z.add_lor_land (Z.shiftl a k) b) as Hadd.
  assert (Hland : Z.land (Z.shiftl a k) b = 0).
  { apply Z.bits_inj'. intros n Hn.
    rewrite Z.land_spec, Z.bits_0.
    destruct (Z.ltb_spec n k).
    - rewrite Z.shiftl_spec_low by lia. reflexivity.
    - assert (Z.testbit b n = false) as ->.
      { destruct (Z.eq_dec b 0) as [->|]; [apply Z.bits_0|].
        apply Z.bits_above_log2; [lia|].
        apply Z.log2_lt_pow2; [lia|].
        apply Z.lt_le_trans with (2 ^ k); [lia|].
        apply Z.pow_le_mono_r; lia. }
      apply andb_false_r. }
  rewrite Hland, Z.shiftl_mul_pow2 in Hadd by lia.
  rewrite Z.shiftl_mul_pow2 by lia. lia.
Qed.

(** A 16-bit word assembled from a high and a low byte with shift and
    or is [256 * hi + lo]. *)
Lemma word_of_bytes (hi lo : Z) :
  0 <= hi < 256 -> 0 <= lo < 256 ->
  Z.lor (Z.shiftl hi 8) lo = 256 * hi + lo.
Proof.
  intros Hhi Hlo. rewrite lor_shiftl_add by (cbn; lia).
  change (2 ^ 8) with 256. lia.
Qed.

Lemma checksum_bytes_word (c : Z) :
  0 <= c < 65536 ->
  match checksum_bytes c with
  | [hi; lo] => Z.lor (Z.shiftl (byte_val hi) 8) (byte_val lo) = c
  | _ => False
  end.
Proof.
  intros Hc. unfold checksum_bytes.
  rewrite word_of_bytes by apply byte_val_range.
  rewrite !byte_val_of_Z, Z.shiftr_div_pow2 by lia.
  change (2 ^ 8) with 256.
  rewrite (Z.mod_small (c / 256)); [|split; [apply Z.div_pos; lia|apply Z.div_lt_upper_bound; lia]].
  pose proof (Z.div_mod c 256). lia.
Qed.

(** ** Checksum calculations *)

(** Induction over a byte sequence two bytes at a time, as the summation
    loop reads it. *)
Lemma pairs_ind {A : Type} (P : list A -> Prop) :
  P [] -> (forall a, P [a]) -> (forall a b l, P l -> P (a :: b :: l)) ->
  forall l, P l.
Proof.
  intros H0 H1 H2.
  fix IH 1. intros [|a [|b l]]; [exact H0 | apply H1 | apply H2, IH].
Qed.

Lemma sum_words_range (data : list byte) (sum : Z) :
  0 <= sum < 2 ^ 32 -> 0 <= sum_words data sum < 2 ^ 32.
Proof.
  revert sum. induction data as [| a | a b l IH] using pairs_ind; intros sum H.
  - exact H.
  - apply u32_range.
  - cbn [sum_words]. apply IH, u32_range.
Qed.

(** On an even number of bytes the loop ends on a word boundary, so the
    sum over a concatenation continues the sum over its first part. *)
Lemma sum_words_app_even (s t : list byte) (sum : Z) :
  Nat.even (List.length s) = true ->
  sum_words (s ++ t) sum = sum_words t (sum_words s sum).
Proof.
  revert sum. induction s as [| a | a b l IH] using pairs_ind; intros sum H.
  - reflexivity.
  - discriminate.
  - cbn [app sum_words]. apply IH. exact H.
Qed.

(** The indexed loop of the source and the recursion over the list
    compute the same sum. *)
Lemma sum_loop_words (rest : list byte) :
  forall (pre : list byte) (n : nat) (sum : Z),
    (List.length rest <= n)%nat ->
    let '(i, s) := sum_loop n (List.length pre) (pre ++ rest) sum in
    (if (i <? List.length (pre ++ rest))%nat
     then u32 (s + Z.shiftl (data_at (pre ++ rest) i) 8) else s)
    = sum_words rest sum.
Proof.
  induction rest as [| a | a b l IH] using pairs_ind; intros pre n sum Hn.
  - rewrite app_nil_r.
    destruct n as [|n]; cbn [sum_loop].
    + rewrite Nat.ltb_irrefl. reflexivity.
    + destruct (Nat.ltb_spec (List.length pre + 1) (List.length pre)); [lia|].
      rewrite Nat.ltb_irrefl. reflexivity.
  - assert (Hlen : List.length (pre ++ [a]) = (List.length pre + 1)%nat)
      by (rewrite length_app; reflexivity).
    assert (Hi : (if (List.length pre <? List.length (pre ++ [a]))%nat
                  then u32 (sum + Z.shiftl (data_at (pre ++ [a]) (List.length pre)) 8)
                  else sum) = sum_words [a] sum).
    { rewrite Hlen.
      destruct (Nat.ltb_spec (List.length pre) (List.length pre + 1)); [|lia].
      unfold data_at. rewrite nth_middle. reflexivity. }
    destruct n as [|n]; cbn [sum_loop]; [exact Hi|].
    destruct (Nat.ltb_spec (List.length pre + 1) (List.length (pre ++ [a])));
      [lia | exact Hi].
  - destruct n as [|n]; [cbn in Hn; lia|]. cbn [sum_loop sum_words].
    assert (Hlen : List.length (pre ++ a :: b :: l)
                   = (List.length pre + 2 + List.length l)%nat)
      by (rewrite length_app; cbn [List.length]; lia).
    destruct (Nat.ltb_spec (List.length pre + 1)
                (List.length (pre ++ a :: b :: l))); [|lia].
    assert (Ha : data_at (pre ++ a :: b :: l) (List.length pre) = byte_val a).
    { unfold data_at. rewrite nth_middle. reflexivity. }
    assert (Hb : data_at (pre ++ a :: b :: l) (List.length pre + 1) = byte_val b).
    { unfold data_at.
      replace (pre ++ a :: b :: l) with ((pre ++ [a]) ++ b :: l)
        by (rewrite <- app_assoc; reflexivity).
      replace (List.length pre + 1)%nat with (List.length (pre ++ [a]))
        by (rewrite length_app; reflexivity).
      rewrite nth_middle. reflexivity. }
    rewrite Ha, Hb.
    specialize (IH (pre ++ [a; b]) n
                  (u32 (sum + Z.lor (Z.shiftl (byte_val a) 8) (byte_val b)))).
    replace (List.length (pre ++ [a; b])) with (List.length pre + 2)%nat in IH
      by (rewrite length_app; reflexivity).
    replace ((pre ++ [a; b]) ++ l) with (pre ++ a :: b :: l) in IH
      by (rewrite <- app_assoc; reflexivity).
    apply IH. cbn in Hn. lia.
Qed.

Lemma sum_words_indexed (data : list byte) (sum : Z) :
  sum_indexed data sum = sum_words data sum.
Proof.
  unfold sum_indexed.
  pose proof (sum_loop_words data [] (List.length data) sum (Nat.le_refl _))
    as H.
  cbn [app List.length] in H.
  destruct (sum_loop (List.length data) 0 data sum) as [i s]. exact H.
Qed.

(** The carry-folding loop in closed form: nothing to do below [2^16],
    otherwise one pass, and a second one when the first carries. *)
Lemma fold_carries_closed (x : Z) :
  0 <= x < 2 ^ 32 ->
  fold_carries x =
    if x <? 65536 then x
    else if fold_step x <? 65536 then fold_step x
    else fold_step x - 65535.
Proof.
  intros Hx. unfold fold_carries, fold_step.
  change 32%nat with (S (S (S 29))). generalize 29%nat. intros fuel.
  cbn [fold_loop].
  change 0xFFFF with (Z.ones 16).
  rewrite !Z.land_ones, !Z.shiftr_div_pow2 by lia.
  change (2 ^ 16) with 65536. change (Z.ones 16) with 65535.
  assert (H1 : 0 <= x mod 65536 < 65536) by (apply Z.mod_pos_bound; lia).
  assert (H2 : 0 <= x / 65536 < 65536).
  { split; [apply Z.div_pos; lia | apply Z.div_lt_upper_bound; lia]. }
  destruct (Z.ltb_spec x 65536) as [Hlt|Hge].
  - rewrite Z.div_small by lia. reflexivity.
  - destruct (Z.eqb_spec (x / 65536) 0) as [E|_].
    { pose proof (Z.div_mod x 65536). lia. }
    rewrite u32_small by lia.
    set (y := x mod 65536 + x / 65536) in *.
    assert (Hyb : 0 <= y <= 131070) by (unfold y; lia).
    destruct (Z.ltb_spec y 65536) as [Hy|Hy].
    + rewrite (Z.div_small y) by lia. reflexivity.
    + assert (Ey : y / 65536 = 1).
      { symmetry. apply (Z.div_unique y 65536 1 (y - 65536)); lia. }
      assert (My : y mod 65536 = y - 65536).
      { symmetry. apply (Z.mod_unique y 65536 1 (y - 65536)); lia. }
      rewrite Ey, My. cbn [Z.eqb].
      rewrite u32_small by lia.
      rewrite (Z.div_small (y - 65536 + 1)) by lia. cbn [Z.eqb]. lia.
Qed.

Lemma fold_carries_range (x : Z) :
  0 <= x < 2 ^ 32 -> 0 <= fold_carries x < 65536.
Proof.
  intros Hx. rewrite fold_carries_closed by exact Hx. unfold fold_step.
  assert (H1 : 0 <= x mod 65536 < 65536) by (apply Z.mod_pos_bound; lia).
  assert (H2 : 0 <= x / 65536 < 65536).
  { split; [apply Z.div_pos; lia | apply Z.div_lt_upper_bound; lia]. }
  destruct (Z.ltb_spec x 65536); [lia|].
  destruct (Z.ltb_spec (x mod 65536 + x / 65536) 65536); lia.
Qed.

(** The fuel is enough: on a 32-bit accumulator the model stops because
    the loop condition [sum >> 16] is zero, and it satisfies the loop's
    unrolling equation. *)
Lemma fold_carries_exit (x : Z) :
  0 <= x < 2 ^ 32 -> Z.shiftr (fold_carries x) 16 = 0.
Proof.
  intros Hx. pose proof (fold_carries_range x Hx).
  rewrite Z.shiftr_div_pow2 by lia. apply Z.div_small.
  change (2 ^ 16) with 65536. lia.
Qed.

Lemma fold_carries_unroll (x : Z) :
  0 <= x < 2 ^ 32 ->
  fold_carries x =
    if Z.shiftr x 16 =? 0 then x
    else fold_carries (Z.land x 0xFFFF + Z.shiftr x 16).
Proof.
  intros Hx.
  change 0xFFFF with (Z.ones 16).
  rewrite Z.land_ones, Z.shiftr_div_pow2 by lia.
  change (2 ^ 16) with 65536.
  assert (H1 : 0 <= x mod 65536 < 65536) by (apply Z.mod_pos_bound; lia).
  assert (H2 : 0 <= x / 65536 < 65536).
  { split; [apply Z.div_pos; lia | apply Z.div_lt_upper_bound; lia]. }
  rewrite (fold_carries_closed x Hx). unfold fold_step.
  destruct (Z.ltb_spec x 65536) as [Hlt|Hge].
  - rewrite Z.div_small by lia. reflexivity.
  - destruct (Z.eqb_spec (x / 65536) 0) as [E|_].
    { pose proof (Z.div_mod x 65536). lia. }
    set (y := x mod 65536 + x / 65536) in *.
    assert (Hyb : 0 <= y <= 131070) by (unfold y; lia).
    rewrite (fold_carries_closed y) by lia. unfold fold_step.
    destruct (Z.ltb_spec y 65536) as [Hy|Hy]; [reflexivity|].
    assert (Ey : y / 65536 = 1).
    { symmetry. apply (Z.div_unique y 65536 1 (y - 65536)); lia. }
    assert (My : y mod 65536 = y - 65536).
    { symmetry. apply (Z.mod_unique y 65536 1 (y - 65536)); lia. }
    rewrite Ey, My.
    destruct (Z.ltb_spec (y - 65536 + 1) 65536); lia.
Qed.

Lemma complement16_spec (x : Z) :
  0 <= x < 65536 -> complement16 x = 65535 - x.
Proof.
  intros Hx. unfold complement16, u16, wrap, Z.lnot.
  change (2 ^ 16) with 65536.
  symmetry. apply (Z.mod_unique (Z.pred (- x)) 65536 (-1) (65535 - x)); lia.
Qed.

(** Adding the complement of the folded sum brings the accumulator to a
    multiple of [0xFFFF] without leaving 32 bits, and that folds to
    [0xFFFF]. *)
Lemma fold_carries_plus_complement (x : Z) :
  0 <= x < 2 ^ 32 ->
  0 <= x + (65535 - fold_carries x) < 2 ^ 32 /\
  fold_carries (x + (65535 - fold_carries x)) = 65535.
Proof.
  intros Hx.
  assert (Hr : 0 <= x + (65535 - fold_carries x) < 2 ^ 32).
  { pose proof (fold_carries_range x Hx) as Hf.
    rewrite fold_carries_closed in * by exact Hx. unfold fold_step in *.
    destruct (Z.ltb_spec x 65536); [lia|].
    destruct (Z.ltb_spec (x mod 65536 + x / 65536) 65536);
      Z.div_mod_to_equations; lia. }
  split; [exact Hr|].
  rewrite (fold_carries_closed (x + _)) by exact Hr.
  rewrite (fold_carries_closed x) by exact Hx. unfold fold_step.
  destruct (Z.ltb_spec x 65536) as [Hlt|Hge].
  - replace (x + (65535 - x)) with 65535 by lia. reflexivity.
  - destruct (Z.ltb_spec (x mod 65536 + x / 65536) 65536) as [Hy|Hy].
    + set (z := x + (65535 - (x mod 65536 + x / 65536))).
      assert (Ez : z = 65536 * (x / 65536) + (65535 - x / 65536)).
      { unfold z. Z.div_mod_to_equations. lia. }
      assert (Hq : 1 <= x / 65536 < 65536) by (Z.div_mod_to_equations; lia).
      assert (Dz : z / 65536 = x / 65536).
      { symmetry. apply (Z.div_unique z 65536 _ (65535 - x / 65536)); lia. }
      assert (Mz : z mod 65536 = 65535 - x / 65536).
      { symmetry. apply (Z.mod_unique z 65536 (x / 65536)); lia. }
      rewrite Dz, Mz.
      destruct (Z.ltb_spec z 65536); [lia|].
      destruct (Z.ltb_spec (65535 - x / 65536 + x / 65536) 65536); lia.
    + set (z := x + (65535 - (x mod 65536 + x / 65536 - 65535))).
      assert (Hq : 1 <= x / 65536 < 65536) by (Z.div_mod_to_equations; lia).
      assert (Ez : z = 65535 * (x / 65536) + 131070).
      { unfold z. Z.div_mod_to_equations. lia. }
      destruct (Z.eq_dec (x / 65536) 65535) as [E|NE].
      * assert (Dz : z / 65536 = 65535).
        { symmetry. apply (Z.div_unique z 65536 _ 65535); lia. }
        assert (Mz : z mod 65536 = 65535).
        { symmetry. apply (Z.mod_unique z 65536 65535); lia. }
        rewrite Dz, Mz. destruct (Z.ltb_spec z 65536); [lia|]. reflexivity.
      * assert (Dz : z / 65536 = x / 65536 + 1).
        { symmetry. apply (Z.div_unique z 65536 _ (65534 - x / 65536)); lia. }
        assert (Mz : z mod 65536 = 65534 - x / 65536).
        { symmetry. apply (Z.mod_unique z 65536 (x / 65536 + 1)); lia. }
        rewrite Dz, Mz. destruct (Z.ltb_spec z 65536); [lia|].
        destruct (Z.ltb_spec (65534 - x / 65536 + (x / 65536 + 1)) 65536); lia.
Qed.

(** C3. The IPv4 header of scenario S1,
    [45 00 00 3c 1c 46 40 00 40 06 00 00 ac 10 0a 63 ac 10 0a 0c],
    has checksum [0xB1E6]. *)
Theorem calculate_checksum_S1 :
  calculate_checksum ipv4_header_S1 = 0xB1E6.
Proof. vm_compute. reflexivity. Qed.

(** C2, as stated, fails: on neither byte order is the checksum of the
    S2 segment [0x8D79]. *)
Lemma transport_checksum_S2_not_8D79 :
  ~ (exists e : endianness, transport_checksum_S2 e [x00; x00] = 0x8D79).
Proof.
  intros [e H]. destruct e; vm_compute in H; discriminate H.
Qed.

(** C2, amended.  For the S2 segment the function returns [0x3DAE] when
    its address arguments carry the numeric value of the address
    ([0xC0A80101], the network-order bytes read on a big-endian host) and
    [0x6C7F] when they are the same bytes read on a little-endian host;
    in both cases recomputing over the segment with the checksum filled
    in gives [0x0000]. *)
Theorem transport_checksum_S2_value (e : endianness) :
  let c := transport_checksum_S2 e [x00; x00] in
  c = match e with BigEndian => 0x3DAE | LittleEndian => 0x6C7F end /\
  transport_checksum_S2 e (checksum_bytes c) = 0x0000.
Proof.
  destruct e; vm_compute; split; reflexivity.
Qed.

(** C4, as stated, fails on a sequence of odd length: the single byte
    [01] has checksum [0xFEFF], and [01 fe ff] has checksum [0xFF00]. *)
Lemma checksum_round_trip_odd_fails :
  ~ checksum_round_trip [x01].
Proof.
  unfold checksum_round_trip. vm_compute. intros [H | H]; discriminate H.
Qed.

(** C4, amended.  For every byte sequence of even length, appending the
    two bytes of its checksum, high byte first, and recomputing yields
    [0x0000]. *)
Theorem checksum_round_trip_even (s : list byte) :
  Nat.even (List.length s) = true ->
  calculate_checksum (s ++ checksum_bytes (calculate_checksum s)) = 0x0000.
Proof.
  intros Heven. unfold calculate_checksum at 1.
  rewrite sum_words_app_even by exact Heven.
  set (x := sum_words s 0).
  assert (Hx : 0 <= x < 2 ^ 32) by (apply sum_words_range; lia).
  pose proof (fold_carries_range x Hx) as Hf.
  assert (Hc : calculate_checksum s = 65535 - fold_carries x).
  { unfold calculate_checksum. fold x. apply complement16_spec, Hf. }
  rewrite Hc.
  pose proof (checksum_bytes_word (65535 - fold_carries x)) as Hw.
  destruct (checksum_bytes (65535 - fold_carries x)) as [|hi [|lo [|? ?]]] eqn:E;
    try (exfalso; apply Hw; lia).
  cbn [sum_words]. rewrite Hw by lia.
  destruct (fold_carries_plus_complement x Hx) as [Hr Hfold].
  rewrite u32_small by exact Hr. rewrite Hfold. reflexivity.
Qed.

(** The round trip on the 20-byte header of S1. *)
Lemma checksum_round_trip_even_witness :
  Nat.even (List.length ipv4_header_S1) = true /\
  calculate_checksum
    (ipv4_header_S1 ++ checksum_bytes (calculate_checksum ipv4_header_S1))
  = 0x0000.
Proof.
  split; [reflexivity | apply (checksum_round_trip_even ipv4_header_S1); reflexivity].
Defined.

(** ** Raw socket *)

Lemma byte_of_Z_val (b : byte) (x : Z) :
  x mod 256 = byte_val b -> byte_of_Z x = b.
Proof.
  intros H. unfold byte_of_Z, u8, wrap. change (2 ^ 8) with 256.
  rewrite H. unfold byte_val. rewrite N2Z.id, Byte.of_to_N. reflexivity.
Qed.

Lemma load32_value (e : endianness) (b0 b1 b2 b3 : byte) :
  load32 e [b0; b1; b2; b3] =
    match e with
    | BigEndian =>
        byte_val b0 * 2 ^ 24 + (byte_val b1 * 2 ^ 16 + (byte_val b2 * 2 ^ 8 + byte_val b3))
    | LittleEndian =>
        byte_val b3 * 2 ^ 24 + (byte_val b2 * 2 ^ 16 + (byte_val b1 * 2 ^ 8 + byte_val b0))
    end.
Proof.
  pose proof (byte_val_range b0). pose proof (byte_val_range b1).
  pose proof (byte_val_range b2). pose proof (byte_val_range b3).
  destruct e; cbn [load32];
    rewrite (lor_shiftl_add _ _ 8) by lia;
    rewrite (lor_shiftl_add _ _ 16) by lia;
    rewrite (lor_shiftl_add _ _ 24) by lia; reflexivity.
Qed.

(** Storing a [uint32_t] that was loaded from four bytes gives the four
    bytes back, on either byte order. *)
Lemma store32_load32 (e : endianness) (b0 b1 b2 b3 : byte) :
  store32 e (load32 e [b0; b1; b2; b3]) = [b0; b1; b2; b3].
Proof.
  rewrite load32_value.
  pose proof (byte_val_range b0). pose proof (byte_val_range b1).
  pose proof (byte_val_range b2). pose proof (byte_val_range b3).
  destruct e; unfold store32; cbn [Z.mul Pos.mul];
    rewrite !Z.shiftr_div_pow2 by lia;
    change (2 ^ 0) with 1; change (2 ^ 8) with 256;
    change (2 ^ 16) with 65536; change (2 ^ 24) with 16777216;
    repeat f_equal; apply byte_of_Z_val;
    Z.div_mod_to_equations; lia.
Qed.

Lemma firstn_skipn_16_4 (data : list byte) :
  (20 <= List.length data)%nat ->
  firstn 4 (skipn 16 data) = bytes_16_19 data.
Proof.
  intros H. unfold bytes_16_19.
  do 20 (destruct data as [|? data]; [cbn in H; lia|]).
  reflexivity.
Qed.

(** C10. A buffer shorter than 20 bytes is answered with -1 and no system
    call is made; for a buffer of at least 20 bytes exactly one [sendto]
    is made, on the whole buffer, and the address bytes of its destination
    are bytes 16 to 19 of the buffer; the result is what [sendto]
    returned. *)
Theorem raw_socket_send_ip_spec
    (host : endianness) (os : syscall -> Z) (sockfd : Z) (data : list byte) :
  (Z.of_nat (List.length data) < 20 ->
   raw_socket_send_ip host os sockfd data = (-1, [])) /\
  (20 <= Z.of_nat (List.length data) ->
   exists dest : sockaddr_in,
     let call := Sendto sockfd data (Z.of_nat (List.length data)) 0 (Some dest) in
     raw_socket_send_ip host os sockfd data = (to_int (os call), [call]) /\
     sin_family dest = AF_INET /\
     s_addr_bytes host dest = bytes_16_19 data).
Proof.
  unfold raw_socket_send_ip. split; intros Hlen.
  - destruct (Z.ltb_spec (Z.of_nat (List.length data)) 20); [reflexivity | lia].
  - destruct (Z.ltb_spec (Z.of_nat (List.length data)) 20); [lia|].
    eexists. cbn zeta. split; [reflexivity|]. split; [reflexivity|].
    unfold s_addr_bytes. cbn [sin_addr].
    rewrite firstn_skipn_16_4 by lia. apply store32_load32.
Qed.

(** A 3-byte buffer, and the S1 header sent to 172.16.10.12. *)
Lemma raw_socket_send_ip_spec_witness :
  raw_socket_send_ip LittleEndian (fun _ => 3) 7 [x45; x00; x00] = (-1, []) /\
  exists dest : sockaddr_in,
    let call := Sendto 7 ipv4_header_S1 20 0 (Some dest) in
    raw_socket_send_ip LittleEndian (fun _ => 20) 7 ipv4_header_S1
      = (20, [call]) /\
    sin_family dest = AF_INET /\
    s_addr_bytes LittleEndian dest = [xac; x10; x0a; x0c].
Proof.
  split.
  - apply (raw_socket_send_ip_spec LittleEndian (fun _ => 3) 7 [x45; x00; x00]).
    cbn. lia.
  - destruct (raw_socket_send_ip_spec LittleEndian (fun _ => 20) 7 ipv4_header_S1)
      as [_ H].
    apply H. cbn. lia.
Defined.

(** ** Backend selection *)

Lemma truthy_true (x : Z) : truthy x = true <-> x <> 0.
Proof.
  unfold truthy. destruct (Z.eqb_spec x 0); cbn; split; intros; congruence.
Qed.

Lemma truthy_false (x : Z) : truthy x = false <-> x = 0.
Proof.
  unfold truthy. destruct (Z.eqb_spec x 0); cbn; split; intros; congruence.
Qed.

(** The selector case by case: the result and what it says about the
    flags. *)
Lemma select_best_backend_cases (caps : system_capabilities_t) :
  (select_best_backend caps = BACKEND_DPDK /\ truthy (has_dpdk caps) = true) \/
  (select_best_backend caps = BACKEND_AF_XDP /\
   truthy (has_dpdk caps) = false /\ truthy (has_af_xdp caps) = true) \/
  (select_best_backend caps = BACKEND_IO_URING /\
   truthy (has_dpdk caps) = false /\ truthy (has_af_xdp caps) = false /\
   truthy (has_io_uring caps) = true) \/
  (select_best_backend caps = BACKEND_SENDMMSG /\
   truthy (has_dpdk caps) = false /\ truthy (has_af_xdp caps) = false /\
   truthy (has_io_uring caps) = false /\ truthy (has_sendmmsg caps) = true) \/
  (select_best_backend caps = BACKEND_RAW_SOCKET /\
   truthy (has_dpdk caps) = false /\ truthy (has_af_xdp caps) = false /\
   truthy (has_io_uring caps) = false /\ truthy (has_sendmmsg caps) = false).
Proof.
  unfold select_best_backend.
  destruct (truthy (has_dpdk caps)); [tauto|].
  destruct (truthy (has_af_xdp caps)); [tauto|].
  destruct (truthy (has_io_uring caps)); [tauto|].
  destruct (truthy (has_sendmmsg caps)); tauto.
Qed.

(** C5. On every capability record the selector returns the first
    available backend of the list dpdk, af_xdp, io_uring, sendmmsg,
    raw_socket, whatever the record's other fields hold; it does not
    read the raw-socket flag, and on a record on which no backend at all
    is flagged it returns raw_socket.  In particular a record with
    sendmmsg and no higher flag gives sendmmsg, and one with af_xdp,
    io_uring and sendmmsg (and no dpdk) gives af_xdp. *)
Theorem select_best_backend_first_available (caps : system_capabilities_t) :
  match first_available caps with
  | Some b => select_best_backend caps = b
  | None => select_best_backend caps = BACKEND_RAW_SOCKET
  end /\
  (has_dpdk caps = 0 -> has_af_xdp caps = 0 -> has_io_uring caps = 0 ->
   has_sendmmsg caps = 1 -> select_best_backend caps = BACKEND_SENDMMSG) /\
  (has_dpdk caps = 0 -> has_af_xdp caps = 1 -> has_io_uring caps = 1 ->
   has_sendmmsg caps = 1 -> select_best_backend caps = BACKEND_AF_XDP).
Proof.
  split; [|split].
  - unfold first_available, priority_order. cbn [find available].
    destruct (select_best_backend_cases caps)
      as [[-> H]|[[-> [H1 H2]]|[[-> [H1 [H2 H3]]]|[[-> [H1 [H2 [H3 H4]]]]|[-> [H1 [H2 [H3 H4]]]]]]]].
    + now rewrite H.
    + now rewrite H1, H2.
    + now rewrite H1, H2, H3.
    + now rewrite H1, H2, H3, H4.
    + rewrite H1, H2, H3, H4.
      destruct (truthy (has_raw_socket caps)); reflexivity.
  - intros E1 E2 E3 E4. unfold select_best_backend.
    rewrite E1, E2, E3, E4. reflexivity.
  - intros E1 E2 E3 E4. unfold select_best_backend.
    rewrite E1, E2. reflexivity.
Qed.

(** The records of scenario S3, the first one with the raw-socket flag
    set and with it zero. *)
Lemma select_best_backend_first_available_witness :
  (first_available caps_S3_sendmmsg = Some BACKEND_SENDMMSG /\
   select_best_backend caps_S3_sendmmsg = BACKEND_SENDMMSG) /\
  (first_available caps_S3_sendmmsg_only = Some BACKEND_SENDMMSG /\
   select_best_backend caps_S3_sendmmsg_only = BACKEND_SENDMMSG) /\
  (first_available caps_S3_af_xdp = Some BACKEND_AF_XDP /\
   select_best_backend caps_S3_af_xdp = BACKEND_AF_XDP).
Proof.
  split; [|split].
  - destruct (select_best_backend_first_available caps_S3_sendmmsg)
      as [_ [H2 _]].
    split; [reflexivity | apply H2; reflexivity].
  - destruct (select_best_backend_first_available caps_S3_sendmmsg_only)
      as [_ [H2 _]].
    split; [reflexivity | apply H2; reflexivity].
  - destruct (select_best_backend_first_available caps_S3_af_xdp)
      as [_ [_ H3]].
    split; [reflexivity | apply H3; reflexivity].
Defined.

Lemma flag_le_false (x y : Z) :
  flag_le x y -> truthy y = false -> truthy x = false.
Proof.
  unfold flag_le. destruct (truthy x), (truthy y); cbn; congruence.
Qed.

(** C6. The selector is monotone: when every availability flag set in
    [caps1] is set in [caps2], the backend chosen for [caps1] has priority
    at most that of the backend chosen for [caps2]. *)
Theorem select_best_backend_monotone (caps1 caps2 : system_capabilities_t) :
  caps_le caps1 caps2 ->
  priority (select_best_backend caps1) <= priority (select_best_backend caps2).
Proof.
  intros (Hd & Hx & Hu & Hs & _).
  destruct (select_best_backend_cases caps2)
    as [[-> H]|[[-> [H1 H2]]|[[-> [H1 [H2 H3]]]|[[-> [H1 [H2 [H3 H4]]]]|[-> [H1 [H2 [H3 H4]]]]]]]].
  - destruct (select_best_backend caps1); cbn; lia.
  - unfold select_best_backend.
    rewrite (flag_le_false _ _ Hd H1).
    repeat match goal with |- context [if ?b then _ else _] => destruct b end;
      cbn; lia.
  - unfold select_best_backend.
    rewrite (flag_le_false _ _ Hd H1), (flag_le_false _ _ Hx H2).
    repeat match goal with |- context [if ?b then _ else _] => destruct b end;
      cbn; lia.
  - unfold select_best_backend.
    rewrite (flag_le_false _ _ Hd H1), (flag_le_false _ _ Hx H2),
      (flag_le_false _ _ Hu H3).
    repeat match goal with |- context [if ?b then _ else _] => destruct b end;
      cbn; lia.
  - unfold select_best_backend.
    rewrite (flag_le_false _ _ Hd H1), (flag_le_false _ _ Hx H2),
      (flag_le_false _ _ Hu H3), (flag_le_false _ _ Hs H4).
    cbn. lia.
Qed.

(** On non-negative flags the numeric order implies the order of truth
    values. *)
Lemma flag_le_numeric (x y : Z) : 0 <= x -> x <= y -> flag_le x y.
Proof.
  intros Hx Hxy. unfold flag_le, truthy.
  destruct (Z.eqb_spec x 0), (Z.eqb_spec y 0); cbn; try reflexivity; lia.
Qed.

(** The first record of S3 lies below the second. *)
Lemma select_best_backend_monotone_witness :
  caps_le caps_S3_sendmmsg caps_S3_af_xdp /\
  priority (select_best_backend caps_S3_sendmmsg)
    <= priority (select_best_backend caps_S3_af_xdp).
Proof.
  assert (H : caps_le caps_S3_sendmmsg caps_S3_af_xdp).
  { unfold caps_le, flag_le. cbn. repeat split. }
  split; [exact H|].
  apply (select_best_backend_monotone caps_S3_sendmmsg caps_S3_af_xdp H).
Defined.

(** ** Capability probe *)

(** *** Scanning numerals *)

Lemma digit_of_Some (c : ascii) (d : Z) :
  digit_of c = Some d ->
  0 <= d <= 9 /\ is_space c = false /\
  Ascii.eqb c "-"%char = false /\ Ascii.eqb c "+"%char = false /\
  Ascii.eqb c "010"%char = false.
Proof.
  unfold digit_of, is_space. intros H.
  destruct (N.leb_spec 48 (N_of_ascii c)) as [Hlo|]; [|discriminate].
  destruct (N.leb_spec (N_of_ascii c) 57) as [Hhi|]; [|discriminate].
  cbn in H. injection H as <-.
  split; [lia|]. split.
  - destruct (N.eqb_spec (N_of_ascii c) 32); [lia|].
    destruct (N.leb_spec 9 (N_of_ascii c)); [|reflexivity].
    destruct (N.leb_spec (N_of_ascii c) 13); [lia | reflexivity].
  - assert (Hne : forall c' : ascii,
               (N_of_ascii c' <? 48)%N = true -> Ascii.eqb c c' = false).
    { intros c' Hc'. destruct (Ascii.eqb_spec c c') as [->|]; [|reflexivity].
      apply N.ltb_lt in Hc'. lia. }
    repeat split; apply Hne; reflexivity.
Qed.

Lemma numeral_value_nonneg (s : string) : 0 <= numeral_value s.
Proof.
  induction s as [|c s IH]; cbn [numeral_value]; [lia|].
  destruct (digit_of c) as [d|] eqn:E; [|lia].
  apply digit_of_Some in E. destruct E as [Hd _].
  assert (0 <= 10 ^ Z.of_nat (String.length s)) by (apply Z.pow_nonneg; lia).
  nia.
Qed.

(** The digit scanner reads a numeral to its end and accumulates its
    value. *)
Lemma scan_digits_numeral (s rest : string) (acc : Z) :
  all_digits s = true ->
  match rest with String c _ => digit_of c = None | EmptyString => True end ->
  scan_digits (s ++ rest) acc =
    (acc * 10 ^ Z.of_nat (String.length s) + numeral_value s, rest).
Proof.
  intros Hs Hrest. revert acc.
  induction s as [|c s IH]; intros acc.
  - cbn [append String.length numeral_value]. cbn [Z.of_nat Z.pow].
    destruct rest as [|c rest]; cbn [scan_digits].
    + f_equal. lia.
    + rewrite Hrest. f_equal. lia.
  - cbn [all_digits] in Hs. cbn [append scan_digits numeral_value String.length].
    destruct (digit_of c) as [d|]; [|discriminate].
    rewrite IH by exact Hs. f_equal.
    rewrite Nat2Z.inj_succ, Z.pow_succ_r by lia. ring.
Qed.

(** One [%d] on a numeral followed by something that is not a digit. *)
Lemma scan_d_numeral (s rest : string) :
  is_numeral s = true ->
  match rest with String c _ => digit_of c = None | EmptyString => True end ->
  numeral_value s < 2 ^ 31 ->
  scan_d (s ++ rest) = Some (numeral_value s, rest).
Proof.
  intros Hs Hrest Hv.
  destruct s as [|c s]; [discriminate|].
  cbn [is_numeral] in Hs.
  pose proof (scan_digits_numeral (String c s) rest 0 Hs Hrest) as Hscan.
  pose proof (numeral_value_nonneg (String c s)) as Hnn.
  cbn [all_digits] in Hs.
  destruct (digit_of c) as [d|] eqn:Ed; [|discriminate].
  destruct (digit_of_Some c d Ed) as (_ & Hsp & Hminus & Hplus & _).
  unfold scan_d. cbn [append skip_spaces]. rewrite Hsp, Hminus, Hplus, Ed.
  change (String c (s ++ rest)) with (String c s ++ rest)%string.
  rewrite Hscan. f_equal. f_equal.
  unfold to_int. rewrite u32_small by lia.
  destruct (Z.ltb_spec (0 * 10 ^ Z.of_nat (String.length (String c s))
                        + numeral_value (String c s)) (2 ^ 31)); lia.
Qed.

(** *** Reading the line *)

Lemma read_line_numeral (s rest : string) (n : nat) :
  all_digits s = true ->
  read_line (String.length s + n) (s ++ rest) = (s ++ read_line n rest)%string.
Proof.
  intros Hs. induction s as [|c s IH]; [reflexivity|].
  cbn [all_digits] in Hs.
  destruct (digit_of c) as [d|] eqn:Ed; [|discriminate].
  destruct (digit_of_Some c d Ed) as (_ & _ & _ & _ & Hnl).
  cbn [String.length Nat.add append read_line]. rewrite Hnl, IH by exact Hs.
  reflexivity.
Qed.

Lemma fgets_numeral_line (s : string) :
  is_numeral s = true -> (String.length s + 1 <= 63)%nat ->
  fgets 64 (Contents (s ++ newline)) = Some (s ++ newline)%string.
Proof.
  intros Hs Hlen.
  destruct s as [|c s]; [discriminate|]. cbn [is_numeral] in Hs.
  cbn [append fgets]. f_equal.
  change (String c (s ++ newline)) with (String c s ++ newline)%string.
  replace (64 - 1)%nat
    with (String.length (String c s) + S (62 - String.length (String c s)))%nat
    by lia.
  rewrite read_line_numeral by exact Hs. reflexivity.
Qed.

Lemma fgets_node_range (a b : string) :
  is_numeral a = true -> is_numeral b = true ->
  (String.length a + String.length b + 2 <= 63)%nat ->
  fgets 64 (Contents (node_range a b)) = Some (node_range a b).
Proof.
  intros Ha Hb Hlen.
  destruct a as [|c a]; [discriminate|]. cbn [is_numeral] in Ha.
  assert (Hb' : all_digits b = true) by (destruct b; [discriminate | exact Hb]).
  unfold node_range. cbn [append fgets]. f_equal.
  change (String c (a ++ String "-" (b ++ newline)))
    with (String c a ++ String "-" (b ++ newline))%string.
  set (k := (61 - String.length (String c a) - String.length b)%nat).
  replace (64 - 1)%nat
    with (String.length (String c a) + S (String.length b + S k))%nat by lia.
  rewrite read_line_numeral by exact Ha.
  cbn [read_line]. change (Ascii.eqb "-" "010") with false. cbv iota.
  rewrite read_line_numeral by exact Hb'. reflexivity.
Qed.

Lemma sscanf_node_range (a b : string) :
  is_numeral a = true -> is_numeral b = true ->
  numeral_value a < 2 ^ 31 -> numeral_value b < 2 ^ 31 ->
  sscanf_d_sep_d "-"%char (node_range a b) = [numeral_value a; numeral_value b].
Proof.
  intros Ha Hb Hva Hvb. unfold sscanf_d_sep_d, node_range.
  rewrite (scan_d_numeral a) by (try assumption; reflexivity).
  change (Ascii.eqb "-" "-") with true. cbv iota.
  rewrite (scan_d_numeral b) by (try assumption; reflexivity).
  reflexivity.
Qed.

Lemma sscanf_single_numeral (a : string) :
  is_numeral a = true -> numeral_value a < 2 ^ 31 ->
  sscanf_d_sep_d "-"%char (a ++ newline) = [numeral_value a].
Proof.
  intros Ha Hva. unfold sscanf_d_sep_d.
  rewrite (scan_d_numeral a) by (try assumption; reflexivity).
  reflexivity.
Qed.

(** *** The probe *)

Ltac case_conditions :=
  repeat match goal with
         | |- context [if ?b then _ else _] => destruct b eqn:?
         end.

(** What each block of the probe writes. *)
Lemma numa_detection_fields (env : host_env) (caps : system_capabilities_t) :
  let caps' := numa_detection env caps in
  has_dpdk caps' = has_dpdk caps /\ has_af_xdp caps' = has_af_xdp caps /\
  has_io_uring caps' = has_io_uring caps /\
  has_sendmmsg caps' = has_sendmmsg caps /\
  kernel_version_major caps' = kernel_version_major caps /\
  kernel_version_minor caps' = kernel_version_minor caps.
Proof.
  unfold numa_detection.
  destruct (env_node_online env) as [| |content]; [cbn; tauto | |];
    (destruct (fgets 64 _) as [buf|]; [|cbn; tauto]);
    destruct (sscanf_d_sep_d "-" buf) as [|? [|? [|? ?]]]; cbn; tauto.
Qed.

Lemma numa_detection_numa_nodes (env : host_env) (caps : system_capabilities_t) :
  numa_nodes caps = 0 ->
  numa_nodes (numa_detection env caps) =
    match env_node_online env with
    | Missing => 0
    | f =>
        match fgets 64 f with
        | Some buf =>
            match sscanf_d_sep_d "-"%char buf with
            | [start; end_] => to_int (end_ - start + 1)
            | _ => 1
            end
        | None => 0
        end
    end.
Proof.
  intros H0. unfold numa_detection.
  destruct (env_node_online env) as [| |content]; [exact H0 | |];
    (destruct (fgets 64 _) as [buf|]; [|exact H0]);
    destruct (sscanf_d_sep_d "-" buf) as [|? [|? [|? ?]]]; reflexivity.
Qed.

Lemma check_kernel_features_fields (cfg : build_config)
    (caps : system_capabilities_t) :
  let caps' := check_kernel_features cfg caps in
  let major := kernel_version_major caps in
  let minor := kernel_version_minor caps in
  kernel_version_major caps' = major /\ kernel_version_minor caps' = minor /\
  numa_nodes caps' = numa_nodes caps /\ has_dpdk caps' = has_dpdk caps /\
  has_sendmmsg caps' = (if major >=? 3 then 1 else has_sendmmsg caps) /\
  has_io_uring caps' =
    (if ((major >? 5) || ((major =? 5) && (minor >=? 1))) && HAS_IO_URING cfg
     then 1 else has_io_uring caps) /\
  has_af_xdp caps' =
    (if ((major >? 4) || ((major =? 4) && (minor >=? 18))) && HAS_AF_XDP cfg
     then 1 else has_af_xdp caps).
Proof.
  destruct caps as [d x u s r major minor cpu numa].
  unfold check_kernel_features.
  cbn [kernel_version_major kernel_version_minor].
  destruct (major >=? 3);
    cbn [set_has_sendmmsg kernel_version_major kernel_version_minor];
    destruct ((major >? 5) || ((major =? 5) && (minor >=? 1)));
    destruct (HAS_IO_URING cfg);
    cbn [set_has_sendmmsg set_has_io_uring
         kernel_version_major kernel_version_minor];
    destruct ((major >? 4) || ((major =? 4) && (minor >=? 18)));
    destruct (HAS_AF_XDP cfg); cbn; tauto.
Qed.

Lemma check_kernel_version_fields (env : host_env)
    (caps : system_capabilities_t) :
  let caps' := check_kernel_version env caps in
  has_dpdk caps' = has_dpdk caps /\ has_af_xdp caps' = has_af_xdp caps /\
  has_io_uring caps' = has_io_uring caps /\
  has_sendmmsg caps' = has_sendmmsg caps /\
  numa_nodes caps' = numa_nodes caps /\
  (kernel_version_major caps = 0 -> kernel_version_minor caps = 0 ->
   (kernel_version_major caps', kernel_version_minor caps') = release_version env).
Proof.
  unfold check_kernel_version, release_version.
  destruct (env_uname env) as [release|];
    [destruct (sscanf_d_sep_d "." release) as [|major [|minor [|? ?]]]|];
    cbn; repeat split; intros; congruence.
Qed.

(** The NUMA block of the probe, isolated: on Linux nothing before it
    writes [numa_nodes]. *)
Lemma detect_capabilities_numa (cfg : build_config) (env : host_env) :
  target cfg = Linux ->
  numa_nodes (snd (detect_capabilities cfg env)) =
    match env_node_online env with
    | Missing => 0
    | f =>
        match fgets 64 f with
        | Some buf =>
            match sscanf_d_sep_d "-"%char buf with
            | [start; end_] => to_int (end_ - start + 1)
            | _ => 1
            end
        | None => 0
        end
    end.
Proof.
  intros Hlinux. unfold detect_capabilities. rewrite Hlinux. cbn [snd].
  set (c0 := set_cpu_count _ _).
  assert (Hn : numa_nodes
                 (numa_detection env
                    (check_kernel_features cfg (check_kernel_version env c0)))
               = match env_node_online env with
                 | Missing => 0
                 | f =>
                     match fgets 64 f with
                     | Some buf =>
                         match sscanf_d_sep_d "-"%char buf with
                         | [start; end_] => to_int (end_ - start + 1)
                         | _ => 1
                         end
                     | None => 0
                     end
                 end).
  { apply numa_detection_numa_nodes.
    destruct (check_kernel_features_fields cfg (check_kernel_version env c0))
      as (_ & _ & -> & _).
    destruct (check_kernel_version_fields env c0) as (_ & _ & _ & _ & -> & _).
    reflexivity. }
  destruct (HAS_DPDK cfg); exact Hn.
Qed.

Lemma detect_capabilities_returns_0 (cfg : build_config) (env : host_env) :
  fst (detect_capabilities cfg env) = 0.
Proof. reflexivity. Qed.

(** C7. On Linux the probe sets [numa_nodes] to 4 when the node file
    reads ["0-3\n"], and to [B - A + 1] when it reads ["A-B\n"] for
    numerals [A] and [B]; to 1 when it reads a single integer such as
    ["0\n"]; leaves it 0 when the file cannot be opened or read; and
    [detect_capabilities] returns 0 in every case. *)
Theorem detect_capabilities_numa_nodes (cfg : build_config) (env : host_env) :
  target cfg = Linux ->
  let r := detect_capabilities cfg env in
  fst r = 0 /\
  (env_node_online env = Contents (node_range "0" "3") ->
   numa_nodes (snd r) = 4) /\
  (forall a b : string,
     is_numeral a = true -> is_numeral b = true ->
     (String.length a + String.length b + 2 <= 63)%nat ->
     numeral_value a < 2 ^ 31 -> numeral_value b < 2 ^ 31 ->
     numeral_value b - numeral_value a + 1 < 2 ^ 31 ->
     env_node_online env = Contents (node_range a b) ->
     numa_nodes (snd r) = numeral_value b - numeral_value a + 1) /\
  (env_node_online env = Contents ("0" ++ newline) ->
   numa_nodes (snd r) = 1) /\
  (forall a : string,
     is_numeral a = true -> (String.length a + 1 <= 63)%nat ->
     numeral_value a < 2 ^ 31 ->
     env_node_online env = Contents (a ++ newline) ->
     numa_nodes (snd r) = 1) /\
  (env_node_online env = Missing \/ env_node_online env = Unreadable ->
   numa_nodes (snd r) = 0).
Proof.
  intros Hlinux r. subst r.
  rewrite (detect_capabilities_numa cfg env Hlinux).
  split; [reflexivity|].
  assert (Hrange : forall a b : string,
     is_numeral a = true -> is_numeral b = true ->
     (String.length a + String.length b + 2 <= 63)%nat ->
     numeral_value a < 2 ^ 31 -> numeral_value b < 2 ^ 31 ->
     numeral_value b - numeral_value a + 1 < 2 ^ 31 ->
     env_node_online env = Contents (node_range a b) ->
     match env_node_online env with
     | Missing => 0
     | f =>
         match fgets 64 f with
         | Some buf =>
             match sscanf_d_sep_d "-"%char buf with
             | [start; end_] => to_int (end_ - start + 1)
             | _ => 1
             end
         | None => 0
         end
     end = numeral_value b - numeral_value a + 1).
  { intros a b Ha Hb Hlen Hva Hvb Hdiff ->.
    rewrite fgets_node_range, sscanf_node_range by assumption.
    pose proof (numeral_value_nonneg a). pose proof (numeral_value_nonneg b).
    unfold to_int, u32, wrap.
    destruct (Z.le_gt_cases 0 (numeral_value b - numeral_value a + 1)) as [Hp|Hn].
    - rewrite Z.mod_small by lia.
      destruct (Z.ltb_spec (numeral_value b - numeral_value a + 1) (2 ^ 31)); lia.
    - rewrite <- (Z.mod_add _ 1) by lia. rewrite Z.mod_small by lia.
      destruct (Z.ltb_spec (numeral_value b - numeral_value a + 1 + 1 * 2 ^ 32)
                           (2 ^ 31)); lia. }
  assert (Hsingle : forall a : string,
     is_numeral a = true -> (String.length a + 1 <= 63)%nat ->
     numeral_value a < 2 ^ 31 ->
     env_node_online env = Contents (a ++ newline) ->
     match env_node_online env with
     | Missing => 0
     | f =>
         match fgets 64 f with
         | Some buf =>
             match sscanf_d_sep_d "-"%char buf with
             | [start; end_] => to_int (end_ - start + 1)
             | _ => 1
             end
         | None => 0
         end
     end = 1).
  { intros a Ha Hlen Hva ->.
    rewrite fgets_numeral_line, sscanf_single_numeral by assumption.
    reflexivity. }
  split; [|split; [exact Hrange|split; [|split; [exact Hsingle|]]]].
  - intros H. rewrite (Hrange "0" "3")%string; try reflexivity; try exact H.
    cbn. lia.
  - intros H. apply (Hsingle "0"%string); try reflexivity; try exact H.
    cbn. lia.
  - intros [-> | ->]; reflexivity.
Qed.

(** Scenario S6 on a Linux host, and the range ["2-11\n"]. *)
Lemma detect_capabilities_numa_nodes_witness :
  numa_nodes (snd (detect_capabilities cfg_linux_full
                     (host_with "5.15.0-91-generic" (Contents (node_range "0" "3"))))) = 4 /\
  numa_nodes (snd (detect_capabilities cfg_linux_full
                     (host_with "5.15.0-91-generic" (Contents (node_range "2" "11"))))) = 10 /\
  numa_nodes (snd (detect_capabilities cfg_linux_full
                     (host_with "5.15.0-91-generic" (Contents ("0" ++ newline))))) = 1 /\
  numa_nodes (snd (detect_capabilities cfg_linux_full
                     (host_with "5.15.0-91-generic" Missing))) = 0.
Proof.
  split; [|split; [|split]].
  - apply (detect_capabilities_numa_nodes cfg_linux_full
             (host_with "5.15.0-91-generic" (Contents (node_range "0" "3"))));
      reflexivity.
  - destruct (detect_capabilities_numa_nodes cfg_linux_full
             (host_with "5.15.0-91-generic" (Contents (node_range "2" "11"))))
      as (_ & _ & H & _); [reflexivity|].
    apply (H "2" "11")%string; try reflexivity; cbn; lia.
  - apply (detect_capabilities_numa_nodes cfg_linux_full
             (host_with "5.15.0-91-generic" (Contents ("0" ++ newline))));
      reflexivity.
  - apply (detect_capabilities_numa_nodes cfg_linux_full
             (host_with "5.15.0-91-generic" Missing)).
    + reflexivity.
    + left. reflexivity.
Defined.

(** The three kernel-dependent flags as the probe leaves them, against
    the version it recorded. *)
Lemma detect_capabilities_flags_bool (cfg : build_config) (env : host_env) :
  let caps := snd (detect_capabilities cfg env) in
  let major := kernel_version_major caps in
  let minor := kernel_version_minor caps in
  has_sendmmsg caps = (if major >=? 3 then 1 else 0) /\
  has_io_uring caps =
    (if ((major >? 5) || ((major =? 5) && (minor >=? 1))) && HAS_IO_URING cfg
     then 1 else 0) /\
  has_af_xdp caps =
    (if ((major >? 4) || ((major =? 4) && (minor >=? 18))) && HAS_AF_XDP cfg
     then 1 else 0) /\
  (target cfg = Linux -> (major, minor) = release_version env).
Proof.
  unfold detect_capabilities. cbn [snd].
  set (c0 := set_cpu_count _ _).
  destruct (target cfg) eqn:Htarget;
    try (destruct (HAS_DPDK cfg), (HAS_IO_URING cfg), (HAS_AF_XDP cfg); cbn;
         repeat split; intros; discriminate).
  set (c1 := check_kernel_version env c0).
  set (c2 := check_kernel_features cfg c1).
  destruct (numa_detection_fields env c2) as (_ & Hx3 & Hu3 & Hs3 & HM3 & Hm3).
  destruct (check_kernel_features_fields cfg c1)
    as (HM2 & Hm2 & _ & _ & Hs2 & Hu2 & Hx2).
  destruct (check_kernel_version_fields env c0)
    as (_ & Hx1 & Hu1 & Hs1 & _ & Hv1).
  fold c1 in Hs1, Hu1, Hx1, Hv1. fold c2 in HM2, Hm2, Hs2, Hu2, Hx2.
  specialize (Hv1 eq_refl eq_refl).
  assert (Hfinal : forall c : system_capabilities_t,
    has_sendmmsg (if HAS_DPDK cfg then set_has_dpdk 1 c else c) = has_sendmmsg c /\
    has_io_uring (if HAS_DPDK cfg then set_has_dpdk 1 c else c) = has_io_uring c /\
    has_af_xdp (if HAS_DPDK cfg then set_has_dpdk 1 c else c) = has_af_xdp c /\
    kernel_version_major (if HAS_DPDK cfg then set_has_dpdk 1 c else c)
      = kernel_version_major c /\
    kernel_version_minor (if HAS_DPDK cfg then set_has_dpdk 1 c else c)
      = kernel_version_minor c).
  { intros c. destruct (HAS_DPDK cfg); cbn; tauto. }
  destruct (Hfinal (numa_detection env c2)) as (-> & -> & -> & -> & ->).
  rewrite Hs3, Hu3, Hx3, HM3, Hm3, Hs2, Hu2, Hx2, HM2, Hm2, Hs1, Hu1, Hx1.
  change (has_sendmmsg c0) with 0. change (has_io_uring c0) with 0.
  change (has_af_xdp c0) with 0.
  repeat split. intros _. exact Hv1.
Qed.

(** C8. The probe sets [has_sendmmsg] exactly when the kernel major
    version is at least 3; [has_io_uring] exactly when the version is at
    least 5.1 and io_uring was compiled in; [has_af_xdp] exactly when the
    version is at least 4.18 and XDP was compiled in.  The version is the
    one the probe recorded, which on Linux is the one the kernel release
    string starts with. *)
Theorem detect_capabilities_flags (cfg : build_config) (env : host_env) :
  let caps := snd (detect_capabilities cfg env) in
  let major := kernel_version_major caps in
  let minor := kernel_version_minor caps in
  (has_sendmmsg caps <> 0 <-> major >= 3) /\
  (has_io_uring caps <> 0 <->
   (major > 5 \/ (major = 5 /\ minor >= 1)) /\ HAS_IO_URING cfg = true) /\
  (has_af_xdp caps <> 0 <->
   (major > 4 \/ (major = 4 /\ minor >= 18)) /\ HAS_AF_XDP cfg = true) /\
  (target cfg = Linux -> (major, minor) = release_version env).
Proof.
  intros caps major minor.
  destruct (detect_capabilities_flags_bool cfg env) as (Hs & Hu & Hx & Hv).
  fold caps in Hs, Hu, Hx, Hv. fold major in Hs, Hu, Hx, Hv.
  fold minor in Hu, Hx, Hv.
  split; [|split; [|split; [|exact Hv]]].
  - rewrite Hs. destruct (Z.geb_spec major 3); split; intros; try lia; congruence.
  - rewrite Hu.
    destruct (Z.gtb_spec major 5), (Z.eqb_spec major 5), (Z.geb_spec minor 1),
      (HAS_IO_URING cfg); cbn; split; intros Hyp; try lia; try congruence;
      try (destruct Hyp as [Hyp ?]; try discriminate; lia).
  - rewrite Hx.
    destruct (Z.gtb_spec major 4), (Z.eqb_spec major 4), (Z.geb_spec minor 18),
      (HAS_AF_XDP cfg); cbn; split; intros Hyp; try lia; try congruence;
      try (destruct Hyp as [Hyp ?]; try discriminate; lia).
Qed.

(** A 4.18 kernel: sendmmsg and AF_XDP, no io_uring. *)
Lemma detect_capabilities_flags_witness :
  let caps := snd (detect_capabilities cfg_linux_full
                     (host_with "4.18.0-553.el8" Missing)) in
  (kernel_version_major caps, kernel_version_minor caps) = (4, 18) /\
  has_sendmmsg caps = 1 /\ has_io_uring caps = 0 /\ has_af_xdp caps = 1 /\
  (has_af_xdp caps <> 0 <->
   (kernel_version_major caps > 4 \/
    (kernel_version_major caps = 4 /\ kernel_version_minor caps >= 18)) /\
   HAS_AF_XDP cfg_linux_full = true).
Proof.
  intros caps.
  destruct (detect_capabilities_flags cfg_linux_full
              (host_with "4.18.0-553.el8" Missing)) as (_ & _ & Hx & Hv).
  split; [apply Hv; reflexivity|].
  split; [reflexivity|]. split; [reflexivity|]. split; [reflexivity|].
  exact Hx.
Defined.

(** ** io_uring *)

Lemma u64_small (x : Z) : 0 <= x < 2 ^ 64 -> u64 x = x.
Proof. intros H. unfold u64, wrap. now apply Z.mod_small. Qed.

Lemma u64_range (x : Z) : 0 <= u64 x < 2 ^ 64.
Proof. unfold u64, wrap. apply Z.mod_pos_bound. lia. Qed.

Lemma u64_add_l (a b : Z) : u64 (u64 a + b) = u64 (a + b).
Proof. unfold u64, wrap. apply Zplus_mod_idemp_l. Qed.

Lemma account_cqe_wf (res : Z) (d : drain_state) :
  stats_wf (d_stats d) -> stats_wf (d_stats (account_cqe res d)).
Proof.
  intros (Hp & Hb & He). unfold account_cqe, stats_wf.
  destruct (res >=? 0); cbn; repeat split; try apply u64_range; lia.
Qed.

Lemma prepare_sqes_outstanding (sockfd : Z)
    (batch : list (list byte * sockaddr_in)) :
  forall (i : Z) (r : io_uring),
    cq_outstanding (prepare_sqes sockfd i batch r) = cq_outstanding r.
Proof.
  induction batch as [|[packet dest] rest IH]; intros i r; cbn [prepare_sqes].
  - reflexivity.
  - destruct (io_uring_get_sqe r); [|reflexivity]. rewrite IH. reflexivity.
Qed.

(** The completion loop: what it returns and what it leaves, in terms of
    the completions it consumed. *)
Lemma drain_cqes_spec (h : uring_host) (n : nat) :
  forall (j : nat) (d : drain_state),
    stats_wf (d_stats d) ->
    let cq := consumed_cqes h n j in
    let d' := drain_cqes h n j d in
    completed d' = completed d + Z.of_nat (List.length (successes cq)) /\
    packets_sent (d_stats d')
      = u64 (packets_sent (d_stats d) + Z.of_nat (List.length (successes cq))) /\
    bytes_sent (d_stats d')
      = u64 (bytes_sent (d_stats d) + sum_list (successes cq)) /\
    errors (d_stats d')
      = u64 (errors (d_stats d) + Z.of_nat (List.length (failures cq))) /\
    packets_received (d_stats d') = packets_received (d_stats d) /\
    bytes_received (d_stats d') = bytes_received (d_stats d) /\
    cq_outstanding (d_ring d')
      = cq_outstanding (d_ring d) - Z.of_nat (List.length cq).
Proof.
  induction n as [|n IH]; intros j d Hwf; cbn [consumed_cqes drain_cqes].
  - destruct Hwf as (Hp & Hb & He). cbn.
    rewrite !Z.add_0_r, !u64_small by assumption. repeat split; lia.
  - destruct (wait_cqe h j) as [ret|res].
    + destruct Hwf as (Hp & Hb & He). cbn.
      rewrite !Z.add_0_r, !u64_small by assumption. repeat split; lia.
    + specialize (IH (S j) (account_cqe res d) (account_cqe_wf res d Hwf)).
      cbv zeta in IH |- *.
      destruct IH as (Hc & Hps & Hbs & Her & Hpr & Hbr & Hcq).
      rewrite Hc, Hps, Hbs, Her, Hpr, Hbr, Hcq. clear Hc Hps Hbs Her Hpr Hbr Hcq.
      unfold successes, failures, account_cqe.
      cbn [filter]. destruct (res >=? 0) eqn:Eres;
        cbn [negb List.length sum_list fold_right completed d_stats d_ring
             packets_sent bytes_sent errors packets_received bytes_received
             io_uring_cqe_seen cq_outstanding];
        rewrite ?u64_add_l, ?Nat2Z.inj_succ;
        fold (sum_list (filter (fun r : Z => r >=? 0) (consumed_cqes h n (S j))));
        repeat split; try (f_equal; lia); try lia.
Qed.

Lemma consumed_cqes_all (h : uring_host) (n : nat) :
  forall j : nat,
    (forall k : nat, (k < n)%nat -> exists res, wait_cqe h (j + k) = WaitCqe res) ->
    List.length (consumed_cqes h n j) = n.
Proof.
  induction n as [|n IH]; intros j H; cbn [consumed_cqes]; [reflexivity|].
  destruct (H 0%nat) as [res E]; [lia|]. rewrite Nat.add_0_r in E. rewrite E.
  cbn [List.length]. f_equal. apply IH. intros k Hk.
  replace (S j + k)%nat with (j + S k)%nat by lia. apply H. lia.
Qed.

(** C9, as stated, fails: when a wait is interrupted the loop stops and a
    completion of this very batch stays outstanding. *)
Lemma io_uring_send_batch_leaves_completion :
  ~ send_batch_contract host_interrupted batch_of_two uring_ready.
Proof.
  unfold send_batch_contract. intros (_ & _ & _ & _ & H).
  vm_compute in H. discriminate H.
Qed.

(** C9, amended.  On an initialised ring whose allocations succeed,
    [io_uring_send_batch] returns the number of completions it consumed
    with a non-negative result, adds that number to [packets_sent] and
    their results to [bytes_sent], adds one to [errors] per consumed
    completion with a negative result (all modulo [2^64]), and takes one
    completion off the ring per consumed completion.  It consumes one
    completion per submission when every wait succeeds; a failing wait
    ends the loop and leaves the remaining completions outstanding. *)
Theorem io_uring_send_batch_accounting (h : uring_host)
    (batch : list (list byte * sockaddr_in)) (g : uring_globals) :
  truthy (io_uring_initialized g) = true ->
  calloc_ok h = true ->
  stats_wf (io_uring_stats g) ->
  let submitted := to_int (submit_ret h) in
  let cq := consumed_cqes h (Z.to_nat submitted) 0 in
  let r := io_uring_send_batch h batch g in
  let st := io_uring_stats g in
  let st' := io_uring_stats (snd r) in
  fst r = Z.of_nat (List.length (successes cq)) /\
  packets_sent st' = u64 (packets_sent st + Z.of_nat (List.length (successes cq))) /\
  bytes_sent st' = u64 (bytes_sent st + sum_list (successes cq)) /\
  errors st' = u64 (errors st + Z.of_nat (List.length (failures cq))) /\
  packets_received st' = packets_received st /\
  bytes_received st' = bytes_received st /\
  cq_outstanding (ring (snd r))
    = cq_outstanding (ring g) + Z.max 0 submitted - Z.of_nat (List.length cq) /\
  ((forall j : nat, (j < Z.to_nat submitted)%nat ->
      exists res, wait_cqe h j = WaitCqe res) ->
   cq_outstanding (ring (snd r)) = cq_outstanding (ring g)).
Proof.
  intros Hinit Hcalloc Hwf submitted cq r st st'.
  subst r st st'. unfold io_uring_send_batch.
  rewrite Hinit, Hcalloc. cbn [negb fst snd io_uring_stats ring].
  fold submitted.
  set (r1 := io_uring_submit submitted _).
  set (d0 := {| completed := 0; d_stats := io_uring_stats g; d_ring := r1 |}).
  destruct (drain_cqes_spec h (Z.to_nat submitted) 0 d0 Hwf)
    as (Hc & Hps & Hbs & Her & Hpr & Hbr & Hcq).
  fold cq in Hc, Hps, Hbs, Her, Hcq.
  assert (Hr1 : cq_outstanding r1 = cq_outstanding (ring g) + Z.max 0 submitted).
  { unfold r1, io_uring_submit.
    destruct (Z.ltb_spec submitted 0); cbn [cq_outstanding];
      rewrite prepare_sqes_outstanding; lia. }
  assert (Hout : cq_outstanding (d_ring (drain_cqes h (Z.to_nat submitted) 0 d0))
                 = cq_outstanding (ring g) + Z.max 0 submitted
                   - Z.of_nat (List.length cq)).
  { rewrite Hcq. cbn [d_ring d0]. rewrite Hr1. reflexivity. }
  repeat split; try assumption.
  intros Hall. rewrite Hout. unfold cq.
  rewrite consumed_cqes_all by exact Hall. lia.
Qed.

(** Two submissions, one sent and one refused, both consumed. *)
Lemma io_uring_send_batch_accounting_witness :
  let r := io_uring_send_batch host_completing batch_of_two uring_ready in
  fst r = 1 /\
  packets_sent (io_uring_stats (snd r)) = 1 /\
  bytes_sent (io_uring_stats (snd r)) = 5 /\
  errors (io_uring_stats (snd r)) = 1 /\
  cq_outstanding (ring (snd r)) = 0.
Proof.
  destruct (io_uring_send_batch_accounting host_completing batch_of_two uring_ready)
    as (Hret & Hps & Hbs & Her & _ & _ & _ & Hall);
    [reflexivity | reflexivity | unfold stats_wf; cbn; lia |].
  cbv zeta. split; [exact Hret|]. split; [exact Hps|]. split; [exact Hbs|].
  split; [exact Her|].
  apply Hall. intros [|[|j]] Hj.
  - exists 5. reflexivity.
  - exists (-11). reflexivity.
  - cbn in Hj. lia.
Defined.

(** ** AF_XDP *)

Lemma land_frame_mask (k : Z) :
  0 <= k < NUM_FRAMES -> Z.land k (NUM_FRAMES - 1) = k.
Proof.
  intros Hk. change (NUM_FRAMES - 1) with (Z.ones 12).
  rewrite Z.land_ones by lia. apply Z.mod_small.
  change (2 ^ 12) with 4096. change NUM_FRAMES with 4096 in Hk. lia.
Qed.

(** The populate loop writes [i * FRAME_SIZE], [(i+1) * FRAME_SIZE], ...
    into consecutive entries from [idx] on and touches nothing else. *)
Lemma populate_fill_spec (n : nat) :
  forall (i idx : Z) (r : xsk_ring_prod Z),
    mask r = NUM_FRAMES - 1 ->
    0 <= i -> i + Z.of_nat n <= NUM_FRAMES ->
    0 <= idx -> idx + Z.of_nat n <= NUM_FRAMES ->
    let r' := populate_fill n i idx r in
    cached_prod r' = cached_prod r /\ cached_cons r' = cached_cons r /\
    mask r' = mask r /\ size r' = size r /\
    producer r' = producer r /\ consumer r' = consumer r /\
    forall k : Z,
      entries r' k =
        if (idx <=? k) && (k <? idx + Z.of_nat n)
        then (i + (k - idx)) * FRAME_SIZE else entries r k.
Proof.
  induction n as [|n IH]; intros i idx r Hmask Hi Hin Hidx Hidxn.
  - cbn [populate_fill]. repeat split. intros k.
    destruct (Z.leb_spec idx k), (Z.ltb_spec k (idx + Z.of_nat 0));
      cbn; try reflexivity; lia.
  - cbn [populate_fill].
    rewrite Nat2Z.inj_succ in Hin, Hidxn.
    change NUM_FRAMES with 4096 in Hin, Hidxn.
    rewrite (u32_small (i + 1)), (u32_small (idx + 1)) by lia.
    rewrite (u32_small (i * FRAME_SIZE)) by (change FRAME_SIZE with 4096; lia).
    specialize (IH (i + 1) (idx + 1) (ring_store r idx (i * FRAME_SIZE))).
    cbv zeta in IH.
    destruct IH as (H1 & H2 & H3 & H4 & H5 & H6 & Hent);
      try (change NUM_FRAMES with 4096; lia); [exact Hmask|].
    cbv zeta. rewrite H1, H2, H3, H4, H5, H6.
    repeat split. intros k. rewrite Hent.
    unfold ring_store. cbn [entries]. rewrite Hmask.
    rewrite land_frame_mask by (change NUM_FRAMES with 4096; lia).
    rewrite Nat2Z.inj_succ.
    destruct (Z.leb_spec (idx + 1) k), (Z.ltb_spec k (idx + 1 + Z.of_nat n)),
      (Z.leb_spec idx k), (Z.ltb_spec k (idx + Z.succ (Z.of_nat n))),
      (Z.eqb_spec k idx); cbn [andb]; try lia; try reflexivity;
      f_equal; lia.
Qed.

(** The fill ring after the populate loop and its submit, for a ring
    that was empty with all [n = NUM_FRAMES] entries reserved. *)
Lemma populate_fill_contents (n : nat) (r : xsk_ring_prod Z) :
  Z.of_nat n = NUM_FRAMES ->
  mask r = NUM_FRAMES - 1 -> producer r = 0 -> consumer r = 0 ->
  ring_contents (xsk_ring_prod__submit (populate_fill n 0 0 r) NUM_FRAMES)
    = map (fun i => Z.of_nat i * FRAME_SIZE) (seq 0 n).
Proof.
  intros Hn Hmask Hprod Hcons.
  assert (H0 : 0 <= 0) by lia.
  assert (Hle : 0 + Z.of_nat n <= NUM_FRAMES) by lia.
  destruct (populate_fill_spec n 0 0 r Hmask H0 Hle H0 Hle)
    as (_ & _ & Hm & _ & Hp & Hc & Hent).
  unfold ring_contents, xsk_ring_prod__submit.
  cbn [producer consumer mask entries].
  rewrite Hp, Hc, Hm, Hprod, Hcons, Hmask.
  assert (Hcount : Z.to_nat (u32 (u32 (0 + NUM_FRAMES) - 0)) = n).
  { change (u32 (u32 (0 + NUM_FRAMES) - 0)) with NUM_FRAMES. lia. }
  rewrite Hcount.
  apply map_ext_in. intros k Hk. apply in_seq in Hk.
  assert (Hk' : 0 <= Z.of_nat k < NUM_FRAMES) by lia.
  rewrite Z.add_0_l, u32_small by (change NUM_FRAMES with 4096 in Hk'; lia).
  rewrite land_frame_mask by exact Hk'.
  rewrite Hent.
  destruct (Z.leb_spec 0 (Z.of_nat k)), (Z.ltb_spec (Z.of_nat k) (0 + Z.of_nat n));
    cbn [andb]; lia.
Qed.

Lemma reserve_fresh_fill (idx0 : Z) :
  xsk_ring_prod__reserve (ring_create NUM_FRAMES 0) NUM_FRAMES idx0
    = (NUM_FRAMES, 0, mk_prod NUM_FRAMES NUM_FRAMES (NUM_FRAMES - 1) NUM_FRAMES
                              0 0 0 (fun _ => 0)).
Proof. reflexivity. Qed.

(** A successful [init_af_xdp], written out. *)
Lemma init_af_xdp_success (h : xdp_host) (idx0 : Z) (g : xdp_globals) :
  init_succeeds h ->
  exists area : Z -> byte,
    aligned_alloc h = Some area /\
    init_af_xdp h idx0 g =
      (xsk_socket__fd h,
       {| xsk := Some (xsk_socket__fd h);
          umem := PtrLive;
          umem_area_ptr := PtrLive;
          umem_area := area;
          tx_ring := ring_create NUM_FRAMES xdp_desc_zero;
          fq := xsk_ring_prod__submit
                  (populate_fill (Z.to_nat NUM_FRAMES) 0 0
                     (mk_prod NUM_FRAMES NUM_FRAMES (NUM_FRAMES - 1) NUM_FRAMES
                              0 0 0 (fun _ => 0)))
                  NUM_FRAMES |}).
Proof.
  intros (Hif & Halloc & Humem & Hsock). unfold init_af_xdp.
  destruct (Z.eqb_spec (if_nametoindex h) 0) as [|_]; [contradiction|].
  destruct (aligned_alloc h) as [area|]; [|contradiction].
  exists area. split; [reflexivity|].
  rewrite Humem, Hsock. cbn [negb Z.eqb].
  rewrite reserve_fresh_fill. reflexivity.
Qed.

(** After a successful [init_af_xdp] the socket exists, the memory area
    is live, the tx ring is the fresh ring of [NUM_FRAMES] entries, and
    the fill ring holds every frame address. *)
Lemma init_af_xdp_ok (h : xdp_host) (idx0 : Z) (g : xdp_globals) :
  init_succeeds h ->
  let r := init_af_xdp h idx0 g in
  fst r = xsk_socket__fd h /\
  xsk (snd r) = Some (xsk_socket__fd h) /\
  umem_area_ptr (snd r) = PtrLive /\
  tx_ring (snd r) = ring_create NUM_FRAMES xdp_desc_zero /\
  ring_contents (fq (snd r)) = frame_addresses.
Proof.
  intros Hok. cbv zeta.
  destruct (init_af_xdp_success h idx0 g Hok) as (area & _ & ->).
  cbn [fst snd xsk umem_area_ptr tx_ring fq].
  split; [reflexivity|]. split; [reflexivity|]. split; [reflexivity|].
  split; [reflexivity|].
  unfold frame_addresses. apply populate_fill_contents; reflexivity.
Qed.

Lemma zero_in_frame_addresses : In 0 frame_addresses.
Proof.
  unfold frame_addresses. apply in_map_iff. exists 0%nat.
  split; [reflexivity|]. apply in_seq.
  change (Z.to_nat NUM_FRAMES) with 4096%nat. lia.
Qed.

(** *** The rings and the memory area during a send *)

Lemma land_frame_mask_mod (x : Z) :
  Z.land x (NUM_FRAMES - 1) = x mod NUM_FRAMES.
Proof.
  change (NUM_FRAMES - 1) with (Z.ones 12).
  rewrite Z.land_ones by lia. reflexivity.
Qed.

(** Two indices less than [NUM_FRAMES] apart address different
    entries. *)
Lemma slots_distinct (x y : Z) :
  0 < y - x < NUM_FRAMES -> x mod NUM_FRAMES <> y mod NUM_FRAMES.
Proof.
  change NUM_FRAMES with 4096. intros H E.
  Z.div_mod_to_equations. lia.
Qed.

(** [xsk_ring_prod__reserve] on a ring in order: it succeeds exactly when
    the ring has room for all [nb] entries, and then hands out the
    producer index. *)
Lemma reserve_spec {T : Type} (r : xsk_ring_prod T) (nb idx0 : Z) :
  prod_ring_ok r -> 0 <= nb < 2 ^ 31 ->
  let '(n, idx, r') := xsk_ring_prod__reserve r nb idx0 in
  entries r' = entries r /\ mask r' = mask r /\ size r' = size r /\
  producer r' = producer r /\ consumer r' = consumer r /\ flags r' = flags r /\
  producer r <= cached_cons r' <= consumer r + NUM_FRAMES /\
  ((nb <= ring_room r /\ n = nb /\ idx = producer r /\
    cached_prod r' = producer r + nb /\
    producer r + nb <= cached_cons r') \/
   (ring_room r < nb /\ n = 0 /\ idx = idx0 /\ cached_prod r' = producer r)).
Proof.
  intros (Hsize & Hmask & Hcp & Hlen & Hcached & Hcc & Hwrap) Hnb.
  unfold xsk_ring_prod__reserve, xsk_prod_nb_free, ring_room.
  change NUM_FRAMES with 4096 in *. change (2 ^ 31) with 2147483648 in Hnb.
  change (2 ^ 32) with 4294967296 in Hwrap.
  rewrite Hcached, Hsize.
  rewrite (u32_small (cached_cons r - producer r))
    by (change (2 ^ 32) with 4294967296; lia).
  destruct (Z.geb_spec (cached_cons r - producer r) nb) as [Hfree|Hless].
  - destruct (Z.ltb_spec (cached_cons r - producer r) nb); [lia|].
    cbn [entries mask size producer consumer flags cached_cons cached_prod].
    rewrite ?Hcached.
    rewrite u32_small by (change (2 ^ 32) with 4294967296; lia).
    repeat split; try reflexivity; lia.
  - cbn [entries mask size producer consumer flags cached_cons cached_prod].
    rewrite ?Hcached.
    rewrite (u32_small (consumer r + 4096))
      by (change (2 ^ 32) with 4294967296; lia).
    rewrite (u32_small (consumer r + 4096 - producer r))
      by (change (2 ^ 32) with 4294967296; lia).
    destruct (Z.ltb_spec (consumer r + 4096 - producer r) nb) as [Hfull|Hroom];
      cbn [entries mask size producer consumer flags cached_cons cached_prod].
    + repeat split; try reflexivity; lia.
    + rewrite u32_small by (change (2 ^ 32) with 4294967296; lia).
      repeat split; try reflexivity; lia.
Qed.

Lemma seq_from (a c : nat) : seq a c = map (Nat.add a) (seq 0 c).
Proof.
  revert a. induction c as [|c IH]; intros a; [reflexivity|].
  cbn [seq map]. rewrite Nat.add_0_r. f_equal.
  rewrite (IH (S a)), (IH 1%nat), map_map. apply map_ext. intros k. lia.
Qed.

Lemma map_nth_seq {A : Type} (l : list A) (d : A) :
  map (fun k => nth k l d) (seq 0 (List.length l)) = l.
Proof.
  induction l as [|x l IH]; [reflexivity|].
  cbn [List.length seq map nth]. f_equal.
  rewrite (seq_from 1), map_map. exact IH.
Qed.

Lemma ring_contents_ext {T : Type} (r r' : xsk_ring_prod T) :
  entries r' = entries r -> mask r' = mask r ->
  producer r' = producer r -> consumer r' = consumer r ->
  ring_contents r' = ring_contents r.
Proof.
  intros He Hm Hp Hc. unfold ring_contents. rewrite He, Hm, Hp, Hc. reflexivity.
Qed.

Lemma to_int_small (x : Z) : 0 <= x < 2 ^ 31 -> to_int x = x.
Proof.
  intros H. assert (H31 : 2 ^ 31 = 2147483648) by reflexivity.
  assert (H32 : 2 ^ 32 = 4294967296) by reflexivity.
  unfold to_int. cbv zeta. rewrite u32_small by lia.
  destruct (Z.ltb_spec x (2 ^ 31)); [reflexivity | lia].
Qed.

(** Storing at the producer index and submitting one entry appends it. *)
Lemma ring_contents_push {T : Type} (r r1 : xsk_ring_prod T) (v : T) :
  entries r1 = entries r -> mask r1 = mask r ->
  producer r1 = producer r -> consumer r1 = consumer r ->
  mask r = NUM_FRAMES - 1 ->
  0 <= consumer r <= producer r ->
  producer r - consumer r < NUM_FRAMES -> producer r + 1 < 2 ^ 32 ->
  ring_contents (xsk_ring_prod__submit (ring_store r1 (producer r) v) 1)
    = ring_contents r ++ [v].
Proof.
  intros He Hm Hp Hc Hmask Hcp Hlen Hwrap.
  assert (H32 : 2 ^ 32 = 4294967296) by reflexivity.
  assert (HNF : NUM_FRAMES = 4096) by reflexivity.
  unfold ring_contents, xsk_ring_prod__submit, ring_store.
  cbn [entries mask producer consumer].
  rewrite He, Hm, Hp, Hc, Hmask.
  rewrite (u32_small (producer r + 1)) by lia.
  rewrite (u32_small (producer r - consumer r)) by lia.
  rewrite (u32_small (producer r + 1 - consumer r)) by lia.
  set (a := Z.to_nat (producer r - consumer r)).
  replace (Z.to_nat (producer r + 1 - consumer r)) with (a + 1)%nat
    by (unfold a; lia).
  rewrite seq_app, map_app. f_equal.
  - apply map_ext_in. intros k Hk. apply in_seq in Hk.
    rewrite (u32_small (consumer r + Z.of_nat k)) by (unfold a in Hk; lia).
    rewrite !land_frame_mask_mod.
    destruct (Z.eqb_spec ((consumer r + Z.of_nat k) mod NUM_FRAMES)
                (producer r mod NUM_FRAMES)) as [Heq|Hne]; [|reflexivity].
    exfalso. revert Heq. apply slots_distinct. unfold a in Hk. lia.
  - cbn [seq map Nat.add].
    replace (consumer r + Z.of_nat a) with (producer r) by (unfold a; lia).
    rewrite (u32_small (producer r)) by lia.
    rewrite Z.eqb_refl. reflexivity.
Qed.

Lemma ring_ok_after {T : Type} (r r2 : xsk_ring_prod T) (nb : Z) :
  prod_ring_ok r -> 0 <= nb ->
  mask r2 = mask r -> size r2 = size r ->
  producer r2 = producer r -> consumer r2 = consumer r ->
  cached_prod r2 = producer r + nb ->
  producer r + nb <= cached_cons r2 <= consumer r + NUM_FRAMES ->
  producer r + nb + NUM_FRAMES < 2 ^ 32 ->
  prod_ring_ok (xsk_ring_prod__submit r2 nb) /\
  ring_room (xsk_ring_prod__submit r2 nb) = ring_room r - nb.
Proof.
  intros (Hsize & Hmask & Hcp & Hlen & Hcached & Hcc & Hwrap)
         Hnb Hm Hs Hp Hc Hcp2 Hcc2 Hwrap2.
  assert (H32 : 2 ^ 32 = 4294967296) by reflexivity.
  assert (HNF : NUM_FRAMES = 4096) by reflexivity.
  unfold prod_ring_ok, ring_room, xsk_ring_prod__submit.
  cbn [size mask producer consumer cached_prod cached_cons].
  rewrite Hm, Hs, Hp, Hc, Hcp2.
  rewrite (u32_small (producer r + nb)) by lia.
  repeat split; try assumption; lia.
Qed.

Lemma ring_create_ok {T : Type} (dflt : T) :
  prod_ring_ok (ring_create NUM_FRAMES dflt) /\
  ring_room (ring_create NUM_FRAMES dflt) = NUM_FRAMES.
Proof.
  unfold prod_ring_ok, ring_room, ring_create, NUM_FRAMES.
  cbn [size mask consumer producer cached_prod cached_cons]. lia.
Qed.

(** A copy that lies within the live area is defined. *)
Lemma umem_write_live (m : Z -> byte) (a : Z) (data : list byte) :
  0 <= a -> a + Z.of_nat (List.length data) <= umem_size ->
  umem_write PtrLive m a data = Some (copy_bytes m a data).
Proof.
  intros Ha Hb. unfold umem_write.
  destruct (Z.leb_spec 0 a); [|lia].
  destruct (Z.leb_spec (a + Z.of_nat (List.length data)) umem_size); [|lia].
  reflexivity.
Qed.

(** A copy that runs past the end of the area is not. *)
Lemma umem_write_outside (ptr : pointer) (m : Z -> byte) (a : Z)
    (data : list byte) :
  umem_size < a + Z.of_nat (List.length data) ->
  umem_write ptr m a data = None.
Proof.
  intros H. unfold umem_write. destruct ptr; try reflexivity.
  destruct (Z.leb_spec (a + Z.of_nat (List.length data)) umem_size); [lia|].
  rewrite andb_false_r. reflexivity.
Qed.

Lemma umem_read_copy (m : Z -> byte) (a : Z) (data : list byte) :
  umem_read (copy_bytes m a data) a (Z.of_nat (List.length data)) = data.
Proof.
  unfold umem_read. rewrite Nat2Z.id.
  rewrite <- (map_nth_seq data x00) at 2.
  apply map_ext_in. intros k Hk. apply in_seq in Hk.
  unfold copy_bytes.
  destruct (Z.leb_spec a (a + Z.of_nat k)); [|lia].
  destruct (Z.ltb_spec (a + Z.of_nat k) (a + Z.of_nat (List.length data)));
    [|lia].
  cbn [andb]. f_equal. lia.
Qed.

(** Within the area the address of a frame is its index times
    [FRAME_SIZE], with no wrap-around. *)
Lemma batch_address_in_area (idx : Z) (j : nat) :
  0 <= idx -> idx + Z.of_nat j <= NUM_FRAMES ->
  batch_address idx j = (idx + Z.of_nat j) * FRAME_SIZE.
Proof.
  intros Hidx Hj. unfold batch_address.
  change NUM_FRAMES with 4096 in Hj. change FRAME_SIZE with 4096.
  rewrite (u32_small (idx + Z.of_nat j))
    by (change (2 ^ 32) with 4294967296; lia).
  apply u32_small. change (2 ^ 32) with 4294967296. lia.
Qed.

Lemma frames_from_batch (idx : Z) (n : nat) :
  0 <= idx -> idx + Z.of_nat n <= NUM_FRAMES ->
  map (batch_address idx) (seq 0 n) = frames_from idx n.
Proof.
  intros Hidx Hn. unfold frames_from. apply map_ext_in.
  intros j Hj. apply in_seq in Hj. apply batch_address_in_area; lia.
Qed.

(** The frames of a batch within the area are pairwise different frames
    of the area. *)
Lemma frames_from_NoDup (idx : Z) (n : nat) : NoDup (frames_from idx n).
Proof.
  unfold frames_from. apply NoDup_map_NoDup_ForallPairs; [|apply seq_NoDup].
  intros i j _ _ H. change FRAME_SIZE with 4096 in H. lia.
Qed.

Lemma frames_from_incl (idx : Z) (n : nat) :
  0 <= idx -> idx + Z.of_nat n <= NUM_FRAMES ->
  incl (frames_from idx n) frame_addresses.
Proof.
  intros Hidx Hn a Ha. unfold frames_from in Ha.
  apply in_map_iff in Ha. destruct Ha as (i & <- & Hi). apply in_seq in Hi.
  unfold frame_addresses. apply in_map_iff.
  exists (Z.to_nat (idx + Z.of_nat i)). split.
  - rewrite Z2Nat.id by lia. reflexivity.
  - apply in_seq. change NUM_FRAMES with 4096 in *. lia.
Qed.

Lemma map_addr_desc_view (l : list xdp_desc) :
  map addr l = map fst (map desc_view l).
Proof. rewrite map_map. reflexivity. Qed.

Lemma map_fst_batch_descs (idx : Z) (packets : list (list byte)) :
  map fst (batch_descs idx packets)
    = map (batch_address idx) (seq 0 (List.length packets)).
Proof. unfold batch_descs. rewrite map_map. reflexivity. Qed.

(** The batch loop on frames that lie within the live area, with packets
    that fit their frames: it is defined, writes the addresses
    [batch_address idx i], ... in order, leaves the ring's indices alone,
    fills the entries of its slots and no other, and copies each packet
    to its frame, changing no byte outside the frames it uses. *)
Lemma fill_tx_descs_spec (n : nat) :
  forall (i : nat) (idx : Z) (packets : list (list byte)) (area : Z -> byte)
         (tx : xsk_ring_prod xdp_desc),
    mask tx = NUM_FRAMES - 1 -> 0 <= idx ->
    idx + Z.of_nat i + Z.of_nat n <= NUM_FRAMES ->
    (forall j : nat, (i <= j < i + n)%nat ->
       Z.of_nat (List.length (nth j packets [])) <= FRAME_SIZE) ->
    exists (area' : Z -> byte) (tx' : xsk_ring_prod xdp_desc),
      fill_tx_descs n (Z.of_nat i) idx packets PtrLive area tx
        = Some (map (batch_address idx) (seq i n), area', tx') /\
      (cached_prod tx' = cached_prod tx /\ cached_cons tx' = cached_cons tx /\
       mask tx' = mask tx /\ size tx' = size tx /\
       producer tx' = producer tx /\ consumer tx' = consumer tx /\
       flags tx' = flags tx) /\
      (forall j : nat, (i <= j < i + n)%nat ->
         desc_view (entries tx' ((idx + Z.of_nat j) mod NUM_FRAMES))
           = (batch_address idx j,
              u32 (Z.of_nat (List.length (nth j packets []))))) /\
      (forall s : Z,
         (forall j : nat, (i <= j < i + n)%nat ->
            s <> (idx + Z.of_nat j) mod NUM_FRAMES) ->
         entries tx' s = entries tx s) /\
      (forall j : nat, (i <= j < i + n)%nat ->
         umem_read area' ((idx + Z.of_nat j) * FRAME_SIZE)
                   (Z.of_nat (List.length (nth j packets [])))
           = nth j packets []) /\
      (forall a : Z,
         a < (idx + Z.of_nat i) * FRAME_SIZE \/
         (idx + Z.of_nat i + Z.of_nat n) * FRAME_SIZE <= a ->
         area' a = area a).
Proof.
  induction n as [|n IH]; intros i idx packets area tx Hmask Hidx Hin Hfit.
  - exists area, tx. cbn [fill_tx_descs seq map].
    split; [reflexivity|].
    split; [repeat split; reflexivity|].
    split; [intros j Hj; lia|].
    split; [intros s _; reflexivity|].
    split; [intros j Hj; lia | intros a _; reflexivity].
  - rewrite Nat2Z.inj_succ in Hin.
    assert (HNF : NUM_FRAMES = 4096) by reflexivity.
    assert (H32 : 2 ^ 32 = 4294967296) by reflexivity.
    assert (Hp : Z.of_nat (List.length (nth i packets [])) <= FRAME_SIZE)
      by (apply Hfit; lia).
    assert (Ha : 0 <= (idx + Z.of_nat i) * FRAME_SIZE /\
                 (idx + Z.of_nat i) * FRAME_SIZE
                   + Z.of_nat (List.length (nth i packets [])) <= umem_size /\
                 (idx + Z.of_nat i) * FRAME_SIZE < 2 ^ 32).
    { unfold umem_size. change FRAME_SIZE with 4096 in *. lia. }
    destruct Ha as (Ha0 & Ha1 & Ha2).
    set (p := nth i packets []) in *.
    set (desc := {| addr := (idx + Z.of_nat i) * FRAME_SIZE;
                    len := u32 (Z.of_nat (List.length p));
                    options := options (entries tx
                                 (Z.land (idx + Z.of_nat i) (mask tx))) |}).
    set (tx1 := ring_store tx (idx + Z.of_nat i) desc).
    set (area1 := copy_bytes area ((idx + Z.of_nat i) * FRAME_SIZE) p).
    destruct (IH (S i) idx packets area1 tx1)
      as (area' & tx' & Heq & Hfields & Hnew & Hold & Hmem & Hrest).
    { exact Hmask. }
    { exact Hidx. }
    { lia. }
    { intros j Hj. apply Hfit. lia. }
    exists area', tx'.
    assert (Hstep : fill_tx_descs (S n) (Z.of_nat i) idx packets PtrLive area tx
                    = Some (map (batch_address idx) (seq i (S n)), area', tx')).
    { cbn [fill_tx_descs seq map].
      rewrite (u32_small (Z.of_nat i + 1)) by lia.
      rewrite (u32_small (idx + Z.of_nat i)) by lia.
      rewrite (u32_small ((idx + Z.of_nat i) * FRAME_SIZE)) by lia.
      rewrite Nat2Z.id. cbn [addr]. fold p.
      rewrite umem_write_live by assumption.
      replace (Z.of_nat i + 1) with (Z.of_nat (S i)) by lia.
      fold area1. fold desc. fold tx1. rewrite Heq.
      rewrite (batch_address_in_area idx i) by lia. reflexivity. }
    split; [exact Hstep|].
    destruct Hfields as (H1 & H2 & H3 & H4 & H5 & H6 & H7).
    split;
      [exact (conj H1 (conj H2 (conj H3 (conj H4 (conj H5 (conj H6 H7))))))|].
    assert (Hent1 : forall s : Z,
              entries tx1 s
                = if s =? (idx + Z.of_nat i) mod NUM_FRAMES then desc
                  else entries tx s).
    { intros s. unfold tx1, ring_store. cbn [entries].
      rewrite Hmask, land_frame_mask_mod. reflexivity. }
    split; [|split; [|split]].
    + intros j Hj. destruct (Nat.eq_dec j i) as [->|Hne].
      * rewrite Hold.
        -- rewrite Hent1, Z.eqb_refl. unfold desc_view, desc. cbn [addr len].
           rewrite (batch_address_in_area idx i) by lia. reflexivity.
        -- intros j' Hj'. apply slots_distinct. lia.
      * apply Hnew. lia.
    + intros s Hs. rewrite Hold.
      * rewrite Hent1.
        destruct (Z.eqb_spec s ((idx + Z.of_nat i) mod NUM_FRAMES)) as [E|_];
          [|reflexivity].
        exfalso. apply (Hs i); [lia | exact E].
      * intros j Hj. apply Hs. lia.
    + intros j Hj. destruct (Nat.eq_dec j i) as [->|Hne]; [|apply Hmem; lia].
      fold p. rewrite <- (umem_read_copy area ((idx + Z.of_nat i) * FRAME_SIZE) p)
        at 2.
      fold area1. unfold umem_read. apply map_ext_in. intros k Hk.
      apply in_seq in Hk. apply Hrest. left.
      change FRAME_SIZE with 4096 in *. lia.
    + intros a Ha. rewrite Hrest by (change FRAME_SIZE with 4096 in *; lia).
      unfold area1, copy_bytes.
      destruct (Z.leb_spec ((idx + Z.of_nat i) * FRAME_SIZE) a);
        destruct (Z.ltb_spec a ((idx + Z.of_nat i) * FRAME_SIZE
                                + Z.of_nat (List.length p)));
        cbn [andb]; try reflexivity.
      exfalso. change FRAME_SIZE with 4096 in *. lia.
Qed.

(** [af_xdp_send_batch] when the ring has room for the batch and the
    frames it takes lie within the live area. *)
Lemma af_xdp_send_batch_fits (packets : list (list byte)) (idx0 fd : Z)
    (g : xdp_globals) :
  xsk g = Some fd -> umem_area_ptr g = PtrLive ->
  prod_ring_ok (tx_ring g) ->
  Z.of_nat (List.length packets) <= ring_room (tx_ring g) ->
  producer (tx_ring g) + Z.of_nat (List.length packets) <= NUM_FRAMES ->
  (forall p : list byte, In p packets -> Z.of_nat (List.length p) <= FRAME_SIZE) ->
  exists (calls : list syscall) (area : Z -> byte) (tx' : xsk_ring_prod xdp_desc),
    af_xdp_send_batch packets idx0 g
      = Some (Z.of_nat (List.length packets),
              map (batch_address (producer (tx_ring g)))
                  (seq 0 (List.length packets)),
              calls,
              {| xsk := xsk g; umem := umem g; umem_area_ptr := PtrLive;
                 umem_area := area; tx_ring := tx'; fq := fq g |}) /\
    prod_ring_ok tx' /\
    ring_room tx' = ring_room (tx_ring g) - Z.of_nat (List.length packets) /\
    producer tx' = producer (tx_ring g) + Z.of_nat (List.length packets) /\
    consumer tx' = consumer (tx_ring g) /\
    map desc_view (ring_contents tx')
      = map desc_view (ring_contents (tx_ring g))
        ++ batch_descs (producer (tx_ring g)) packets /\
    (forall j : nat, (j < List.length packets)%nat ->
       umem_read area ((producer (tx_ring g) + Z.of_nat j) * FRAME_SIZE)
                 (Z.of_nat (List.length (nth j packets [])))
         = nth j packets []) /\
    (forall a : Z,
       a < producer (tx_ring g) * FRAME_SIZE \/
       (producer (tx_ring g) + Z.of_nat (List.length packets)) * FRAME_SIZE <= a ->
       area a = umem_area g a).
Proof.
  intros Hxsk Hlive Hok Hroom Hin Hfit.
  pose proof Hok as (Hsize & Hmask & Hcp & Hlen & Hcached & Hcc & Hwrap).
  assert (H31 : 2 ^ 31 = 2147483648) by reflexivity.
  assert (H32 : 2 ^ 32 = 4294967296) by reflexivity.
  assert (HNF : NUM_FRAMES = 4096) by reflexivity.
  pose proof (reserve_spec (tx_ring g) (Z.of_nat (List.length packets)) idx0
                Hok ltac:(lia)) as Hres.
  destruct (xsk_ring_prod__reserve (tx_ring g)
              (Z.of_nat (List.length packets)) idx0)
    as [[reserved idx] tx1] eqn:Eres.
  destruct Hres as (He1 & Hm1 & Hs1 & Hp1 & Hc1 & Hf1 & Hcc1 & Hcase).
  unfold ring_room in *.
  destruct Hcase as [(_ & -> & -> & Hcp1 & Hcc1') | (Hfull & _)]; [|lia].
  assert (Hm1' : mask tx1 = NUM_FRAMES - 1) by congruence.
  assert (Hfit' : forall j : nat, (0 <= j < 0 + List.length packets)%nat ->
            Z.of_nat (List.length (nth j packets [])) <= FRAME_SIZE).
  { intros j Hj. apply Hfit, nth_In. lia. }
  destruct (fill_tx_descs_spec (List.length packets) 0 (producer (tx_ring g))
              packets (umem_area g) tx1 Hm1' ltac:(lia) ltac:(lia) Hfit')
    as (area & tx2 & Heq & (H1 & H2 & H3 & H4 & H5 & H6 & H7)
        & Hnew & Hold & Hmem & Hrest).
  change (Z.of_nat 0) with 0 in Heq, Hrest.
  set (tx' := xsk_ring_prod__submit tx2 (Z.of_nat (List.length packets))).
  exists (kick_tx fd tx'), area, tx'.
  split.
  { unfold af_xdp_send_batch. rewrite Hxsk, Hlive.
    rewrite (u32_small (Z.of_nat (List.length packets))) by lia.
    rewrite Eres, Nat2Z.id, Heq.
    rewrite (to_int_small (Z.of_nat (List.length packets))) by lia.
    reflexivity. }
  destruct (ring_ok_after (tx_ring g) tx2 (Z.of_nat (List.length packets)) Hok)
    as [Hok' Hroom']; try congruence; try lia.
  split; [exact Hok'|]. split; [exact Hroom'|].
  split.
  { unfold tx', xsk_ring_prod__submit. cbn [producer].
    rewrite H5, Hp1. apply u32_small. lia. }
  split.
  { unfold tx', xsk_ring_prod__submit. cbn [consumer]. congruence. }
  split; [|split].
  - unfold ring_contents at 1. unfold tx', xsk_ring_prod__submit.
    cbn [consumer producer mask entries].
    rewrite H5, H6, H3, Hp1, Hc1, Hm1, Hmask.
    rewrite (u32_small (producer (tx_ring g) + Z.of_nat (List.length packets)))
      by lia.
    rewrite (u32_small (producer (tx_ring g) + Z.of_nat (List.length packets)
                        - consumer (tx_ring g))) by lia.
    set (a := Z.to_nat (producer (tx_ring g) - consumer (tx_ring g))).
    replace (Z.to_nat (producer (tx_ring g) + Z.of_nat (List.length packets)
                       - consumer (tx_ring g)))
      with (a + List.length packets)%nat by (unfold a; lia).
    rewrite seq_app, !map_app. f_equal.
    + (* the entries that were there *)
      unfold ring_contents. rewrite Hmask.
      rewrite (u32_small (producer (tx_ring g) - consumer (tx_ring g))) by lia.
      fold a. rewrite !map_map. apply map_ext_in. intros k Hk.
      apply in_seq in Hk.
      rewrite (u32_small (consumer (tx_ring g) + Z.of_nat k))
        by (unfold a in Hk; lia).
      rewrite land_frame_mask_mod. f_equal.
      rewrite Hold; [rewrite He1; reflexivity|].
      intros j Hj. apply slots_distinct. unfold a in Hk. lia.
    + (* the descriptors of the batch *)
      cbn [Nat.add]. rewrite (seq_from a), !map_map. unfold batch_descs.
      apply map_ext_in. intros j Hj. apply in_seq in Hj.
      rewrite (u32_small (consumer (tx_ring g) + Z.of_nat (a + j)))
        by (unfold a; lia).
      rewrite land_frame_mask_mod.
      replace (consumer (tx_ring g) + Z.of_nat (a + j))
        with (producer (tx_ring g) + Z.of_nat j) by (unfold a; lia).
      apply Hnew. lia.
  - intros j Hj. apply Hmem. lia.
  - intros a Ha. apply Hrest. rewrite Z.add_0_r. exact Ha.
Qed.

(** [af_xdp_send_batch] when the ring has no room for the batch: nothing
    is reserved, written or copied. *)
Lemma af_xdp_send_batch_full (packets : list (list byte)) (idx0 fd : Z)
    (g : xdp_globals) :
  xsk g = Some fd -> prod_ring_ok (tx_ring g) ->
  Z.of_nat (List.length packets) < 2 ^ 31 ->
  ring_room (tx_ring g) < Z.of_nat (List.length packets) ->
  exists tx' : xsk_ring_prod xdp_desc,
    af_xdp_send_batch packets idx0 g
      = Some (0, [], kick_tx fd tx',
              {| xsk := xsk g; umem := umem g;
                 umem_area_ptr := umem_area_ptr g; umem_area := umem_area g;
                 tx_ring := tx'; fq := fq g |}) /\
    prod_ring_ok tx' /\
    ring_room tx' = ring_room (tx_ring g) /\
    producer tx' = producer (tx_ring g) /\
    consumer tx' = consumer (tx_ring g) /\
    ring_contents tx' = ring_contents (tx_ring g).
Proof.
  intros Hxsk Hok Hcount Hfull.
  pose proof Hok as (Hsize & Hmask & Hcp & Hlen & Hcached & Hcc & Hwrap).
  assert (H31 : 2 ^ 31 = 2147483648) by reflexivity.
  assert (H32 : 2 ^ 32 = 4294967296) by reflexivity.
  assert (HNF : NUM_FRAMES = 4096) by reflexivity.
  pose proof (reserve_spec (tx_ring g) (Z.of_nat (List.length packets)) idx0
                Hok ltac:(lia)) as Hres.
  destruct (xsk_ring_prod__reserve (tx_ring g)
              (Z.of_nat (List.length packets)) idx0)
    as [[reserved idx] tx1] eqn:Eres.
  destruct Hres as (He1 & Hm1 & Hs1 & Hp1 & Hc1 & Hf1 & Hcc1 & Hcase).
  destruct Hcase as [(Hroom & _) | (_ & -> & _ & Hcp1)]; [lia|].
  exists (xsk_ring_prod__submit tx1 0).
  split.
  { unfold af_xdp_send_batch. rewrite Hxsk.
    rewrite (u32_small (Z.of_nat (List.length packets))) by lia.
    rewrite Eres. reflexivity. }
  destruct (ring_ok_after (tx_ring g) tx1 0 Hok) as [Hok' Hroom'];
    try congruence; try lia.
  split; [exact Hok'|]. split; [rewrite Hroom'; lia|].
  assert (Hp' : producer (xsk_ring_prod__submit tx1 0) = producer (tx_ring g)).
  { unfold xsk_ring_prod__submit. cbn [producer].
    rewrite Hp1, Z.add_0_r. apply u32_small. lia. }
  split; [exact Hp'|].
  split; [exact Hc1|].
  apply ring_contents_ext; [exact He1 | exact Hm1 | exact Hp' | exact Hc1].
Qed.

(** [af_xdp_send] when the ring has room and the copy lies within the
    live area. *)
Lemma af_xdp_send_fits (data : list byte) (idx0 fd : Z) (g : xdp_globals) :
  xsk g = Some fd -> umem_area_ptr g = PtrLive ->
  prod_ring_ok (tx_ring g) ->
  0 < ring_room (tx_ring g) ->
  producer (tx_ring g) * FRAME_SIZE + Z.of_nat (List.length data) <= umem_size ->
  exists (calls : list syscall) (tx' : xsk_ring_prod xdp_desc),
    af_xdp_send data idx0 g
      = Some (Z.of_nat (List.length data),
              [producer (tx_ring g) * FRAME_SIZE], calls,
              {| xsk := xsk g; umem := umem g; umem_area_ptr := PtrLive;
                 umem_area := copy_bytes (umem_area g)
                                (producer (tx_ring g) * FRAME_SIZE) data;
                 tx_ring := tx'; fq := fq g |}) /\
    prod_ring_ok tx' /\
    ring_room tx' = ring_room (tx_ring g) - 1 /\
    map desc_view (ring_contents tx')
      = map desc_view (ring_contents (tx_ring g))
        ++ [(producer (tx_ring g) * FRAME_SIZE, Z.of_nat (List.length data))].
Proof.
  intros Hxsk Hlive Hok Hroom Harea.
  pose proof Hok as (Hsize & Hmask & Hcp & Hlen & Hcached & Hcc & Hwrap).
  assert (H31 : 2 ^ 31 = 2147483648) by reflexivity.
  assert (H32 : 2 ^ 32 = 4294967296) by reflexivity.
  assert (HNF : NUM_FRAMES = 4096) by reflexivity.
  assert (Hb : 0 <= producer (tx_ring g) * FRAME_SIZE < 2 ^ 32 /\
               Z.of_nat (List.length data) < 2 ^ 31 /\
               producer (tx_ring g) <= NUM_FRAMES).
  { unfold umem_size in Harea. change FRAME_SIZE with 4096 in *. lia. }
  destruct Hb as (Hb1 & Hb2 & Hb3).
  pose proof (reserve_spec (tx_ring g) 1 idx0 Hok ltac:(lia)) as Hres.
  destruct (xsk_ring_prod__reserve (tx_ring g) 1 idx0) as [[n idx] tx1] eqn:Eres.
  destruct Hres as (He1 & Hm1 & Hs1 & Hp1 & Hc1 & Hf1 & Hcc1 & Hcase).
  unfold ring_room in *.
  destruct Hcase as [(_ & -> & -> & Hcp1 & Hcc1') | (Hfull & _)]; [|lia].
  set (a := producer (tx_ring g) * FRAME_SIZE) in *.
  set (desc := {| addr := a; len := Z.of_nat (List.length data);
                  options := options (entries tx1
                               (Z.land (producer (tx_ring g)) (mask tx1))) |}).
  set (tx' := xsk_ring_prod__submit (ring_store tx1 (producer (tx_ring g)) desc) 1).
  exists (kick_tx fd tx'), tx'.
  split.
  { unfold af_xdp_send. rewrite Hxsk, Hlive, Eres.
    cbn [Z.eqb Pos.eqb negb].
    rewrite (u32_small (Z.of_nat (List.length data))) by lia.
    fold a. rewrite (u32_small a) by lia. cbn [addr].
    rewrite umem_write_live by lia.
    rewrite (to_int_small (Z.of_nat (List.length data))) by lia.
    reflexivity. }
  destruct (ring_ok_after (tx_ring g)
              (ring_store tx1 (producer (tx_ring g)) desc) 1 Hok)
    as [Hok' Hroom'];
    try (unfold ring_store;
         cbn [mask size producer consumer cached_prod cached_cons];
         congruence || lia).
  split; [exact Hok'|]. split; [exact Hroom'|].
  unfold tx'. rewrite (ring_contents_push (tx_ring g) tx1) by (assumption || lia).
  rewrite map_app. reflexivity.
Qed.

(** [af_xdp_send] when the ring is full. *)
Lemma af_xdp_send_full (data : list byte) (idx0 fd : Z) (g : xdp_globals) :
  xsk g = Some fd -> prod_ring_ok (tx_ring g) ->
  ring_room (tx_ring g) <= 0 ->
  exists tx' : xsk_ring_prod xdp_desc,
    af_xdp_send data idx0 g
      = Some (-1, [], [],
              {| xsk := xsk g; umem := umem g;
                 umem_area_ptr := umem_area_ptr g; umem_area := umem_area g;
                 tx_ring := tx'; fq := fq g |}) /\
    prod_ring_ok tx' /\
    ring_room tx' = ring_room (tx_ring g) /\
    ring_contents tx' = ring_contents (tx_ring g).
Proof.
  intros Hxsk Hok Hfull.
  pose proof Hok as (Hsize & Hmask & Hcp & Hlen & Hcached & Hcc & Hwrap).
  assert (H32 : 2 ^ 32 = 4294967296) by reflexivity.
  assert (HNF : NUM_FRAMES = 4096) by reflexivity.
  pose proof (reserve_spec (tx_ring g) 1 idx0 Hok
                ltac:(change (2 ^ 31) with 2147483648; lia)) as Hres.
  destruct (xsk_ring_prod__reserve (tx_ring g) 1 idx0) as [[n idx] tx1] eqn:Eres.
  destruct Hres as (He1 & Hm1 & Hs1 & Hp1 & Hc1 & Hf1 & Hcc1 & Hcase).
  destruct Hcase as [(Hroom & _) | (_ & -> & _ & Hcp1)]; [lia|].
  exists tx1. split.
  { unfold af_xdp_send. rewrite Hxsk, Eres. reflexivity. }
  split; [|split].
  - unfold prod_ring_ok. rewrite Hm1, Hs1, Hp1, Hc1, Hcp1.
    repeat split; try assumption; lia.
  - unfold ring_room. rewrite Hp1, Hc1. reflexivity.
  - apply ring_contents_ext; assumption.
Qed.

(** [af_xdp_send] when the ring has room and the copy runs past the end
    of the area: the call is undefined. *)
Lemma af_xdp_send_outside (data : list byte) (idx0 fd : Z) (g : xdp_globals) :
  xsk g = Some fd -> prod_ring_ok (tx_ring g) ->
  0 < ring_room (tx_ring g) ->
  producer (tx_ring g) < 2 ^ 20 ->
  umem_size < producer (tx_ring g) * FRAME_SIZE + Z.of_nat (List.length data) ->
  af_xdp_send data idx0 g = None.
Proof.
  intros Hxsk Hok Hroom Hprod Hout.
  pose proof Hok as (Hsize & Hmask & Hcp & Hlen & Hcached & Hcc & Hwrap).
  assert (H20 : 2 ^ 20 = 1048576) by reflexivity.
  assert (H32 : 2 ^ 32 = 4294967296) by reflexivity.
  assert (HNF : NUM_FRAMES = 4096) by reflexivity.
  assert (Hb : 0 <= producer (tx_ring g) * FRAME_SIZE < 2 ^ 32).
  { change FRAME_SIZE with 4096. lia. }
  pose proof (reserve_spec (tx_ring g) 1 idx0 Hok
                ltac:(change (2 ^ 31) with 2147483648; lia)) as Hres.
  destruct (xsk_ring_prod__reserve (tx_ring g) 1 idx0) as [[n idx] tx1] eqn:Eres.
  destruct Hres as (_ & _ & _ & _ & _ & _ & _ & Hcase).
  unfold ring_room in *.
  destruct Hcase as [(_ & -> & -> & _) | (Hfull & _)]; [|lia].
  unfold af_xdp_send. rewrite Hxsk, Eres.
  cbn [Z.eqb Pos.eqb negb addr].
  rewrite (u32_small (producer (tx_ring g) * FRAME_SIZE)) by lia.
  rewrite umem_write_outside by exact Hout. reflexivity.
Qed.

(** C1, as stated, fails: [init_af_xdp] has posted every frame address to
    the fill ring, and the first batch sent afterwards writes address 0
    into its tx descriptor. *)
Lemma af_xdp_first_send_reuses_fill_address :
  ~ send_batch_respects_fill [[x00]] 0 xdp_after_init.
Proof.
  assert (Hok : init_succeeds xdp_host_ok).
  { unfold init_succeeds, xdp_host_ok. cbn. repeat split; discriminate. }
  destruct (init_af_xdp_ok xdp_host_ok 0 xdp_globals_zero Hok)
    as (_ & Hxsk & Hlive & Htx & Hfq).
  fold xdp_after_init in Hxsk, Hlive, Htx, Hfq.
  remember xdp_after_init as g eqn:Hg. clear Hg.
  destruct (ring_create_ok xdp_desc_zero) as [Hring Hroom].
  rewrite <- Htx in Hring, Hroom.
  assert (Hprod : producer (tx_ring g) = 0) by (rewrite Htx; reflexivity).
  destruct (af_xdp_send_batch_fits [[x00]] 0 _ g Hxsk Hlive Hring)
    as (calls & area & tx' & Hcall & _).
  { rewrite Hroom. vm_compute. discriminate. }
  { rewrite Hprod. vm_compute. discriminate. }
  { intros p [<- | []]. vm_compute. discriminate. }
  unfold send_batch_respects_fill. rewrite Hcall, Hprod.
  intros [Hfresh _]. apply (Hfresh 0).
  - left. reflexivity.
  - rewrite Hfq. exact zero_in_frame_addresses.
Qed.

(** C1, amended.  [init_af_xdp] posts all [NUM_FRAMES] frame addresses to
    the fill ring and leaves the tx ring empty.  On an open socket with
    the memory area live and the tx ring in order, and with every copy
    inside the area (the frames taken lie below [NUM_FRAMES], each
    packet fits its frame), a call of [af_xdp_send_batch] appends to the
    tx ring, for none or all of its packets, descriptors with the
    addresses [(idx + i) * FRAME_SIZE] of the slots [idx, idx+1, ...] it
    reserved; these are pairwise distinct and each is one of the frame
    addresses; [af_xdp_send] appends at most one descriptor, with the
    address [idx * FRAME_SIZE]; neither touches the fill ring.  The code
    does not keep the addresses it transmits from apart from those in
    the fill ring. *)
Theorem af_xdp_send_batch_addresses
    (h : xdp_host) (idx0 : Z) (g0 : xdp_globals)
    (packets : list (list byte)) (data : list byte) (idx1 fd : Z)
    (g : xdp_globals) :
  init_succeeds h ->
  xsk g = Some fd -> umem_area_ptr g = PtrLive ->
  prod_ring_ok (tx_ring g) ->
  Z.of_nat (List.length packets) < 2 ^ 31 ->
  (Z.of_nat (List.length packets) <= ring_room (tx_ring g) ->
   producer (tx_ring g) + Z.of_nat (List.length packets) <= NUM_FRAMES) ->
  (0 < ring_room (tx_ring g) -> producer (tx_ring g) < NUM_FRAMES) ->
  (forall p : list byte,
     In p (data :: packets) -> Z.of_nat (List.length p) <= FRAME_SIZE) ->
  (ring_contents (fq (snd (init_af_xdp h idx0 g0))) = frame_addresses /\
   tx_addresses (snd (init_af_xdp h idx0 g0)) = []) /\
  match af_xdp_send_batch packets idx1 g with
  | Some (ret, _, _, g') =>
      (ret = 0 \/ ret = Z.of_nat (List.length packets)) /\
      tx_addresses g'
        = tx_addresses g ++ frames_from (producer (tx_ring g)) (Z.to_nat ret) /\
      NoDup (frames_from (producer (tx_ring g)) (Z.to_nat ret)) /\
      incl (frames_from (producer (tx_ring g)) (Z.to_nat ret)) frame_addresses /\
      fq g' = fq g
  | None => False
  end /\
  match af_xdp_send data idx1 g with
  | Some (_, _, _, g') =>
      (tx_addresses g' = tx_addresses g \/
       tx_addresses g' = tx_addresses g ++ [producer (tx_ring g) * FRAME_SIZE] /\
       In (producer (tx_ring g) * FRAME_SIZE) frame_addresses) /\
      fq g' = fq g
  | None => False
  end.
Proof.
  intros Hinit Hxsk Hlive Hok Hcount Hbatch Hsingle Hfit.
  pose proof Hok as (Hsize & Hmask & Hcp & Hlen & Hcached & Hcc & Hwrap).
  assert (HNF : NUM_FRAMES = 4096) by reflexivity.
  split; [|split].
  - destruct (init_af_xdp_ok h idx0 g0 Hinit) as (_ & _ & _ & Htx & Hfq).
    split; [exact Hfq|]. unfold tx_addresses. rewrite Htx. reflexivity.
  - destruct (Z.le_gt_cases (Z.of_nat (List.length packets))
                (ring_room (tx_ring g))) as [Hroom|Hfull].
    + specialize (Hbatch Hroom).
      destruct (af_xdp_send_batch_fits packets idx1 fd g Hxsk Hlive Hok Hroom
                  Hbatch ltac:(intros p Hp; apply Hfit; right; exact Hp))
        as (calls & area & tx' & -> & _ & _ & _ & _ & Hcont & _).
      rewrite Nat2Z.id. cbn [tx_ring fq].
      split; [right; reflexivity|].
      split; [|split; [apply frames_from_NoDup|split; [|reflexivity]]].
      * unfold tx_addresses. cbn [tx_ring].
        rewrite !map_addr_desc_view, Hcont, map_app, map_fst_batch_descs.
        rewrite frames_from_batch by lia. reflexivity.
      * apply frames_from_incl; lia.
    + destruct (af_xdp_send_batch_full packets idx1 fd g Hxsk Hok Hcount
                  ltac:(lia))
        as (tx' & -> & _ & _ & _ & _ & Hcont).
      change (Z.to_nat 0) with 0%nat. cbn [tx_ring fq].
      split; [left; reflexivity|].
      split; [|split; [apply frames_from_NoDup|split; [|reflexivity]]].
      * unfold tx_addresses. cbn [tx_ring]. rewrite Hcont.
        unfold frames_from. cbn [seq map]. rewrite app_nil_r. reflexivity.
      * intros a [].
  - destruct (Z.lt_ge_cases 0 (ring_room (tx_ring g))) as [Hroom|Hfull].
    + specialize (Hsingle Hroom).
      assert (Hd : Z.of_nat (List.length data) <= FRAME_SIZE)
        by (apply Hfit; left; reflexivity).
      destruct (af_xdp_send_fits data idx1 fd g Hxsk Hlive Hok Hroom)
        as (calls & tx' & -> & _ & _ & Hcont).
      { unfold umem_size. change FRAME_SIZE with 4096 in *. lia. }
      cbn [tx_ring fq]. split; [|reflexivity]. right. split.
      * unfold tx_addresses. cbn [tx_ring].
        rewrite !map_addr_desc_view, Hcont, map_app. reflexivity.
      * apply (frames_from_incl (producer (tx_ring g)) 1); [lia | lia |].
        unfold frames_from. cbn [seq map]. left.
        rewrite Z.add_0_r. reflexivity.
    + destruct (af_xdp_send_full data idx1 fd g Hxsk Hok Hfull)
        as (tx' & -> & _ & _ & Hcont).
      cbn [tx_ring fq]. split; [|reflexivity]. left.
      unfold tx_addresses. cbn [tx_ring]. rewrite Hcont. reflexivity.
Qed.

(** The theorem at a successful initialisation, a batch of two and a
    single packet on the fresh ring. *)
Lemma af_xdp_send_batch_addresses_witness :
  init_succeeds xdp_host_ok /\
  prod_ring_ok (tx_ring xdp_ready) /\
  (ring_contents (fq (snd (init_af_xdp xdp_host_ok 0 xdp_globals_zero)))
     = frame_addresses /\
   tx_addresses (snd (init_af_xdp xdp_host_ok 0 xdp_globals_zero)) = []) /\
  match af_xdp_send_batch two_packets 0 xdp_ready with
  | Some (ret, _, _, g') =>
      (ret = 0 \/ ret = Z.of_nat (List.length two_packets)) /\
      tx_addresses g'
        = tx_addresses xdp_ready
          ++ frames_from (producer (tx_ring xdp_ready)) (Z.to_nat ret) /\
      NoDup (frames_from (producer (tx_ring xdp_ready)) (Z.to_nat ret)) /\
      incl (frames_from (producer (tx_ring xdp_ready)) (Z.to_nat ret))
           frame_addresses /\
      fq g' = fq xdp_ready
  | None => False
  end /\
  match af_xdp_send [x00] 0 xdp_ready with
  | Some (_, _, _, g') =>
      (tx_addresses g' = tx_addresses xdp_ready \/
       tx_addresses g'
         = tx_addresses xdp_ready
           ++ [producer (tx_ring xdp_ready) * FRAME_SIZE] /\
       In (producer (tx_ring xdp_ready) * FRAME_SIZE) frame_addresses) /\
      fq g' = fq xdp_ready
  | None => False
  end.
Proof.
  assert (Hinit : init_succeeds xdp_host_ok).
  { unfold init_succeeds, xdp_host_ok. cbn. repeat split; discriminate. }
  assert (Hok : prod_ring_ok (tx_ring xdp_ready))
    by exact (proj1 (ring_create_ok xdp_desc_zero)).
  split; [exact Hinit|]. split; [exact Hok|].
  apply (af_xdp_send_batch_addresses xdp_host_ok 0 xdp_globals_zero
           two_packets [x00] 0 5 xdp_ready Hinit eq_refl eq_refl Hok).
  - vm_compute. reflexivity.
  - intros _. vm_compute. discriminate.
  - intros _. vm_compute. reflexivity.
  - intros p [<- | [<- | [<- | []]]]; vm_compute; discriminate.
Defined.

(** The batch of the witness, evaluated: two slots, addresses 0 and
    [FRAME_SIZE]. *)
Example af_xdp_send_batch_two_packets :
  match af_xdp_send_batch two_packets 0 xdp_ready with
  | Some (ret, written, _, g') =>
      ret = 2 /\ written = [0; 4096] /\ tx_addresses g' = [0; 4096]
  | None => False
  end.
Proof. vm_compute. repeat split; reflexivity. Qed.

(* ====================================================================== *)
(** * Further properties *)
(* ====================================================================== *)

(** ** Checksums *)

(** The accumulator after the summation is the initial value plus the
    sum of the words, modulo [2^32]. *)
Lemma sum_words_total (data : list byte) :
  forall sum : Z,
    0 <= sum < 2 ^ 32 ->
    sum_words data sum = u32 (sum + sum_list (words data)).
Proof.
  induction data as [| a | a b l IH] using pairs_ind; intros sum Hsum.
  - cbn. rewrite Z.add_0_r, u32_small by exact Hsum. reflexivity.
  - cbn [sum_words words sum_list fold_right]. rewrite Z.add_0_r. reflexivity.
  - cbn [sum_words words sum_list fold_right].
    rewrite IH by apply u32_range.
    unfold u32, wrap. rewrite Zplus_mod_idemp_l. f_equal.
    unfold sum_list. lia.
Qed.

Lemma words_app_even (s t : list byte) :
  Nat.even (List.length s) = true -> words (s ++ t) = words s ++ words t.
Proof.
  induction s as [| a | a b l IH] using pairs_ind; intros H.
  - reflexivity.
  - discriminate.
  - cbn [app words]. rewrite IH by exact H. reflexivity.
Qed.

Lemma sum_list_app (l1 l2 : list Z) :
  sum_list (l1 ++ l2) = sum_list l1 + sum_list l2.
Proof.
  unfold sum_list. induction l1 as [|x l1 IH]; cbn [app fold_right]; lia.
Qed.

(** X1. A sequence of odd length has the checksum of the same sequence
    followed by one zero byte: the odd byte is summed as the high byte of
    a word whose low byte is zero. *)
Theorem calculate_checksum_odd_padding (s : list byte) :
  Nat.odd (List.length s) = true ->
  calculate_checksum (s ++ [x00]) = calculate_checksum s.
Proof.
  intros Hodd. unfold calculate_checksum.
  assert (H : forall sum : Z, sum_words (s ++ [x00]) sum = sum_words s sum).
  { induction s as [| a | a b l IH] using pairs_ind; intros sum.
    - discriminate.
    - cbn [app sum_words]. change (byte_val x00) with 0.
      rewrite Z.lor_0_r. reflexivity.
    - cbn [app sum_words]. apply IH. exact Hodd. }
  rewrite H. reflexivity.
Qed.

(** The header of S1 cut to 19 bytes. *)
Lemma calculate_checksum_odd_padding_witness :
  Nat.odd (List.length (removelast ipv4_header_S1)) = true /\
  calculate_checksum (removelast ipv4_header_S1 ++ [x00])
    = calculate_checksum (removelast ipv4_header_S1).
Proof.
  split; [reflexivity|].
  apply (calculate_checksum_odd_padding (removelast ipv4_header_S1)).
  reflexivity.
Defined.

(** Filling a zeroed, word-aligned checksum field with the complement of
    the folded sum makes the folded sum [0xFFFF]. *)
Lemma sum_words_filled (pre post : list byte) (sum : Z) :
  Nat.even (List.length pre) = true ->
  0 <= sum < 2 ^ 32 ->
  let x := sum_words (pre ++ [x00; x00] ++ post) sum in
  let c := complement16 (fold_carries x) in
  complement16 (fold_carries (sum_words (pre ++ checksum_bytes c ++ post) sum))
    = 0.
Proof.
  intros Heven Hsum x c.
  assert (Hx : 0 <= x < 2 ^ 32) by (apply sum_words_range; exact Hsum).
  pose proof (fold_carries_range x Hx) as Hf.
  assert (Hc : c = 65535 - fold_carries x) by (apply complement16_spec, Hf).
  pose proof (checksum_bytes_word c) as Hw.
  destruct (checksum_bytes c) as [|hi [|lo [|? ?]]] eqn:E;
    try (exfalso; apply Hw; lia).
  specialize (Hw ltac:(lia)).
  set (t := sum + (sum_list (words pre) + (0 + sum_list (words post)))).
  assert (Hxt : x = u32 t).
  { unfold x. rewrite sum_words_total by exact Hsum.
    rewrite !words_app_even by exact Heven. cbn [app words].
    change (byte_val x00) with 0. change (Z.lor (Z.shiftl 0 8) 0) with 0.
    rewrite !sum_list_app. reflexivity. }
  destruct (fold_carries_plus_complement x Hx) as [Hr Hfold].
  rewrite <- Hc in Hr, Hfold.
  assert (Hsumc : sum_words (pre ++ [hi; lo] ++ post) sum = x + c).
  { rewrite sum_words_total by exact Hsum.
    rewrite !words_app_even by exact Heven.
    cbn [app words]. rewrite Hw.
    rewrite !sum_list_app. cbn [sum_list fold_right].
    fold (sum_list (words post)).
    replace (sum + (sum_list (words pre) + (c + sum_list (words post))))
      with (t + c) by (unfold t; lia).
    transitivity (u32 (u32 t + c)).
    - unfold u32, wrap. rewrite Zplus_mod_idemp_l. reflexivity.
    - rewrite <- Hxt. apply u32_small. exact Hr. }
  rewrite Hsumc, Hfold. reflexivity.
Qed.

(** X2. Verification of a filled-in checksum: when a word-aligned field
    of the data holds zero while the checksum is computed, and the
    checksum is then written into that field (high byte first), the
    checksum of the result is [0x0000], wherever the field lies. *)
Theorem calculate_checksum_verifies (pre post : list byte) :
  Nat.even (List.length pre) = true ->
  let c := calculate_checksum (pre ++ [x00; x00] ++ post) in
  calculate_checksum (pre ++ checksum_bytes c ++ post) = 0x0000.
Proof.
  intros Heven. unfold calculate_checksum.
  apply (sum_words_filled pre post 0 Heven). lia.
Qed.

(** The S1 header, whose checksum field is bytes 10 and 11. *)
Lemma calculate_checksum_verifies_witness :
  Nat.even (List.length (firstn 10 ipv4_header_S1)) = true /\
  calculate_checksum
    (firstn 10 ipv4_header_S1 ++
     checksum_bytes (calculate_checksum
                       (firstn 10 ipv4_header_S1 ++ [x00; x00] ++
                        skipn 12 ipv4_header_S1)) ++
     skipn 12 ipv4_header_S1) = 0x0000.
Proof.
  split; [reflexivity|].
  apply (calculate_checksum_verifies (firstn 10 ipv4_header_S1)
           (skipn 12 ipv4_header_S1)).
  reflexivity.
Defined.

Lemma checksum_bytes_length (c : Z) : List.length (checksum_bytes c) = 2%nat.
Proof. reflexivity. Qed.

(** X3. The same for the transport checksum: with the checksum field of
    the segment zeroed while computing and filled in afterwards, the
    transport checksum of the segment under the same pseudo-header is
    [0x0000]. *)
Theorem calculate_transport_checksum_verifies
    (src_ip dst_ip protocol : Z) (pre post : list byte) :
  Nat.even (List.length pre) = true ->
  let c := calculate_transport_checksum src_ip dst_ip protocol
             (pre ++ [x00; x00] ++ post) in
  calculate_transport_checksum src_ip dst_ip protocol
    (pre ++ checksum_bytes c ++ post) = 0x0000.
Proof.
  intros Heven. unfold calculate_transport_checksum.
  rewrite !length_app, checksum_bytes_length. cbn [List.length].
  apply (sum_words_filled pre post _ Heven). apply u32_range.
Qed.

(** The UDP segment of S2, whose checksum field is bytes 6 and 7. *)
Lemma calculate_transport_checksum_verifies_witness :
  Nat.even (List.length [x04; xd2; x16; x2e; x00; x0d]) = true /\
  calculate_transport_checksum 0xC0A80101 0xC0A80102 17
    ([x04; xd2; x16; x2e; x00; x0d] ++
     checksum_bytes
       (calculate_transport_checksum 0xC0A80101 0xC0A80102 17
          ([x04; xd2; x16; x2e; x00; x0d] ++ [x00; x00] ++
           [x48; x65; x6c; x6c; x6f])) ++
     [x48; x65; x6c; x6c; x6f]) = 0x0000.
Proof.
  split; [reflexivity|].
  apply (calculate_transport_checksum_verifies 0xC0A80101 0xC0A80102 17
           [x04; xd2; x16; x2e; x00; x0d] [x48; x65; x6c; x6c; x6f]).
  reflexivity.
Defined.

(** Two bytes cut out of a number with shifts make the 16-bit word at
    that position. *)
Lemma word_of_shifted_bytes (v k : Z) :
  0 <= v -> 0 <= k ->
  Z.lor (Z.shiftl (byte_val (byte_of_Z (Z.shiftr v (k + 8)))) 8)
        (byte_val (byte_of_Z (Z.shiftr v k)))
  = Z.land (Z.shiftr v k) 0xFFFF.
Proof.
  intros Hv Hk.
  rewrite word_of_bytes by apply byte_val_range.
  rewrite !byte_val_of_Z.
  change 0xFFFF with (Z.ones 16). rewrite Z.land_ones by lia.
  rewrite <- (Z.shiftr_shiftr v k 8) by lia.
  set (w := Z.shiftr v k).
  rewrite (Z.shiftr_div_pow2 w 8) by lia.
  change (2 ^ 8) with 256. change (2 ^ 16) with 65536.
  Z.div_mod_to_equations. lia.
Qed.

Lemma store32_words (v : Z) :
  0 <= v ->
  words (store32 BigEndian v)
    = [Z.land (Z.shiftr v 16) 0xFFFF; Z.land v 0xFFFF].
Proof.
  intros Hv. unfold store32. cbn [words].
  change (8 * 3) with (16 + 8). change (8 * 2) with 16.
  change (8 * 1) with (0 + 8). change (8 * 0) with 0.
  rewrite (word_of_shifted_bytes v 16), (word_of_shifted_bytes v 0) by lia.
  rewrite Z.shiftr_0_r. reflexivity.
Qed.

(** X4. The transport checksum is the plain checksum of the segment with
    the 12-byte pseudo-header in front, for 32-bit addresses given by
    value, a protocol below 256 and a segment shorter than 65536
    bytes. *)
Theorem calculate_transport_checksum_pseudo_header
    (src_ip dst_ip protocol : Z) (data : list byte) :
  0 <= src_ip < 2 ^ 32 -> 0 <= dst_ip < 2 ^ 32 -> 0 <= protocol < 256 ->
  Z.of_nat (List.length data) < 65536 ->
  calculate_transport_checksum src_ip dst_ip protocol data
    = calculate_checksum
        (pseudo_header src_ip dst_ip protocol (Z.of_nat (List.length data))
         ++ data).
Proof.
  intros Hsrc Hdst Hproto Hlen.
  set (len := Z.of_nat (List.length data)) in *.
  assert (Hlen0 : 0 <= len) by (unfold len; lia).
  set (ph := pseudo_header src_ip dst_ip protocol len).
  assert (Hph : words ph =
                [Z.land (Z.shiftr src_ip 16) 0xFFFF; Z.land src_ip 0xFFFF;
                 Z.land (Z.shiftr dst_ip 16) 0xFFFF; Z.land dst_ip 0xFFFF;
                 protocol; len]).
  { unfold ph, pseudo_header.
    rewrite !words_app_even by reflexivity.
    rewrite !store32_words by lia. cbn [app words].
    change (byte_val x00) with 0. rewrite Z.shiftl_0_l, Z.lor_0_l.
    rewrite byte_val_of_Z, Z.mod_small by lia.
    pose proof (word_of_shifted_bytes len 0 Hlen0 (Z.le_refl 0)) as Hw.
    rewrite Z.shiftr_0_r in Hw. change (0 + 8) with 8 in Hw. rewrite Hw.
    change 0xFFFF with (Z.ones 16). rewrite (Z.land_ones len) by lia.
    rewrite (Z.mod_small len) by (change (2 ^ 16) with 65536; lia).
    reflexivity. }
  assert (Hacc : sum_words ph 0 =
                 u32 (u32 (u32 (u32 (u32 (u32
                   (0 + Z.land (Z.shiftr src_ip 16) 0xFFFF)
                    + Z.land src_ip 0xFFFF)
                    + Z.land (Z.shiftr dst_ip 16) 0xFFFF)
                    + Z.land dst_ip 0xFFFF) + protocol) + len)).
  { rewrite (sum_words_total ph 0) by lia. rewrite Hph.
    cbn [sum_list fold_right].
    unfold u32, wrap. change (2 ^ 32) with 4294967296.
    Z.div_mod_to_equations. lia. }
  unfold calculate_transport_checksum, calculate_checksum. fold len. fold ph.
  cbv zeta.
  rewrite (sum_words_app_even ph data 0) by reflexivity.
  rewrite Hacc. reflexivity.
Qed.

(** The S2 datagram. *)
Lemma calculate_transport_checksum_pseudo_header_witness :
  calculate_transport_checksum 0xC0A80101 0xC0A80102 17
    (udp_segment_S2 [x00; x00])
  = calculate_checksum
      (pseudo_header 0xC0A80101 0xC0A80102 17 13 ++ udp_segment_S2 [x00; x00]).
Proof.
  apply (calculate_transport_checksum_pseudo_header 0xC0A80101 0xC0A80102 17
           (udp_segment_S2 [x00; x00])); cbn; lia.
Defined.

Lemma sum_list_permutation (l1 l2 : list Z) :
  Permutation l1 l2 -> sum_list l1 = sum_list l2.
Proof.
  unfold sum_list.
  induction 1; cbn [fold_right]; lia.
Qed.

(** X5. The checksum does not see the order of the 16-bit words: two
    sequences whose words are a permutation of each other have the same
    checksum. *)
Theorem calculate_checksum_word_order (s t : list byte) :
  Permutation (words s) (words t) ->
  calculate_checksum s = calculate_checksum t.
Proof.
  intros Hperm. unfold calculate_checksum.
  rewrite !sum_words_total by lia.
  rewrite (sum_list_permutation _ _ Hperm). reflexivity.
Qed.

(** The source and destination address of the S1 header exchanged. *)
Lemma calculate_checksum_word_order_witness :
  calculate_checksum
    (firstn 12 ipv4_header_S1 ++ [xac; x10; x0a; x0c; xac; x10; x0a; x63])
  = calculate_checksum ipv4_header_S1.
Proof.
  apply calculate_checksum_word_order. cbn [firstn ipv4_header_S1 app words].
  do 6 apply perm_skip.
  apply (Permutation_trans (perm_skip _ (perm_swap _ _ _))).
  apply (Permutation_trans (perm_swap _ _ _)).
  apply perm_skip.
  apply (Permutation_trans (perm_skip _ (perm_swap _ _ _))).
  apply (Permutation_trans (perm_swap _ _ _)).
  apply perm_skip. apply Permutation_refl.
Defined.

(** ** Raw socket *)

Lemma load32_store32 (e : endianness) (v : Z) :
  0 <= v < 2 ^ 32 -> load32 e (store32 e v) = v.
Proof.
  intros Hv.
  destruct e; unfold store32; rewrite load32_value; rewrite !byte_val_of_Z;
    rewrite !Z.shiftr_div_pow2 by lia;
    change (2 ^ (8 * 0)) with 1; change (2 ^ (8 * 1)) with 256;
    change (2 ^ (8 * 2)) with 65536; change (2 ^ (8 * 3)) with 16777216;
    change (2 ^ 8) with 256; change (2 ^ 16) with 65536;
    change (2 ^ 24) with 16777216; change (2 ^ 32) with 4294967296 in Hv;
    Z.div_mod_to_equations; lia.
Qed.

(** X6. On a buffer of at least 20 bytes whose bytes 16 to 19 hold the
    32-bit address [ip] as the host stores it, [raw_socket_send_ip] does
    what [raw_socket_send] does with the destination [ip]: the same call,
    the same result. *)
Theorem raw_socket_send_ip_is_send
    (host : endianness) (os : syscall -> Z) (sockfd ip : Z) (data : list byte) :
  (20 <= List.length data)%nat ->
  0 <= ip < 2 ^ 32 ->
  bytes_16_19 data = store32 host ip ->
  raw_socket_send_ip host os sockfd data = raw_socket_send os sockfd ip data.
Proof.
  intros Hlen Hip Hbytes. unfold raw_socket_send_ip.
  destruct (Z.ltb_spec (Z.of_nat (List.length data)) 20); [lia|].
  rewrite firstn_skipn_16_4 by exact Hlen.
  rewrite Hbytes, load32_store32 by exact Hip. reflexivity.
Qed.

(** The S1 header, sent to 172.16.10.12 from a big-endian host. *)
Lemma raw_socket_send_ip_is_send_witness :
  raw_socket_send_ip BigEndian (fun _ => 20) 7 ipv4_header_S1
    = raw_socket_send (fun _ => 20) 7 0xAC100A0C ipv4_header_S1.
Proof.
  apply (raw_socket_send_ip_is_send BigEndian (fun _ => 20) 7 0xAC100A0C
           ipv4_header_S1).
  - cbn. lia.
  - lia.
  - reflexivity.
Defined.

(** ** sendmmsg *)

Lemma sendto_each_spec (os : nat -> syscall -> Z) (sockfd : Z)
    (batch : list (list byte * sockaddr_in)) :
  forall (i : nat) (sent : Z),
    sendto_each os sockfd i batch sent
      = (sent + positive_answers os i (map (sendto_call sockfd) batch),
         map (sendto_call sockfd) batch).
Proof.
  induction batch as [|[packet dest] rest IH]; intros i sent.
  - cbn. f_equal. lia.
  - cbn [sendto_each map positive_answers]. rewrite IH.
    change (sendto_call sockfd (packet, dest))
      with (Sendto sockfd packet (Z.of_nat (List.length packet)) 0 (Some dest)).
    destruct (os i _ >? 0); f_equal; lia.
Qed.

Lemma positive_answers_bounds (os : nat -> syscall -> Z) (calls : list syscall) :
  forall i : nat,
    0 <= positive_answers os i calls <= Z.of_nat (List.length calls).
Proof.
  induction calls as [|call rest IH]; intros i; cbn [positive_answers List.length].
  - lia.
  - specialize (IH (S i)). destruct (os i call >? 0); lia.
Qed.

(** X7. The fallback of [sendmmsg_batch] makes one [sendto] per packet,
    in the order of the batch and on every packet whatever the earlier
    calls returned; its result is the number of calls that returned a
    positive value, between 0 and the batch size. *)
Theorem sendmmsg_batch_fallback_spec (os : nat -> syscall -> Z) (sockfd : Z)
    (batch : list (list byte * sockaddr_in)) :
  let r := sendmmsg_batch_fallback os sockfd batch in
  snd r = map (sendto_call sockfd) batch /\
  fst r = positive_answers os 0 (snd r) /\
  0 <= fst r <= Z.of_nat (List.length batch).
Proof.
  unfold sendmmsg_batch_fallback. rewrite sendto_each_spec. cbn [fst snd].
  split; [reflexivity|]. split; [lia|].
  pose proof (positive_answers_bounds os (map (sendto_call sockfd) batch) 0) as H.
  rewrite length_map in H. lia.
Qed.

Lemma sendto_each_same_spec (os : nat -> syscall -> Z) (sockfd : Z)
    (dest : sockaddr_in) (packets : list (list byte)) :
  forall (i : nat) (sent : Z),
    sendto_each_same os sockfd i dest packets sent
      = sendto_each os sockfd i (map (fun packet => (packet, dest)) packets) sent.
Proof.
  induction packets as [|packet rest IH]; intros i sent; [reflexivity|].
  cbn [sendto_each_same sendto_each map]. rewrite IH. reflexivity.
Qed.

Lemma store16_htons (e : endianness) (port : Z) :
  store16 e (htons e port) = port_bytes port.
Proof.
  unfold store16, htons, port_bytes.
  assert (H8 : 0 <= Z.land (Z.shiftr port 8) 255 < 256).
  { change 255 with (Z.ones 8). rewrite Z.land_ones by lia.
    apply Z.mod_pos_bound. reflexivity. }
  assert (H0 : 0 <= Z.land port 255 < 256).
  { change 255 with (Z.ones 8). rewrite Z.land_ones by lia.
    apply Z.mod_pos_bound. reflexivity. }
  destruct e.
  - rewrite word_of_bytes by assumption.
    f_equal; [|f_equal]; apply byte_of_Z_val; rewrite byte_val_of_Z;
      change 255 with (Z.ones 8); rewrite !Z.land_ones by lia;
      rewrite ?Z.shiftr_div_pow2 by lia; change (2 ^ 8) with 256;
      Z.div_mod_to_equations; lia.
  - unfold u16, wrap.
    f_equal; [|f_equal]; apply byte_of_Z_val; rewrite byte_val_of_Z;
      rewrite ?Z.shiftr_div_pow2 by lia; change (2 ^ 8) with 256;
      change (2 ^ 16) with 65536; Z.div_mod_to_equations; lia.
Qed.

(** X8. [sendmmsg_batch_same_dest] is [sendmmsg_batch] with every packet
    paired with the one destination it builds, in the Linux version and
    in the fallback alike; the port of that destination lies in memory in
    network byte order and its address is [dst_ip] as given. *)
Theorem sendmmsg_batch_same_dest_is_batch
    (host : endianness) (sockfd dst_ip dst_port : Z) (packets : list (list byte)) :
  let dest := same_dest host dst_ip dst_port in
  let batch := map (fun packet => (packet, dest)) packets in
  (forall (calloc_succeeds : bool) (os : mmsg_syscall -> Z),
     sendmmsg_batch_same_dest calloc_succeeds os host sockfd packets dst_ip dst_port
       = sendmmsg_batch calloc_succeeds os sockfd batch) /\
  (forall os : nat -> syscall -> Z,
     sendmmsg_batch_same_dest_fallback os host sockfd packets dst_ip dst_port
       = sendmmsg_batch_fallback os sockfd batch) /\
  store16 host (sin_port dest) = port_bytes dst_port /\
  sin_addr dest = dst_ip /\ sin_family dest = AF_INET.
Proof.
  cbv zeta. split; [|split; [|split; [|split]]].
  - intros c os. unfold sendmmsg_batch_same_dest, sendmmsg_batch.
    rewrite length_map. reflexivity.
  - intros os. unfold sendmmsg_batch_same_dest_fallback, sendmmsg_batch_fallback.
    apply sendto_each_same_spec.
  - apply store16_htons.
  - reflexivity.
  - reflexivity.
Qed.

(** ** Probe and selector *)

Lemma first_available_select (caps : system_capabilities_t) :
  truthy (has_raw_socket caps) = true ->
  first_available caps = Some (select_best_backend caps).
Proof.
  intros Hraw. unfold first_available, priority_order, select_best_backend.
  cbn [find available].
  destruct (truthy (has_dpdk caps)); [reflexivity|].
  destruct (truthy (has_af_xdp caps)); [reflexivity|].
  destruct (truthy (has_io_uring caps)); [reflexivity|].
  destruct (truthy (has_sendmmsg caps)); [reflexivity|].
  rewrite Hraw. reflexivity.
Qed.

(** The two fields the kernel blocks leave alone. *)
Lemma linux_blocks_raw_dpdk (cfg : build_config) (env : host_env)
    (caps : system_capabilities_t) :
  let caps' := numa_detection env
                 (check_kernel_features cfg (check_kernel_version env caps)) in
  has_raw_socket caps' = has_raw_socket caps /\ has_dpdk caps' = has_dpdk caps.
Proof.
  destruct caps as [d x u s r major minor cpu numa].
  unfold numa_detection, check_kernel_features, check_kernel_version.
  destruct (env_uname env) as [release|];
    [destruct (sscanf_d_sep_d "." release) as [|M [|m [|? ?]]]|];
    cbn [set_kernel_version_major set_kernel_version_minor
         kernel_version_major kernel_version_minor has_dpdk has_af_xdp
         has_io_uring has_sendmmsg has_raw_socket cpu_count numa_nodes];
    repeat match goal with
           | |- context [if ?b then _ else _] =>
               destruct b;
               cbn [set_has_sendmmsg set_has_io_uring set_has_af_xdp
                    kernel_version_major kernel_version_minor has_dpdk
                    has_af_xdp has_io_uring has_sendmmsg has_raw_socket
                    cpu_count numa_nodes]
           end;
    (destruct (env_node_online env) as [| |content]; [cbn; tauto | |]);
    (destruct (fgets 64 _) as [buf|]; [|cbn; tauto]);
    destruct (sscanf_d_sep_d "-" buf) as [|? [|? [|? ?]]]; cbn; tauto.
Qed.

Lemma detect_capabilities_raw_dpdk (cfg : build_config) (env : host_env) :
  let caps := snd (detect_capabilities cfg env) in
  has_raw_socket caps = 1 /\
  has_dpdk caps = (if HAS_DPDK cfg then 1 else 0).
Proof.
  unfold detect_capabilities. cbn [snd].
  set (c0 := set_cpu_count _ _).
  destruct (target cfg);
    try (destruct (HAS_DPDK cfg); cbn; split; reflexivity).
  destruct (linux_blocks_raw_dpdk cfg env c0) as [Hr Hd]. cbv zeta in Hr, Hd.
  destruct (HAS_DPDK cfg); cbn [set_has_dpdk has_raw_socket has_dpdk];
    rewrite ?Hr, ?Hd; split; reflexivity.
Qed.

(** X9. Every record the probe produces has the raw-socket flag set, and
    on it the selector returns the first available backend of the
    priority list. *)
Theorem detect_capabilities_select_first_available
    (cfg : build_config) (env : host_env) :
  let caps := snd (detect_capabilities cfg env) in
  has_raw_socket caps = 1 /\
  first_available caps = Some (select_best_backend caps) /\
  available caps (select_best_backend caps) = true.
Proof.
  intros caps.
  destruct (detect_capabilities_raw_dpdk cfg env) as [Hraw _]. fold caps in Hraw.
  assert (Ht : truthy (has_raw_socket caps) = true) by (rewrite Hraw; reflexivity).
  split; [exact Hraw|]. split; [apply first_available_select, Ht|].
  pose proof (first_available_select caps Ht) as Hf.
  unfold first_available in Hf. apply find_some in Hf. apply Hf.
Qed.

(** X10. Probe and selector together: the backend chosen is DPDK when it
    was compiled in; otherwise, on Linux, AF_XDP from kernel 4.18 when
    compiled in, else io_uring from 5.1 when compiled in, else sendmmsg
    from major version 3, else raw sockets; and raw sockets on every
    other system.  The kernel version is the one the release string
    starts with. *)
Theorem select_best_backend_after_detect (cfg : build_config) (env : host_env) :
  select_best_backend (snd (detect_capabilities cfg env)) = backend_for cfg env.
Proof.
  destruct (detect_capabilities_raw_dpdk cfg env) as [_ Hd].
  destruct (detect_capabilities_flags_bool cfg env) as (Hs & Hu & Hx & Hv).
  cbv zeta in Hd, Hs, Hu, Hx, Hv.
  set (caps := snd (detect_capabilities cfg env)) in *.
  unfold select_best_backend, backend_for, version_ge.
  rewrite Hd, Hx, Hu, Hs.
  destruct (HAS_DPDK cfg); [reflexivity|]. cbn [truthy Z.eqb negb].
  destruct (target cfg) eqn:Ht.
  - assert (H0 : kernel_version_major caps = 0 /\ kernel_version_minor caps = 0).
    { unfold caps, detect_capabilities. rewrite Ht.
      destruct (HAS_DPDK cfg); cbn; split; reflexivity. }
    destruct H0 as [-> ->]. cbn. reflexivity.
  - specialize (Hv eq_refl). rewrite <- Hv.
    set (M := kernel_version_major caps). set (m := kernel_version_minor caps).
    destruct ((M >? 4) || (M =? 4) && (m >=? 18)), (HAS_AF_XDP cfg);
      cbn [andb truthy Z.eqb negb]; try reflexivity;
      destruct ((M >? 5) || (M =? 5) && (m >=? 1)), (HAS_IO_URING cfg);
      cbn [andb truthy Z.eqb negb]; try reflexivity;
      destruct (M >=? 3); reflexivity.
  - assert (H0 : kernel_version_major caps = 0 /\ kernel_version_minor caps = 0).
    { unfold caps, detect_capabilities. rewrite Ht.
      destruct (HAS_DPDK cfg); cbn; split; reflexivity. }
    destruct H0 as [-> ->]. cbn. reflexivity.
Qed.

(** X11. The flags of a probed record are nested: io_uring or AF_XDP is
    reported only together with sendmmsg, and where AF_XDP was compiled
    in, io_uring only together with AF_XDP; so on a build with AF_XDP the
    selector never returns io_uring. *)
Theorem detect_capabilities_flags_nested (cfg : build_config) (env : host_env) :
  let caps := snd (detect_capabilities cfg env) in
  (has_io_uring caps <> 0 -> has_sendmmsg caps <> 0) /\
  (has_af_xdp caps <> 0 -> has_sendmmsg caps <> 0) /\
  (HAS_AF_XDP cfg = true -> has_io_uring caps <> 0 -> has_af_xdp caps <> 0) /\
  (HAS_AF_XDP cfg = true -> select_best_backend caps <> BACKEND_IO_URING).
Proof.
  intros caps.
  destruct (detect_capabilities_flags_bool cfg env) as (Hs & Hu & Hx & _).
  cbv zeta in Hs, Hu, Hx. fold caps in Hs, Hu, Hx.
  set (M := kernel_version_major caps) in *.
  set (m := kernel_version_minor caps) in *.
  assert (Hnest : (has_io_uring caps <> 0 -> has_sendmmsg caps <> 0) /\
                  (has_af_xdp caps <> 0 -> has_sendmmsg caps <> 0) /\
                  (HAS_AF_XDP cfg = true -> has_io_uring caps <> 0 ->
                   has_af_xdp caps <> 0)).
  { rewrite Hs, Hu, Hx.
    destruct (Z.gtb_spec M 5), (Z.eqb_spec M 5), (Z.geb_spec m 1),
      (Z.gtb_spec M 4), (Z.eqb_spec M 4), (Z.geb_spec m 18), (Z.geb_spec M 3),
      (HAS_IO_URING cfg), (HAS_AF_XDP cfg); cbn [andb orb];
      repeat split; intros; try lia; try congruence. }
  destruct Hnest as (H1 & H2 & H3).
  split; [exact H1|]. split; [exact H2|]. split; [exact H3|].
  intros Hcfg. unfold select_best_backend.
  destruct (truthy (has_dpdk caps)); [discriminate|].
  destruct (truthy (has_af_xdp caps)) eqn:Ex; [discriminate|].
  destruct (truthy (has_io_uring caps)) eqn:Eu.
  - exfalso. apply truthy_true in Eu. apply truthy_false in Ex.
    exact (H3 Hcfg Eu Ex).
  - destruct (truthy (has_sendmmsg caps)); discriminate.
Qed.

(** A 5.15 kernel with both compiled in: AF_XDP and io_uring are both
    reported and AF_XDP is chosen. *)
Lemma detect_capabilities_flags_nested_witness :
  let caps := snd (detect_capabilities cfg_linux_full
                     (host_with "5.15.0-91-generic" Missing)) in
  has_io_uring caps <> 0 /\ has_af_xdp caps <> 0 /\ has_sendmmsg caps <> 0 /\
  select_best_backend caps <> BACKEND_IO_URING.
Proof.
  intros caps.
  destruct (detect_capabilities_flags_nested cfg_linux_full
              (host_with "5.15.0-91-generic" Missing)) as (H1 & _ & H3 & H4).
  fold caps in H1, H3, H4.
  assert (Hu : has_io_uring caps <> 0) by (vm_compute; discriminate).
  split; [exact Hu|]. split; [exact (H3 eq_refl Hu)|].
  split; [exact (H1 Hu)|]. exact (H4 eq_refl).
Defined.

(** X12. The kernel version the probe records on Linux: for a release
    string ["A.B<rest>"] with numerals [A], [B] and a rest that does not
    go on with a digit it is [A.B] (so ["5.15.0-91-generic"] gives 5.15);
    it is [0.0] when [uname] fails. *)
Theorem detect_capabilities_kernel_version
    (cfg : build_config) (env : host_env) :
  target cfg = Linux ->
  let caps := snd (detect_capabilities cfg env) in
  (forall a b rest : string,
     is_numeral a = true -> is_numeral b = true -> no_leading_digit rest ->
     numeral_value a < 2 ^ 31 -> numeral_value b < 2 ^ 31 ->
     env_uname env = Some (release_string a b rest) ->
     kernel_version_major caps = numeral_value a /\
     kernel_version_minor caps = numeral_value b) /\
  (env_uname env = None ->
   kernel_version_major caps = 0 /\ kernel_version_minor caps = 0).
Proof.
  intros Hlinux caps.
  destruct (detect_capabilities_flags_bool cfg env) as (_ & _ & _ & Hv).
  specialize (Hv Hlinux). cbv zeta in Hv. fold caps in Hv.
  split.
  - intros a b rest Ha Hb Hrest Hva Hvb Hu.
    unfold release_version in Hv. rewrite Hu in Hv.
    unfold sscanf_d_sep_d, release_string in Hv.
    rewrite (scan_d_numeral a) in Hv by (try assumption; reflexivity).
    change (Ascii.eqb "." ".") with true in Hv. cbv iota in Hv.
    rewrite (scan_d_numeral b rest Hb Hrest Hvb) in Hv.
    injection Hv as -> ->. split; reflexivity.
  - intros Hu. unfold release_version in Hv. rewrite Hu in Hv.
    injection Hv as -> ->. split; reflexivity.
Qed.

(** The release of an Ubuntu kernel. *)
Lemma detect_capabilities_kernel_version_witness :
  let caps := snd (detect_capabilities cfg_linux_full
                     (host_with "5.15.0-91-generic" Missing)) in
  kernel_version_major caps = 5 /\ kernel_version_minor caps = 15.
Proof.
  intros caps.
  destruct (detect_capabilities_kernel_version cfg_linux_full
              (host_with "5.15.0-91-generic" Missing) eq_refl) as [H _].
  apply (H "5" "15" ".0-91-generic")%string; try reflexivity; cbn; lia.
Defined.

Lemma backend_name_of_backend (b : backend_type_t) :
  backend_name (backend_value b) =
    match b with
    | BACKEND_NONE => "unknown"
    | BACKEND_RAW_SOCKET => "raw_socket"
    | BACKEND_SENDMMSG => "sendmmsg"
    | BACKEND_IO_URING => "io_uring"
    | BACKEND_AF_XDP => "AF_XDP"
    | BACKEND_DPDK => "DPDK"
    end%string.
Proof. destruct b; reflexivity. Qed.

(** X13. [backend_name] gives the five backends five different names and
    answers ["unknown"] exactly for the values that are no backend; the
    backend the selector returns is never named ["unknown"]. *)
Theorem backend_name_spec :
  (forall v : Z, backend_name v = "unknown"%string <-> ~ (1 <= v <= 5)) /\
  (forall v w : Z, 1 <= v <= 5 -> backend_name v = backend_name w -> v = w) /\
  (forall caps : system_capabilities_t,
     backend_name (backend_value (select_best_backend caps)) <> "unknown"%string).
Proof.
  assert (Hcases : forall v : Z,
            (v = 1 /\ backend_name v = "raw_socket"%string) \/
            (v = 2 /\ backend_name v = "sendmmsg"%string) \/
            (v = 3 /\ backend_name v = "io_uring"%string) \/
            (v = 4 /\ backend_name v = "AF_XDP"%string) \/
            (v = 5 /\ backend_name v = "DPDK"%string) \/
            (~ (1 <= v <= 5) /\ backend_name v = "unknown"%string)).
  { intros v. unfold backend_name. cbn [backend_value].
    destruct (Z.eqb_spec v 5); [tauto|]. destruct (Z.eqb_spec v 4); [tauto|].
    destruct (Z.eqb_spec v 3); [tauto|]. destruct (Z.eqb_spec v 2); [tauto|].
    destruct (Z.eqb_spec v 1); [tauto|].
    right; right; right; right; right. split; [lia | reflexivity]. }
  split; [|split].
  - intros v.
    destruct (Hcases v) as [[-> E]|[[-> E]|[[-> E]|[[-> E]|[[-> E]|[Hn E]]]]]];
      rewrite E; split; intros H; try discriminate H; try lia; try reflexivity;
      exfalso; apply H; lia.
  - intros v w Hv Hvw.
    destruct (Hcases v) as [[-> E]|[[-> E]|[[-> E]|[[-> E]|[[-> E]|[Hn E]]]]]];
      try lia;
      destruct (Hcases w) as [[-> E']|[[-> E']|[[-> E']|[[-> E']|[[-> E']|[Hn' E']]]]]];
      try reflexivity; rewrite E in Hvw; rewrite E' in Hvw; discriminate Hvw.
  - intros caps. rewrite backend_name_of_backend.
    destruct (select_best_backend_cases caps)
      as [[-> _]|[[-> _]|[[-> _]|[[-> _]|[-> _]]]]]; discriminate.
Qed.

(** ** io_uring, further properties *)

Lemma prepare_sqes_queued (sockfd : Z) (batch : list (list byte * sockaddr_in)) :
  forall (i : Z) (r : io_uring),
    sq_queued (prepare_sqes sockfd i batch r)
      = sq_queued r ++ sqes_of sockfd i (firstn (sq_free r) batch) /\
    sq_entries (prepare_sqes sockfd i batch r) = sq_entries r.
Proof.
  induction batch as [|[packet dest] rest IH]; intros i r; cbn [prepare_sqes].
  - rewrite firstn_nil. cbn. rewrite app_nil_r. split; reflexivity.
  - unfold io_uring_get_sqe.
    destruct (Z.ltb_spec (Z.of_nat (List.length (sq_queued r))) (sq_entries r))
      as [Hfree|Hfull].
    + destruct (IH (i + 1) (queue_sqe {| sqe_fd := sockfd; sqe_iov := packet;
                                        sqe_name := dest; sqe_flags := 0;
                                        user_data := i |} r)) as [Hq He].
      rewrite Hq, He. cbn [queue_sqe sq_queued sq_entries].
      split; [|reflexivity].
      assert (Hf : sq_free r = S (sq_free (queue_sqe
                     {| sqe_fd := sockfd; sqe_iov := packet; sqe_name := dest;
                        sqe_flags := 0; user_data := i |} r))).
      { unfold sq_free. cbn [queue_sqe sq_queued sq_entries].
        rewrite length_app. cbn [List.length]. lia. }
      rewrite Hf. cbn [firstn sqes_of]. rewrite <- app_assoc. reflexivity.
    + assert (Hf : sq_free r = 0%nat) by (unfold sq_free; lia).
      rewrite Hf. cbn. rewrite app_nil_r. split; reflexivity.
Qed.

Lemma sqes_of_nth (sockfd : Z) (batch : list (list byte * sockaddr_in)) :
  forall (i : Z) (k : nat),
    nth_error (sqes_of sockfd i batch) k
      = option_map
          (fun m => {| sqe_fd := sockfd; sqe_iov := fst m; sqe_name := snd m;
                       sqe_flags := 0; user_data := i + Z.of_nat k |})
          (nth_error batch k).
Proof.
  induction batch as [|[packet dest] rest IH]; intros i k.
  - destruct k; reflexivity.
  - destruct k as [|k]; cbn [sqes_of nth_error option_map fst snd].
    + rewrite Z.add_0_r. reflexivity.
    + rewrite IH. destruct (nth_error rest k); cbn [option_map]; [|reflexivity].
      do 2 f_equal. lia.
Qed.

Lemma drain_cqes_queued (h : uring_host) (n : nat) :
  forall (j : nat) (d : drain_state),
    sq_queued (d_ring (drain_cqes h n j d)) = sq_queued (d_ring d) /\
    completed d <= completed (drain_cqes h n j d) <= completed d + Z.of_nat n.
Proof.
  induction n as [|n IH]; intros j d; cbn [drain_cqes].
  - split; [reflexivity | lia].
  - destruct (wait_cqe h j) as [ret|res]; [split; [reflexivity | lia]|].
    destruct (IH (S j) (account_cqe res d)) as [Hq Hc].
    rewrite Hq. unfold account_cqe in *.
    destruct (res >=? 0); cbn [d_ring completed io_uring_cqe_seen sq_queued] in *;
      split; try reflexivity; lia.
Qed.

(** X14. The prepare loop of [io_uring_send_batch] queues the packets in
    the order of the batch, packet [k] with its own destination and with
    [user_data = k], and stops when the submission queue is full, so that
    only the first packets that fit are queued.  After the call the queue
    holds what the kernel did not accept: all entries but the first
    [submitted]. *)
Theorem io_uring_send_batch_queue_order (h : uring_host)
    (batch : list (list byte * sockaddr_in)) (g : uring_globals) :
  truthy (io_uring_initialized g) = true ->
  calloc_ok h = true ->
  let prepared := sqes_of (io_uring_sockfd g) 0 (firstn (sq_free (ring g)) batch) in
  sq_queued (prepare_sqes (io_uring_sockfd g) 0 batch (ring g))
    = sq_queued (ring g) ++ prepared /\
  List.length prepared = Nat.min (sq_free (ring g)) (List.length batch) /\
  (forall k : nat,
     nth_error prepared k
       = option_map
           (fun m => {| sqe_fd := io_uring_sockfd g; sqe_iov := fst m;
                        sqe_name := snd m; sqe_flags := 0;
                        user_data := Z.of_nat k |})
           (nth_error (firstn (sq_free (ring g)) batch) k)) /\
  sq_queued (ring (snd (io_uring_send_batch h batch g)))
    = skipn (Z.to_nat (to_int (submit_ret h))) (sq_queued (ring g) ++ prepared).
Proof.
  intros Hinit Hcalloc prepared.
  destruct (prepare_sqes_queued (io_uring_sockfd g) batch 0 (ring g)) as [Hq _].
  fold prepared in Hq.
  split; [exact Hq|]. split; [|split].
  - unfold prepared.
    assert (Hlen : forall l i, List.length (sqes_of (io_uring_sockfd g) i l)
                               = List.length l).
    { induction l as [|[p d] l IHl]; intros i; cbn [sqes_of List.length];
        [reflexivity | rewrite IHl; reflexivity]. }
    rewrite Hlen, length_firstn. reflexivity.
  - intros k. unfold prepared. rewrite sqes_of_nth. reflexivity.
  - unfold io_uring_send_batch. rewrite Hinit, Hcalloc. cbn [negb snd ring].
    destruct (drain_cqes_queued h (Z.to_nat (to_int (submit_ret h))) 0
                {| completed := 0; d_stats := io_uring_stats g;
                   d_ring := io_uring_submit (to_int (submit_ret h))
                               (prepare_sqes (io_uring_sockfd g) 0 batch (ring g)) |})
      as [Hd _].
    rewrite Hd. cbn [d_ring]. unfold io_uring_submit.
    destruct (Z.ltb_spec (to_int (submit_ret h)) 0) as [Hneg|Hpos].
    + replace (Z.to_nat (to_int (submit_ret h))) with 0%nat by lia.
      cbn [skipn]. exact Hq.
    + cbn [sq_queued]. rewrite Hq. reflexivity.
Qed.

(** A queue of 256 entries takes the whole batch of two. *)
Lemma io_uring_send_batch_queue_order_witness :
  sq_queued (prepare_sqes 4 0 batch_of_two (ring uring_ready))
    = sqes_of 4 0 batch_of_two /\
  sq_queued (ring (snd (io_uring_send_batch host_completing batch_of_two
                          uring_ready))) = [].
Proof.
  destruct (io_uring_send_batch_queue_order host_completing batch_of_two
              uring_ready eq_refl eq_refl) as (H1 & _ & _ & H4).
  split; [exact H1 | exact H4].
Defined.

(** X15. The value [io_uring_send_batch] returns is -1 (not initialised,
    or an allocation failed) or lies between 0 and the number of entries
    the kernel accepted; it does not exceed the batch size when the
    kernel accepted no more entries than the batch has. *)
Theorem io_uring_send_batch_return_bounds (h : uring_host)
    (batch : list (list byte * sockaddr_in)) (g : uring_globals) :
  let ret := fst (io_uring_send_batch h batch g) in
  let submitted := to_int (submit_ret h) in
  (ret = -1 \/ 0 <= ret <= Z.max 0 submitted) /\
  (truthy (io_uring_initialized g) = false -> ret = -1) /\
  (submitted <= Z.of_nat (List.length batch) ->
   ret <= Z.of_nat (List.length batch)).
Proof.
  cbv zeta. unfold io_uring_send_batch.
  destruct (truthy (io_uring_initialized g)); cbn [negb fst];
    [|repeat split; intros; try lia; left; reflexivity].
  destruct (calloc_ok h); cbn [negb fst];
    [|repeat split; intros; try lia; try discriminate; left; reflexivity].
  match goal with
  | |- context [drain_cqes h ?n 0 ?d] =>
      destruct (drain_cqes_queued h n 0 d) as [_ Hc]
  end.
  cbn [completed] in Hc.
  split; [right; lia|]. split; [discriminate|]. intros Hsub. lia.
Qed.

(** X16. [cleanup_io_uring] is idempotent and leaves the backend closed:
    a second call makes no call and changes nothing; the counters are
    zero after it; and until the next initialisation
    [io_uring_send_batch] and [io_uring_get_stats] return -1 without
    touching the state.  On an initialised backend the socket is closed
    once, before the ring is torn down. *)
Theorem cleanup_io_uring_closes (g : uring_globals) :
  let '(ret1, calls1, g1) := cleanup_io_uring g in
  let '(ret2, calls2, g2) := cleanup_io_uring g1 in
  ret1 = 0 /\ ret2 = 0 /\ calls2 = [] /\ g2 = g1 /\
  io_uring_initialized g1 = 0 /\
  (truthy (io_uring_initialized g) = true ->
   io_uring_stats g1 = stats_zero /\
   calls1 = (if io_uring_sockfd g >=? 0 then [CloseFd (io_uring_sockfd g)] else [])
              ++ [QueueExit]) /\
  (forall (h : uring_host) (batch : list (list byte * sockaddr_in)),
     io_uring_send_batch h batch g1 = (-1, g1)) /\
  (forall valid : bool, io_uring_get_stats valid g1 = (-1, None)).
Proof.
  unfold cleanup_io_uring at 1.
  destruct (truthy (io_uring_initialized g)) eqn:Hinit.
  - destruct (io_uring_sockfd g >=? 0); cbn [app];
      unfold cleanup_io_uring, io_uring_send_batch, io_uring_get_stats;
      cbn; repeat split; reflexivity.
  - unfold cleanup_io_uring, io_uring_send_batch, io_uring_get_stats.
    rewrite Hinit. cbn [negb orb].
    assert (H0 : io_uring_initialized g = 0) by (apply truthy_false, Hinit).
    repeat split; try reflexivity; try exact H0; discriminate.
Qed.

(** ** AF_XDP, further properties *)

(** X17. [af_xdp_send_batch] on an open socket, with the memory area
    live, the tx ring in order and packets that fit a frame, is all or
    nothing.  When the ring has room for the whole batch, and the frames
    the batch takes lie within the area (the producer index plus the
    batch size does not exceed [NUM_FRAMES]), it returns the batch size
    and appends one descriptor per packet to the ring, in the order of
    the batch, with the address of its slot's frame and the packet's
    length.  When the ring has not, it returns 0, and the ring and the
    memory area hold what they held.  There is no partial batch. *)
Theorem af_xdp_send_batch_enqueues (packets : list (list byte)) (idx0 fd : Z)
    (g : xdp_globals) :
  xsk g = Some fd ->
  umem_area_ptr g = PtrLive ->
  prod_ring_ok (tx_ring g) ->
  Z.of_nat (List.length packets) < 2 ^ 31 ->
  (forall p : list byte, In p packets -> Z.of_nat (List.length p) <= FRAME_SIZE) ->
  let count := Z.of_nat (List.length packets) in
  if count <=? ring_room (tx_ring g) then
    producer (tx_ring g) + count <= NUM_FRAMES ->
    match af_xdp_send_batch packets idx0 g with
    | Some (ret, _, _, g') =>
        ret = count /\
        consumer (tx_ring g') = consumer (tx_ring g) /\
        producer (tx_ring g') = producer (tx_ring g) + count /\
        map desc_view (ring_contents (tx_ring g'))
          = map desc_view (ring_contents (tx_ring g))
            ++ batch_descs (producer (tx_ring g)) packets
    | None => False
    end
  else
    match af_xdp_send_batch packets idx0 g with
    | Some (ret, _, _, g') =>
        ret = 0 /\
        consumer (tx_ring g') = consumer (tx_ring g) /\
        producer (tx_ring g') = producer (tx_ring g) /\
        ring_contents (tx_ring g') = ring_contents (tx_ring g) /\
        umem_area g' = umem_area g
    | None => False
    end.
Proof.
  intros Hxsk Hlive Hok Hcount Hfit count. unfold count.
  destruct (Z.leb_spec (Z.of_nat (List.length packets)) (ring_room (tx_ring g)))
    as [Hroom|Hfull].
  - intros Hin.
    destruct (af_xdp_send_batch_fits packets idx0 fd g Hxsk Hlive Hok Hroom
                Hin Hfit)
      as (calls & area & tx' & -> & _ & _ & Hp & Hc & Hcont & _).
    cbn [tx_ring].
    split; [reflexivity|]. split; [exact Hc|]. split; [exact Hp | exact Hcont].
  - destruct (af_xdp_send_batch_full packets idx0 fd g Hxsk Hok Hcount Hfull)
      as (tx' & -> & _ & _ & Hp & Hc & Hcont).
    cbn [tx_ring umem_area].
    split; [reflexivity|]. split; [exact Hc|]. split; [exact Hp|].
    split; [exact Hcont | reflexivity].
Qed.

(** Two packets on the fresh ring. *)
Lemma af_xdp_send_batch_enqueues_witness :
  match af_xdp_send_batch two_packets 0 xdp_ready with
  | Some (ret, _, _, g') =>
      ret = 2 /\
      map desc_view (ring_contents (tx_ring g')) = [(0, 1); (4096, 1)]
  | None => False
  end.
Proof.
  assert (Hok : prod_ring_ok (tx_ring xdp_ready))
    by exact (proj1 (ring_create_ok xdp_desc_zero)).
  assert (Hlen : Z.of_nat (List.length two_packets) < 2 ^ 31)
    by (vm_compute; reflexivity).
  assert (Hfit : forall p : list byte,
            In p two_packets -> Z.of_nat (List.length p) <= FRAME_SIZE).
  { intros p [<- | [<- | []]]; vm_compute; discriminate. }
  pose proof (af_xdp_send_batch_enqueues two_packets 0 5 xdp_ready eq_refl
                eq_refl Hok Hlen Hfit) as H.
  cbv zeta in H.
  change (Z.of_nat (List.length two_packets) <=? ring_room (tx_ring xdp_ready))
    with true in H.
  specialize (H ltac:(vm_compute; discriminate)).
  destruct (af_xdp_send_batch two_packets 0 xdp_ready)
    as [[[[ret w] c] g']|]; [|exact H].
  destruct H as (Hret & _ & _ & Hcont). split; [exact Hret|].
  rewrite Hcont. reflexivity.
Defined.

(** X18. When the memory area is live, every packet of the batch fits a
    frame, the tx ring has room and the producer index stays within the
    first [NUM_FRAMES] (so that every frame addressed lies in the memory
    area), each descriptor [af_xdp_send_batch] enqueues points at a copy
    of its packet: after the call the memory area holds packet [j] at
    the address of descriptor [j], and no byte outside the frames of the
    batch has changed.  (The code checks neither that a packet fits its
    frame nor that the frame lies in the area.) *)
Theorem af_xdp_send_batch_payload (packets : list (list byte)) (idx0 fd : Z)
    (g : xdp_globals) :
  xsk g = Some fd ->
  umem_area_ptr g = PtrLive ->
  prod_ring_ok (tx_ring g) ->
  Z.of_nat (List.length packets) <= ring_room (tx_ring g) ->
  producer (tx_ring g) + Z.of_nat (List.length packets) <= NUM_FRAMES ->
  (forall p : list byte, In p packets -> Z.of_nat (List.length p) <= FRAME_SIZE) ->
  let idx := producer (tx_ring g) in
  match af_xdp_send_batch packets idx0 g with
  | Some (_, _, _, g') =>
      (forall j : nat, (j < List.length packets)%nat ->
         batch_address idx j = (idx + Z.of_nat j) * FRAME_SIZE /\
         umem_read (umem_area g') (batch_address idx j)
                   (Z.of_nat (List.length (nth j packets [])))
           = nth j packets []) /\
      (forall a : Z,
         a < idx * FRAME_SIZE \/
         (idx + Z.of_nat (List.length packets)) * FRAME_SIZE <= a ->
         umem_area g' a = umem_area g a)
  | None => False
  end.
Proof.
  intros Hxsk Hlive Hok Hroom Hin Hfit idx.
  pose proof Hok as (_ & _ & Hcp & _).
  destruct (af_xdp_send_batch_fits packets idx0 fd g Hxsk Hlive Hok Hroom
              Hin Hfit)
    as (calls & area & tx' & -> & _ & _ & _ & _ & _ & Hmem & Hrest).
  cbn [umem_area]. fold idx in Hmem, Hrest. split.
  - intros j Hj.
    assert (Ha : batch_address idx j = (idx + Z.of_nat j) * FRAME_SIZE)
      by (apply batch_address_in_area; unfold idx; lia).
    split; [exact Ha|]. rewrite Ha. apply Hmem, Hj.
  - exact Hrest.
Qed.

(** Two one-byte packets on the fresh ring. *)
Lemma af_xdp_send_batch_payload_witness :
  match af_xdp_send_batch two_packets 0 xdp_ready with
  | Some (_, _, _, g') =>
      umem_read (umem_area g') 0 1 = [x00] /\
      umem_read (umem_area g') 4096 1 = [x01]
  | None => False
  end.
Proof.
  assert (Hok : prod_ring_ok (tx_ring xdp_ready))
    by exact (proj1 (ring_create_ok xdp_desc_zero)).
  assert (Hfit : forall p : list byte,
            In p two_packets -> Z.of_nat (List.length p) <= FRAME_SIZE).
  { intros p [<- | [<- | []]]; vm_compute; discriminate. }
  pose proof (af_xdp_send_batch_payload two_packets 0 5 xdp_ready eq_refl
                eq_refl Hok
                ltac:(vm_compute; discriminate) ltac:(vm_compute; discriminate)
                Hfit) as H.
  cbv zeta in H.
  destruct (af_xdp_send_batch two_packets 0 xdp_ready)
    as [[[[ret w] c] g']|]; [|exact H].
  destruct H as [H _].
  split.
  - exact (proj2 (H 0%nat ltac:(cbn; lia))).
  - exact (proj2 (H 1%nat ltac:(cbn; lia))).
Defined.

(** *** The receive path *)






(** *** Single sends *)

(** X20. [af_xdp_send] on an open socket, with the memory area live and
    the tx ring in order: with the ring full it returns -1 and neither
    the ring nor the memory area changes; otherwise, when the copy stays
    inside the memory area, it returns the length, appends the
    descriptor (producer index * FRAME_SIZE, length) to the ring, and
    the area holds the data at that address; when the copy runs past
    the end of the area the call is undefined.  The address is computed
    from the free-running producer index, not from the slot: it lies
    inside the NUM_FRAMES * FRAME_SIZE bytes of the memory area exactly
    while the producer index is below NUM_FRAMES. *)
Theorem af_xdp_send_spec (data : list byte) (idx0 fd : Z) (g : xdp_globals) :
  xsk g = Some fd ->
  umem_area_ptr g = PtrLive ->
  prod_ring_ok (tx_ring g) ->
  Z.of_nat (List.length data) < 2 ^ 31 ->
  producer (tx_ring g) < 2 ^ 20 ->
  let a := producer (tx_ring g) * FRAME_SIZE in
  if 0 <? ring_room (tx_ring g) then
    (a + Z.of_nat (List.length data) <= umem_size ->
     match af_xdp_send data idx0 g with
     | Some (ret, written, _, g') =>
         ret = Z.of_nat (List.length data) /\
         written = [a] /\
         map desc_view (ring_contents (tx_ring g'))
           = map desc_view (ring_contents (tx_ring g))
             ++ [(a, Z.of_nat (List.length data))] /\
         umem_read (umem_area g') a (Z.of_nat (List.length data)) = data
     | None => False
     end) /\
    (umem_size < a + Z.of_nat (List.length data) ->
     af_xdp_send data idx0 g = None) /\
    (a < umem_size <-> producer (tx_ring g) < NUM_FRAMES)
  else
    match af_xdp_send data idx0 g with
    | Some (ret, written, _, g') =>
        ret = -1 /\ written = [] /\
        ring_contents (tx_ring g') = ring_contents (tx_ring g) /\
        umem_area g' = umem_area g
    | None => False
    end.
Proof.
  intros Hxsk Hlive Hok Hdata Hprod a.
  destruct (Z.ltb_spec 0 (ring_room (tx_ring g))) as [Hroom|Hfull].
  - split; [|split].
    + intros Harea.
      destruct (af_xdp_send_fits data idx0 fd g Hxsk Hlive Hok Hroom Harea)
        as (calls & tx' & -> & _ & _ & Hcont).
      cbn [tx_ring umem_area].
      split; [reflexivity|]. split; [reflexivity|]. split; [exact Hcont|].
      apply umem_read_copy.
    + intros Hout.
      exact (af_xdp_send_outside data idx0 fd g Hxsk Hok Hroom Hprod Hout).
    + pose proof Hok as (_ & _ & Hcp & _).
      unfold a, umem_size. change NUM_FRAMES with 4096.
      change FRAME_SIZE with 4096. lia.
  - destruct (af_xdp_send_full data idx0 fd g Hxsk Hok Hfull)
      as (tx' & -> & _ & _ & Hcont).
    cbn [tx_ring umem_area].
    split; [reflexivity|]. split; [reflexivity|].
    split; [exact Hcont | reflexivity].
Qed.

(** One packet on the fresh ring. *)
Lemma af_xdp_send_spec_witness :
  match af_xdp_send [x07; x08] 0 xdp_ready with
  | Some (ret, written, _, g') =>
      ret = 2 /\ written = [0] /\
      map desc_view (ring_contents (tx_ring g')) = [(0, 2)] /\
      umem_read (umem_area g') 0 2 = [x07; x08]
  | None => False
  end.
Proof.
  assert (Hok : prod_ring_ok (tx_ring xdp_ready))
    by exact (proj1 (ring_create_ok xdp_desc_zero)).
  pose proof (af_xdp_send_spec [x07; x08] 0 5 xdp_ready eq_refl eq_refl Hok
                ltac:(vm_compute; reflexivity) ltac:(vm_compute; reflexivity))
    as H.
  cbv zeta in H.
  change (0 <? ring_room (tx_ring xdp_ready)) with true in H.
  destruct H as (H & _ & _).
  specialize (H ltac:(vm_compute; discriminate)).
  destruct (af_xdp_send [x07; x08] 0 xdp_ready)
    as [[[[ret written] calls] g']|]; [|exact H].
  exact H.
Defined.

(** *** Single sends through io_uring *)

(** X21. [io_uring_send_single] never touches the counters: whatever the
    outcome, [io_uring_stats], the socket and the initialisation flag
    are as before, so a packet sent this way is not counted, while the
    same packet sent as a batch of one is.  On an initialised ring with
    a free entry, a submission that succeeds and a completion with
    result [res], the single send returns [res] itself (the byte count
    or the negated error), the batch of one returns 1 or 0. *)
Theorem io_uring_send_single_uncounted (h : uring_host) (data : list byte)
    (dest : sockaddr_in) (ud : Z) (g : uring_globals) :
  let '(ret, g') := io_uring_send_single h data dest ud g in
  io_uring_stats g' = io_uring_stats g /\
  io_uring_sockfd g' = io_uring_sockfd g /\
  io_uring_initialized g' = io_uring_initialized g /\
  (truthy (io_uring_initialized g) = false -> ret = -1 /\ g' = g) /\
  (io_uring_get_sqe (ring g) = false -> ret = -1 /\ g' = g) /\
  forall res : Z,
    truthy (io_uring_initialized g) = true ->
    io_uring_get_sqe (ring g) = true ->
    calloc_ok h = true -> submit_ret h = 1 ->
    wait_cqe h 0 = WaitCqe res ->
    ret = res /\
    cq_outstanding (ring g') = cq_outstanding (ring g) /\
    let '(ret_b, g_b) := io_uring_send_batch h [(data, dest)] g in
    ret_b = (if res >=? 0 then 1 else 0) /\
    io_uring_stats g_b
      = d_stats (account_cqe res {| completed := 0;
                                    d_stats := io_uring_stats g;
                                    d_ring := ring g |}).
Proof.
  unfold io_uring_send_single.
  destruct (truthy (io_uring_initialized g)) eqn:Hinit; cbn [negb].
  2:{ do 3 (split; [reflexivity|]).
      split; [intros _; split; reflexivity|].
      split; [intros _; split; reflexivity|].
      intros res Hf. discriminate Hf. }
  destruct (io_uring_get_sqe (ring g)) eqn:Hsqe; cbn [negb].
  2:{ do 3 (split; [reflexivity|]).
      split; [intros Hf; discriminate Hf|].
      split; [intros _; split; reflexivity|].
      intros res _ Hf. discriminate Hf. }
  assert (Hgen : forall res : Z,
            calloc_ok h = true -> submit_ret h = 1 ->
            let '(ret_b, g_b) := io_uring_send_batch h [(data, dest)] g in
            wait_cqe h 0 = WaitCqe res ->
            ret_b = (if res >=? 0 then 1 else 0) /\
            io_uring_stats g_b
              = d_stats (account_cqe res {| completed := 0;
                                            d_stats := io_uring_stats g;
                                            d_ring := ring g |})).
  { intros res Hc Hs. unfold io_uring_send_batch.
    rewrite Hinit, Hc, Hs. cbn [negb prepare_sqes]. rewrite Hsqe.
    change (to_int 1) with 1. change (Z.to_nat 1) with 1%nat.
    cbn [drain_cqes]. intros Hw. rewrite Hw.
    unfold account_cqe. cbn [completed d_stats].
    destruct (res >=? 0); cbn [completed d_stats]; split; reflexivity. }
  destruct (to_int (submit_ret h) <? 0) eqn:Hsub.
  - cbn [io_uring_stats io_uring_sockfd io_uring_initialized].
    do 3 (split; [reflexivity|]).
    do 2 (split; [intros; discriminate|]).
    intros res _ _ Hc Hs Hw. rewrite Hs in Hsub. discriminate Hsub.
  - destruct (wait_cqe h 0) as [wret|wres] eqn:Hwait;
      cbn [io_uring_stats io_uring_sockfd io_uring_initialized];
      do 3 (split; [reflexivity|]);
      do 2 (split; [intros; discriminate|]);
      intros res _ _ Hc Hs Hw; [discriminate Hw|].
    injection Hw as ->. split; [reflexivity|].
    split.
    + rewrite Hs. change (to_int 1) with 1. cbn. lia.
    + specialize (Hgen res Hc Hs).
      destruct (io_uring_send_batch h [(data, dest)] g) as [ret_b g_b].
      apply Hgen. reflexivity.
Qed.


(** Five bytes sent singly and as a batch of one. *)
Lemma io_uring_send_single_uncounted_witness :
  let data := [x48; x65; x6c; x6c; x6f] in
  let dest := mk_sockaddr_in AF_INET 5678 0 in
  let '(ret, g') := io_uring_send_single host_one_sent data dest 0 uring_ready in
  ret = 5 /\ io_uring_stats g' = stats_zero /\
  let '(ret_b, g_b) := io_uring_send_batch host_one_sent [(data, dest)] uring_ready in
  ret_b = 1 /\ io_uring_stats g_b = mk_stats 1 0 5 0 0.
Proof.
  intros data dest.
  pose proof (io_uring_send_single_uncounted host_one_sent data dest 0
                uring_ready) as H.
  destruct (io_uring_send_single host_one_sent data dest 0 uring_ready)
    as [ret g'].
  destruct H as (Hstats & _ & _ & _ & _ & H).
  specialize (H 5 eq_refl eq_refl eq_refl eq_refl eq_refl).
  destruct H as (Hret & _ & Hb).
  split; [exact Hret|]. split; [exact Hstats|].
  destruct (io_uring_send_batch host_one_sent [(data, dest)] uring_ready)
    as [ret_b g_b].
  exact Hb.
Defined.


(** *** DPDK *)

Lemma mbufs_allocated_frees (l : list nat) :
  mbufs_allocated (map MbufFree l) = [].
Proof. induction l as [|x l IH]; [reflexivity | exact IH]. Qed.

Lemma mbufs_freed_frees (l : list nat) : mbufs_freed (map MbufFree l) = l.
Proof.
  induction l as [|x l IH]; [reflexivity|].
  cbn [map]. unfold mbufs_freed in *. cbn [flat_map app]. now rewrite IH.
Qed.

Lemma mbufs_sent_frees (l : list nat) : mbufs_sent (map MbufFree l) = [].
Proof. induction l as [|x l IH]; [reflexivity | exact IH]. Qed.

Lemma mbufs_filled_frees (l : list nat) : mbufs_filled (map MbufFree l) = [].
Proof. induction l as [|x l IH]; [reflexivity | exact IH]. Qed.

Lemma firstn_seq_le (n : nat) :
  forall a m : nat, (n <= m)%nat -> firstn n (seq a m) = seq a n.
Proof.
  induction n as [|n IH]; intros a m Hle; [reflexivity|].
  destruct m as [|m]; [lia|].
  cbn [seq firstn]. f_equal. apply IH. lia.
Qed.

Lemma tx_burst_frees (l : list nat) :
  existsb is_tx_burst (map MbufFree l) = false.
Proof. induction l as [|x l IH]; [reflexivity | exact IH]. Qed.

(** The allocation loop on packets shorter than 65536 bytes: it is
    defined and completes exactly when every allocation and append
    succeeds.  When it completes, it holds mbufs [i, i+1, ...], one per
    packet and filled with it, and has freed none; when it gives up, it
    has freed every mbuf allocated so far.  It hands nothing to the
    device. *)
Lemma alloc_mbufs_spec (h : dpdk_host) (packets : list (list byte)) :
  (forall p : list byte, In p packets -> Z.of_nat (List.length p) < 65536) ->
  forall i : nat,
    exists calls : list dpdk_call,
      alloc_mbufs h i packets = Some (mbufs_granted h i packets, calls) /\
      mbufs_sent calls = [] /\
      existsb is_tx_burst calls = false /\
      if mbufs_granted h i packets then
        mbufs_allocated calls = seq i (List.length packets) /\
        mbufs_freed calls = [] /\
        mbufs_filled calls = combine (seq i (List.length packets)) packets
      else
        exists k : nat,
          mbufs_allocated calls = seq i k /\
          Permutation (mbufs_freed calls) (seq 0 (i + k)).
Proof.
  induction packets as [|p rest IH]; intros Hshort i.
  - exists []. cbn [alloc_mbufs mbufs_granted]. repeat split; reflexivity.
  - cbn [alloc_mbufs mbufs_granted].
    destruct (rte_pktmbuf_alloc h i); cbn [negb andb].
    2:{ eexists. split; [reflexivity|]. split; [|split].
        - unfold mbufs_sent. cbn [flat_map app]. apply mbufs_sent_frees.
        - cbn [existsb is_tx_burst orb]. apply tx_burst_frees.
        - exists 0%nat. split.
          + unfold mbufs_allocated. cbn [flat_map app].
            apply mbufs_allocated_frees.
          + unfold mbufs_freed. cbn [flat_map app].
            fold (mbufs_freed (map MbufFree (seq 0 i))).
            rewrite mbufs_freed_frees, Nat.add_0_r. apply Permutation_refl. }
    destruct (rte_pktmbuf_append h i (u16 (u32 (Z.of_nat (List.length p)))));
      cbn [negb andb].
    2:{ eexists. split; [reflexivity|]. split; [|split].
        - unfold mbufs_sent. cbn [flat_map app]. apply mbufs_sent_frees.
        - cbn [existsb is_tx_burst orb]. apply tx_burst_frees.
        - exists 1%nat. split.
          + unfold mbufs_allocated. cbn [flat_map app].
            fold (mbufs_allocated (map MbufFree (seq 0 i))).
            rewrite mbufs_allocated_frees. reflexivity.
          + unfold mbufs_freed. cbn [flat_map app].
            fold (mbufs_freed (map MbufFree (seq 0 i))).
            rewrite mbufs_freed_frees, seq_app. cbn [seq Nat.add].
            apply Permutation_cons_append. }
    assert (Hp : Z.of_nat (List.length p) < 65536)
      by (apply Hshort; left; reflexivity).
    assert (Hl : (u16 (u32 (Z.of_nat (List.length p)))
                  <? u32 (Z.of_nat (List.length p))) = false).
    { rewrite (u32_small (Z.of_nat (List.length p)))
        by (change (2 ^ 32) with 4294967296; lia).
      unfold u16, wrap. rewrite Z.mod_small by (change (2 ^ 16) with 65536; lia).
      apply Z.ltb_irrefl. }
    rewrite Hl.
    destruct (IH ltac:(intros q Hq; apply Hshort; right; exact Hq) (S i))
      as (calls & -> & Hsent & Htx & Hrest).
    eexists. split; [reflexivity|].
    split; [exact Hsent|]. split; [exact Htx|].
    destruct (mbufs_granted h (S i) rest).
    + destruct Hrest as (Ha & Hf & Hc).
      unfold mbufs_allocated, mbufs_freed, mbufs_filled in *.
      cbn [flat_map app List.length seq combine].
      rewrite Ha, Hf, Hc. repeat split; reflexivity.
    + destruct Hrest as (k & Ha & Hf). exists (S k).
      unfold mbufs_allocated, mbufs_freed in *.
      cbn [flat_map app seq]. rewrite Ha. split; [reflexivity|].
      replace (i + S k)%nat with (S i + k)%nat by lia. exact Hf.
Qed.

(** X22. [dpdk_send_burst] on packets shorter than 65536 bytes neither
    leaks an mbuf nor frees one twice, provided the device reports no
    more packets taken than it was given: the mbufs handed to the device
    together with the mbufs freed are exactly the mbufs allocated, each
    once.  When the library is initialised with a pool and every
    allocation and append succeeds, it returns the number the device
    took, hands over the first that many mbufs, and packet [i] was
    copied into mbuf [i]; in every other case it returns -1 and makes no
    [rte_eth_tx_burst] call. *)
Theorem dpdk_send_burst_mbufs (port_id : Z) (packets : list (list byte))
    (h : dpdk_host) (g : dpdk_globals) :
  let nb_pkts := u16 (Z.of_nat (List.length packets)) in
  0 <= rte_eth_tx_burst h (u16 port_id) nb_pkts <= nb_pkts ->
  (forall p : list byte, In p packets -> Z.of_nat (List.length p) < 65536) ->
  match dpdk_send_burst port_id packets h g with
  | Some (ret, calls) =>
      Permutation (mbufs_sent calls ++ mbufs_freed calls)
                  (mbufs_allocated calls) /\
      NoDup (mbufs_allocated calls) /\
      if truthy (dpdk_initialized g) && mbuf_pool g && mbufs_granted h 0 packets
      then
        ret = rte_eth_tx_burst h (u16 port_id) nb_pkts /\
        mbufs_sent calls = seq 0 (Z.to_nat ret) /\
        mbufs_filled calls = combine (seq 0 (List.length packets)) packets
      else
        ret = -1 /\ mbufs_sent calls = [] /\
        existsb is_tx_burst calls = false
  | None => False
  end.
Proof.
  intros nb_pkts Htx Hshort. unfold dpdk_send_burst.
  destruct (truthy (dpdk_initialized g)); cbn [negb orb andb].
  2:{ split; [apply Permutation_refl|]. split; [constructor|].
      repeat split; reflexivity. }
  destruct (mbuf_pool g); cbn [negb orb andb].
  2:{ split; [apply Permutation_refl|]. split; [constructor|].
      repeat split; reflexivity. }
  destruct (alloc_mbufs_spec h packets Hshort 0)
    as (calls & -> & Hsent & Hnotx & Hloop).
  destruct (mbufs_granted h 0 packets); cbn [negb].
  - destruct Hloop as (Ha & Hf & Hc). fold nb_pkts.
    set (sent := rte_eth_tx_burst h (u16 port_id) nb_pkts) in *.
    assert (Hnb : 0 <= nb_pkts <= Z.of_nat (List.length packets)).
    { unfold nb_pkts, u16, wrap.
      pose proof (Z.mod_pos_bound (Z.of_nat (List.length packets)) (2 ^ 16)
                    ltac:(lia)).
      pose proof (Z.mod_le (Z.of_nat (List.length packets)) (2 ^ 16)
                    ltac:(lia) ltac:(lia)).
      lia. }
    assert (Hu : u16 sent = sent).
    { unfold u16, wrap. apply Z.mod_small.
      pose proof (Z.mod_pos_bound (Z.of_nat (List.length packets)) (2 ^ 16)
                    ltac:(lia)) as Hb.
      fold (wrap 16 (Z.of_nat (List.length packets))) in Hb.
      fold (u16 (Z.of_nat (List.length packets))) in Hb. fold nb_pkts in Hb.
      lia. }
    rewrite Hu.
    assert (Hs : mbufs_sent
                   (calls ++ TxBurst (u16 port_id) 0
                               (seq 0 (List.length packets)) nb_pkts sent
                      :: map MbufFree
                           (seq (Z.to_nat sent)
                                (List.length packets - Z.to_nat sent)))
                 = seq 0 (Z.to_nat sent)).
    { unfold mbufs_sent in *. rewrite flat_map_app, Hsent.
      cbn [flat_map app].
      fold (mbufs_sent (map MbufFree (seq (Z.to_nat sent)
                                         (List.length packets - Z.to_nat sent)))).
      rewrite mbufs_sent_frees, app_nil_r. apply firstn_seq_le. lia. }
    assert (Hfr : mbufs_freed
                    (calls ++ TxBurst (u16 port_id) 0
                                (seq 0 (List.length packets)) nb_pkts sent
                       :: map MbufFree
                            (seq (Z.to_nat sent)
                                 (List.length packets - Z.to_nat sent)))
                  = seq (Z.to_nat sent) (List.length packets - Z.to_nat sent)).
    { unfold mbufs_freed in *. rewrite flat_map_app, Hf.
      cbn [flat_map app].
      fold (mbufs_freed (map MbufFree (seq (Z.to_nat sent)
                                          (List.length packets - Z.to_nat sent)))).
      apply mbufs_freed_frees. }
    assert (Hal : mbufs_allocated
                    (calls ++ TxBurst (u16 port_id) 0
                                (seq 0 (List.length packets)) nb_pkts sent
                       :: map MbufFree
                            (seq (Z.to_nat sent)
                                 (List.length packets - Z.to_nat sent)))
                  = seq 0 (List.length packets)).
    { unfold mbufs_allocated in *. rewrite flat_map_app, Ha.
      cbn [flat_map app].
      fold (mbufs_allocated (map MbufFree (seq (Z.to_nat sent)
                                              (List.length packets - Z.to_nat sent)))).
      rewrite mbufs_allocated_frees. apply app_nil_r. }
    assert (Hfi : mbufs_filled
                    (calls ++ TxBurst (u16 port_id) 0
                                (seq 0 (List.length packets)) nb_pkts sent
                       :: map MbufFree
                            (seq (Z.to_nat sent)
                                 (List.length packets - Z.to_nat sent)))
                  = combine (seq 0 (List.length packets)) packets).
    { unfold mbufs_filled in *. rewrite flat_map_app, Hc.
      cbn [flat_map app].
      fold (mbufs_filled (map MbufFree (seq (Z.to_nat sent)
                                           (List.length packets - Z.to_nat sent)))).
      rewrite mbufs_filled_frees. apply app_nil_r. }
    rewrite Hs, Hfr, Hal, Hfi.
    split; [|split; [apply seq_NoDup|]].
    + replace (seq 0 (List.length packets))
        with (seq 0 (Z.to_nat sent + (List.length packets - Z.to_nat sent)))
        by (f_equal; lia).
      rewrite seq_app. apply Permutation_refl.
    + repeat split; reflexivity.
  - destruct Hloop as (k & Ha & Hf). rewrite Hsent, Ha. cbn [app].
    split; [exact Hf|]. split; [apply seq_NoDup|].
    split; [reflexivity|]. split; [reflexivity | exact Hnotx].
Qed.

(** Three packets of which the device takes two. *)
Lemma dpdk_send_burst_mbufs_witness :
  match dpdk_send_burst 0 [[x01]; [x02]; [x03]] dpdk_host_ok dpdk_ready with
  | Some (ret, calls) =>
      ret = 2 /\ mbufs_sent calls = [0; 1]%nat /\
      mbufs_freed calls = [2%nat] /\
      Permutation (mbufs_sent calls ++ mbufs_freed calls)
                  (mbufs_allocated calls)
  | None => False
  end.
Proof.
  pose proof (dpdk_send_burst_mbufs 0 [[x01]; [x02]; [x03]] dpdk_host_ok
                dpdk_ready ltac:(vm_compute; split; discriminate)
                ltac:(intros p [<- | [<- | [<- | []]]]; vm_compute; reflexivity))
    as H.
  split; [reflexivity|]. split; [reflexivity|]. split; [reflexivity|].
  exact (proj1 H).
Defined.

(** X23. [init_dpdk_port] returns 0 exactly when the library is
    initialised, the device information and the configuration calls
    return 0 and the two queue setups and the start return no negative
    value; the result of enabling promiscuous mode does not count.  The
    calls it makes are an initial part of the bring-up sequence, all of
    it exactly when it returns 0: it stops at the first call that fails
    and undoes nothing. *)
Theorem init_dpdk_port_spec (port_id : Z) (h : dpdk_host) (g : dpdk_globals) :
  let p := u16 port_id in
  let '(ret, calls) := init_dpdk_port port_id h g in
  (ret = 0 <->
   truthy (dpdk_initialized g) = true /\
   rte_eth_dev_info_get h p = 0 /\ rte_eth_dev_configure h p = 0 /\
   0 <= rte_eth_rx_queue_setup h p /\ 0 <= rte_eth_tx_queue_setup h p /\
   0 <= rte_eth_dev_start h p) /\
  (exists k : nat, calls = firstn k (port_bringup port_id (mbuf_pool g))) /\
  (ret = 0 <-> calls = port_bringup port_id (mbuf_pool g)).
Proof.
  intros p. unfold init_dpdk_port, port_bringup. fold p.
  destruct (truthy (dpdk_initialized g)); cbn [negb].
  2:{ split; [split; [discriminate | intros [Hf _]; discriminate Hf]|].
      split; [exists 0%nat; reflexivity|].
      split; discriminate. }
  destruct (Z.eqb_spec (rte_eth_dev_info_get h p) 0) as [Hi|Hi]; cbn [negb].
  2:{ split; [split; [contradiction | intros (_ & Hf & _); contradiction]|].
      split; [exists 1%nat; reflexivity|].
      split; [contradiction | discriminate]. }
  destruct (Z.eqb_spec (rte_eth_dev_configure h p) 0) as [Hc|Hc]; cbn [negb app].
  2:{ split; [split; [contradiction | intros (_ & _ & Hf & _); contradiction]|].
      split; [exists 2%nat; reflexivity|].
      split; [contradiction | discriminate]. }
  destruct (Z.ltb_spec (rte_eth_rx_queue_setup h p) 0) as [Hr|Hr]; cbn [app].
  { split; [split; [lia | intros (_ & _ & _ & Hf & _); lia]|].
    split; [exists 3%nat; reflexivity|].
    split; [lia | discriminate]. }
  destruct (Z.ltb_spec (rte_eth_tx_queue_setup h p) 0) as [Ht|Ht]; cbn [app].
  { split; [split; [lia | intros (_ & _ & _ & _ & Hf & _); lia]|].
    split; [exists 4%nat; reflexivity|].
    split; [lia | discriminate]. }
  destruct (Z.ltb_spec (rte_eth_dev_start h p) 0) as [Hs|Hs]; cbn [app].
  { split; [split; [lia | intros (_ & _ & _ & _ & _ & Hf); lia]|].
    split; [exists 5%nat; reflexivity|].
    split; [lia | discriminate]. }
  split; [split; [intros _; repeat split; assumption | reflexivity]|].
  split; [exists 6%nat; reflexivity|].
  split; reflexivity.
Qed.

(** X24. [cleanup_dpdk] always returns 0 and calls [rte_eal_cleanup]
    exactly when the library was initialised; it keeps the pool pointer.
    After it, a second clean-up does nothing, and [init_dpdk_port] and
    [dpdk_send_burst] return -1 without a library call, until a
    [dpdk_init] whose two steps succeed, after which the state is
    initialised with a pool.  A [dpdk_init] that fails returns -1 and
    leaves the initialisation flag as it found it. *)
Theorem cleanup_dpdk_disables (g : dpdk_globals) (h : dpdk_host) (port_id : Z)
    (packets : list (list byte)) :
  let '(ret, calls, g') := cleanup_dpdk g in
  ret = 0 /\
  (calls = [EalCleanup] <-> truthy (dpdk_initialized g) = true) /\
  (calls = [] <-> truthy (dpdk_initialized g) = false) /\
  mbuf_pool g' = mbuf_pool g /\
  cleanup_dpdk g' = (0, [], g') /\
  init_dpdk_port port_id h g' = (-1, []) /\
  dpdk_send_burst port_id packets h g' = Some (-1, []) /\
  let '(ret_i, _, g_i) := dpdk_init h g' in
  (0 <= ret_i <->
   0 <= rte_eal_init h /\ rte_pktmbuf_pool_create h = true) /\
  (0 <= ret_i ->
   ret_i = rte_eal_init h /\ g_i = {| mbuf_pool := true; dpdk_initialized := 1 |}) /\
  (ret_i < 0 -> ret_i = -1 /\ dpdk_initialized g_i = dpdk_initialized g').
Proof.
  assert (Hinit : forall g0 : dpdk_globals,
            let '(ret_i, _, g_i) := dpdk_init h g0 in
            (0 <= ret_i <->
             0 <= rte_eal_init h /\ rte_pktmbuf_pool_create h = true) /\
            (0 <= ret_i ->
             ret_i = rte_eal_init h /\
             g_i = {| mbuf_pool := true; dpdk_initialized := 1 |}) /\
            (ret_i < 0 -> ret_i = -1 /\ dpdk_initialized g_i = dpdk_initialized g0)).
  { intros g0. unfold dpdk_init.
    destruct (Z.ltb_spec (rte_eal_init h) 0) as [He|He].
    - split; [split; [lia | intros [Hf _]; lia]|].
      split; [lia | intros _; split; reflexivity].
    - destruct (rte_pktmbuf_pool_create h); cbn [negb].
      + split; [split; [intros _; split; [exact He | reflexivity] | intros _; exact He]|].
        split; [intros _; split; reflexivity | lia].
      + split; [split; [lia | intros [_ Hf]; discriminate Hf]|].
        split; [lia | intros _; split; reflexivity]. }
  unfold cleanup_dpdk.
  destruct (truthy (dpdk_initialized g)) eqn:Hg.
  - split; [reflexivity|].
    split; [split; reflexivity|].
    split; [split; discriminate|].
    split; [reflexivity|].
    split; [reflexivity|]. split; [reflexivity|]. split; [reflexivity|].
    apply Hinit.
  - split; [reflexivity|].
    split; [split; discriminate|].
    split; [split; reflexivity|].
    split; [reflexivity|].
    rewrite Hg. split; [reflexivity|].
    unfold init_dpdk_port, dpdk_send_burst. rewrite Hg. cbn [negb orb].
    split; [reflexivity|]. split; [reflexivity|].
    apply Hinit.
Qed.


(** *** The ring invariant *)

(** X25. The order of the tx ring is kept by both send functions: on an
    open socket with the memory area live, when the ring is in order
    before [af_xdp_send_batch] or [af_xdp_send] and whatever the call
    enqueues stays inside the area (the frames taken lie below
    [NUM_FRAMES], each packet fits its frame), the ring is in order
    afterwards, the socket is open and the area live as before, and the
    ring's free room has shrunk by exactly the number of descriptors
    enqueued: the batch size or none for the batch, one or none for the
    single send. *)
Theorem af_xdp_tx_ring_invariant (packets : list (list byte))
    (data : list byte) (idx0 fd : Z) (g : xdp_globals) :
  xsk g = Some fd ->
  umem_area_ptr g = PtrLive ->
  prod_ring_ok (tx_ring g) ->
  Z.of_nat (List.length packets) < 2 ^ 31 ->
  (Z.of_nat (List.length packets) <= ring_room (tx_ring g) ->
   producer (tx_ring g) + Z.of_nat (List.length packets) <= NUM_FRAMES) ->
  (0 < ring_room (tx_ring g) -> producer (tx_ring g) < NUM_FRAMES) ->
  (forall p : list byte,
     In p (data :: packets) -> Z.of_nat (List.length p) <= FRAME_SIZE) ->
  match af_xdp_send_batch packets idx0 g with
  | Some (ret, _, _, g') =>
      prod_ring_ok (tx_ring g') /\
      ring_room (tx_ring g') = ring_room (tx_ring g) - ret /\
      (ret = 0 \/ ret = Z.of_nat (List.length packets)) /\
      xsk g' = xsk g /\ umem_area_ptr g' = PtrLive
  | None => False
  end /\
  match af_xdp_send data idx0 g with
  | Some (_, written, _, g') =>
      prod_ring_ok (tx_ring g') /\
      ring_room (tx_ring g')
        = ring_room (tx_ring g) - Z.of_nat (List.length written) /\
      (List.length written <= 1)%nat /\
      xsk g' = xsk g /\ umem_area_ptr g' = PtrLive
  | None => False
  end.
Proof.
  intros Hxsk Hlive Hok Hcount Hbatch Hsingle Hfit.
  split.
  - destruct (Z.le_gt_cases (Z.of_nat (List.length packets))
                (ring_room (tx_ring g))) as [Hroom|Hfull].
    + destruct (af_xdp_send_batch_fits packets idx0 fd g Hxsk Hlive Hok Hroom
                  (Hbatch Hroom) ltac:(intros p Hp; apply Hfit; right; exact Hp))
        as (calls & area & tx' & -> & Hok' & Hroom' & _).
      cbn [tx_ring xsk umem_area_ptr].
      split; [exact Hok'|]. split; [exact Hroom'|].
      split; [right; reflexivity|]. split; reflexivity.
    + destruct (af_xdp_send_batch_full packets idx0 fd g Hxsk Hok Hcount
                  ltac:(lia))
        as (tx' & -> & Hok' & Hroom' & _).
      cbn [tx_ring xsk umem_area_ptr].
      split; [exact Hok'|]. split; [rewrite Hroom'; lia|].
      split; [left; reflexivity|]. split; [reflexivity | exact Hlive].
  - destruct (Z.lt_ge_cases 0 (ring_room (tx_ring g))) as [Hroom|Hfull].
    + assert (Hd : Z.of_nat (List.length data) <= FRAME_SIZE)
        by (apply Hfit; left; reflexivity).
      specialize (Hsingle Hroom).
      pose proof Hok as (_ & _ & Hcp & _).
      destruct (af_xdp_send_fits data idx0 fd g Hxsk Hlive Hok Hroom)
        as (calls & tx' & -> & Hok' & Hroom' & _).
      { unfold umem_size. change NUM_FRAMES with 4096 in *.
        change FRAME_SIZE with 4096 in *. lia. }
      cbn [tx_ring xsk umem_area_ptr List.length].
      split; [exact Hok'|]. split; [exact Hroom'|].
      split; [lia|]. split; reflexivity.
    + destruct (af_xdp_send_full data idx0 fd g Hxsk Hok Hfull)
        as (tx' & -> & Hok' & Hroom' & _).
      cbn [tx_ring xsk umem_area_ptr List.length].
      split; [exact Hok'|]. split; [rewrite Hroom'; cbn; lia|].
      split; [lia|]. split; [reflexivity | exact Hlive].
Qed.

(** Two packets, then one, on the fresh ring. *)
Lemma af_xdp_tx_ring_invariant_witness :
  match af_xdp_send_batch two_packets 0 xdp_ready with
  | Some (ret, _, _, g') =>
      prod_ring_ok (tx_ring g') /\
      ring_room (tx_ring g') = ring_room (tx_ring xdp_ready) - ret
  | None => False
  end /\
  match af_xdp_send [x07] 0 xdp_ready with
  | Some (_, written, _, g') =>
      prod_ring_ok (tx_ring g') /\
      ring_room (tx_ring g')
        = ring_room (tx_ring xdp_ready) - Z.of_nat (List.length written)
  | None => False
  end.
Proof.
  assert (Hok : prod_ring_ok (tx_ring xdp_ready))
    by exact (proj1 (ring_create_ok xdp_desc_zero)).
  assert (Hfit : forall p : list byte,
            In p ([x07] :: two_packets) ->
            Z.of_nat (List.length p) <= FRAME_SIZE).
  { intros p [<- | [<- | [<- | []]]]; vm_compute; discriminate. }
  pose proof (af_xdp_tx_ring_invariant two_packets [x07] 0 5 xdp_ready eq_refl
                eq_refl Hok ltac:(vm_compute; reflexivity)
                ltac:(intros _; vm_compute; discriminate)
                ltac:(intros _; vm_compute; reflexivity) Hfit) as [Hb Hs].
  split.
  - destruct (af_xdp_send_batch two_packets 0 xdp_ready)
      as [[[[ret w] c] g']|]; [|exact Hb].
    destruct Hb as (H1 & H2 & _). split; assumption.
  - destruct (af_xdp_send [x07] 0 xdp_ready)
      as [[[[ret w] c] g']|]; [|exact Hs].
    destruct Hs as (H1 & H2 & _). split; assumption.
Defined.

(** X26. [init_af_xdp] either succeeds, returning the socket's
    descriptor with the memory area and the umem handle live, both
    producer rings in order, the tx ring empty and the fill ring full
    (every frame posted, no room left), or fails, returning a value
    other than 0 with the socket as it was.  It succeeds exactly when
    the interface exists, the allocation succeeds and both libbpf calls
    return 0.  A failure leaves what the steps before it did: nothing
    when the interface is unknown; otherwise [umem_area] no longer
    points to a live area (it is [NULL] after a failed allocation and
    dangling after [free]); and when it is [xsk_socket__create] that
    fails, the fill ring is the ring [xsk_umem__create] has set up and
    [umem] is left dangling by [xsk_umem__delete]. *)
Theorem init_af_xdp_rings (h : xdp_host) (idx0 : Z) (g : xdp_globals) :
  let '(ret, g') := init_af_xdp h idx0 g in
  (init_succeeds h /\ ret = xsk_socket__fd h /\
   xsk g' = Some (xsk_socket__fd h) /\
   umem g' = PtrLive /\ umem_area_ptr g' = PtrLive /\
   prod_ring_ok (tx_ring g') /\ ring_room (tx_ring g') = NUM_FRAMES /\
   prod_ring_ok (fq g') /\ ring_room (fq g') = 0) \/
  (~ init_succeeds h /\ ret <> 0 /\ xsk g' = xsk g /\
   (if_nametoindex h = 0 -> g' = g) /\
   (if_nametoindex h <> 0 ->
    umem_area_ptr g'
      = match aligned_alloc h with Some _ => PtrFreed | None => PtrNull end) /\
   (if_nametoindex h <> 0 -> aligned_alloc h <> None ->
    xsk_umem__create h <> 0 ->
    ret = xsk_umem__create h /\ umem g' = umem g /\
    tx_ring g' = tx_ring g /\
    fq g' = xsk_umem__create_leaves h (fq g)) /\
   (if_nametoindex h <> 0 -> aligned_alloc h <> None ->
    xsk_umem__create h = 0 ->
    ret = xsk_socket__create h /\ umem g' = PtrFreed /\
    tx_ring g' = xsk_socket__create_leaves h (tx_ring g) /\
    fq g' = ring_create NUM_FRAMES 0)).
Proof.
  assert (HNF : NUM_FRAMES = 4096) by reflexivity.
  assert (H32 : 2 ^ 32 = 4294967296) by reflexivity.
  destruct (Z.eqb_spec (if_nametoindex h) 0) as [Hif|Hif].
  { unfold init_af_xdp. rewrite Hif. cbn [Z.eqb]. right.
    split; [intros (Hf & _); contradiction|].
    split; [discriminate|]. split; [reflexivity|].
    split; [reflexivity|].
    split; [intros Hf; contradiction|].
    split; intros Hf; contradiction. }
  destruct (aligned_alloc h) as [area|] eqn:Halloc.
  2:{ unfold init_af_xdp. rewrite Halloc.
      destruct (Z.eqb_spec (if_nametoindex h) 0); [contradiction|].
      right.
      split; [intros (_ & Hf & _); congruence|].
      split; [discriminate|]. split; [reflexivity|].
      split; [intros Hf; contradiction|].
      split; [reflexivity|].
      split; intros _ Hf; contradiction. }
  destruct (Z.eqb_spec (xsk_umem__create h) 0) as [Hu|Hu].
  2:{ unfold init_af_xdp. rewrite Halloc.
      destruct (Z.eqb_spec (if_nametoindex h) 0); [contradiction|].
      destruct (Z.eqb_spec (xsk_umem__create h) 0); [contradiction|].
      cbn [negb]. right.
      split; [intros (_ & _ & Hf & _); contradiction|].
      split; [assumption|]. split; [reflexivity|].
      split; [intros Hf; contradiction|].
      split; [reflexivity|].
      split; [intros _ _ _; repeat split; reflexivity|].
      intros _ _ Hf. contradiction. }
  destruct (Z.eqb_spec (xsk_socket__create h) 0) as [Hs|Hs].
  2:{ unfold init_af_xdp. rewrite Halloc, Hu.
      destruct (Z.eqb_spec (if_nametoindex h) 0); [contradiction|].
      destruct (Z.eqb_spec (xsk_socket__create h) 0); [contradiction|].
      cbn [negb Z.eqb]. right.
      split; [intros (_ & _ & _ & Hf); contradiction|].
      split; [assumption|]. split; [reflexivity|].
      split; [intros Hf; contradiction|].
      split; [reflexivity|].
      split; [intros _ _ Hf; congruence|].
      intros _ _ _. repeat split; reflexivity. }
  assert (Hok : init_succeeds h).
  { repeat split; try assumption. congruence. }
  destruct (init_af_xdp_success h idx0 g Hok) as (area' & _ & ->). left.
  split; [exact Hok|]. split; [reflexivity|]. split; [reflexivity|].
  split; [reflexivity|]. split; [reflexivity|].
  cbn [tx_ring fq].
  split; [exact (proj1 (ring_create_ok xdp_desc_zero))|].
  split; [exact (proj2 (ring_create_ok xdp_desc_zero))|].
  set (r0 := mk_prod NUM_FRAMES NUM_FRAMES (NUM_FRAMES - 1) NUM_FRAMES
                     0 0 0 (fun _ : Z => 0)).
  destruct (populate_fill_spec (Z.to_nat NUM_FRAMES) 0 0 r0 eq_refl
              ltac:(lia) ltac:(rewrite HNF; cbn; lia)
              ltac:(lia) ltac:(rewrite HNF; cbn; lia))
    as (Hcp & Hcc & Hm & Hsz & Hp & Hc & _).
  revert Hcp Hcc Hm Hsz Hp Hc.
  generalize (populate_fill (Z.to_nat NUM_FRAMES) 0 0 r0).
  intros r1 Hcp Hcc Hm Hsz Hp Hc.
  unfold r0 in *.
  cbn [size mask producer consumer cached_prod cached_cons] in *.
  unfold prod_ring_ok, ring_room, xsk_ring_prod__submit.
  cbn [size mask producer consumer cached_prod cached_cons].
  rewrite Hcp, Hcc, Hm, Hsz, Hp, Hc.
  rewrite (u32_small (0 + NUM_FRAMES)) by lia.
  split; [|lia]. repeat split; lia.
Qed.
